(** * AIDeployer: the build pipeline, embedded and verified

    A shallow embedding of the generation fallback manager
    ([app/services/llm]), the code generator post-processing
    ([app/services/code_generator.py]), the repository synchronisation
    engine ([app/services/github/github_service.py]), the notification
    protocol ([app/services/deployment.py]) and the part of the request
    orchestrator that feeds them ([app/api/endpoints.py]).

    Python code that talks to the outside world is embedded as a program
    over a signature of external operations ([eff]); a [handler] plays the
    outside world.  Every external operation may answer with an exception,
    and [try]/[except] is the continuation's case analysis on the answer.
    Calls to [logger] have no effect on any value and are left out. *)

From Stdlib Require Import ZArith QArith_base Lia List Ascii.
From stdpp Require Import base option list strings pretty gmap.

Local Open Scope string_scope.
Local Open Scope Z_scope.
Local Open Scope list_scope.

(** ** Python values shared by all components *)

(** Exceptions.  [GithubException] is PyGithub's, with its HTTP status;
    [RetryError] is tenacity's, raised by [@retry] when it gives up and
    carrying the exception of the last attempt. *)
Inductive exn : Type :=
| Exception (msg : string)
| GithubException (status : Z) (msg : string)
| RetryError (last : exn).

(** [str(e)]. *)
Fixpoint exn_str (e : exn) : string :=
  match e with
  | Exception msg => msg
  | GithubException status msg => pretty status +:+ " " +:+ msg
  | RetryError last => "RetryError[" +:+ exn_str last +:+ "]"
  end.

(** Truthiness of a [str] and of an [Optional[str]]. *)
Definition truthy (s : string) : bool :=
  match s with EmptyString => false | String _ _ => true end.

Definition truthy_opt (s : option string) : bool :=
  match s with None => false | Some s => truthy s end.

(** [s.startswith(p)]. *)
Fixpoint startswith (p s : string) : bool :=
  match p, s with
  | EmptyString, _ => true
  | String a p', String b s' => if Ascii.eqb a b then startswith p' s' else false
  | String _ _, EmptyString => false
  end.

(** A Python [dict] with [str] keys: insertion ordered, assignment to a
    present key keeps its position. *)
Module PyDict.
Definition t (V : Type) : Type := list (string * V).

Fixpoint get {V} (k : string) (d : t V) : option V :=
  match d with
  | [] => None
  | (k', v) :: d' => if String.eqb k k' then Some v else get k d'
  end.

Definition contains {V} (k : string) (d : t V) : bool :=
  match get k d with Some _ => true | None => false end.

Fixpoint set {V} (k : string) (v : V) (d : t V) : t V :=
  match d with
  | [] => [(k, v)]
  | (k', v') :: d' =>
      if String.eqb k k' then (k', v) :: d' else (k', v') :: set k v d'
  end.

Definition keys {V} (d : t V) : list string := map fst d.

(** [d.update(other)]. *)
Definition update {V} (d other : t V) : t V :=
  fold_left (fun acc kv => set (fst kv) (snd kv) acc) other d.
End PyDict.

(** ** Data model *)

(** [app/models/schemas.py] *)
Record AttachmentSchema := {
  att_name : string;
  att_url : string
}.

Record BuildRequestSchema := {
  req_email : string;
  req_secret : string;
  req_task : string;
  req_round : Z;
  req_nonce : string;
  req_brief : string;
  req_checks : list string;
  req_evaluation_url : string;
  req_attachments : list AttachmentSchema
}.

Record EvaluationResponseSchema := {
  ev_email : string;
  ev_task : string;
  ev_round : Z;
  ev_nonce : string;
  ev_repo_url : string;
  ev_commit_sha : string;
  ev_pages_url : string
}.

(** A processed attachment, as [AttachmentHandler.process_attachment]
    builds it: [content] is always [bytes] there. *)
Record attachment := {
  name : string;
  mime_type : string;
  content : list Byte.byte;
  is_binary : bool;
  source : string
}.

(** [app/services/llm/base.py] *)
Record LLMResponse := {
  resp_content : string;
  resp_model : string;
  resp_provider : string;
  resp_usage : option (list (string * option Z))
}.

(** The wire shape of a request to a provider. *)
Inductive content_part : Type :=
| TextPart (text : string)
| ImageUrlPart (url : string).

Inductive message_content : Type :=
| TextContent (text : string)
| PartsContent (parts : list content_part).

Record message := {
  role : string;
  msg_content : message_content
}.

(** An SDK client: the credentials and endpoint it was built with. *)
Record client := {
  client_api_key : string;
  client_base_url : option string
}.

(** [client.chat.completions.create(...)] of the openai SDK. *)
Record chat_request := {
  cr_model : string;
  cr_messages : list message;
  cr_max_tokens : option Z;
  cr_temperature : option Q
}.

(** The usage object of an answer: the count the code reads, and what
    [model_dump()] makes of the object, taken as the SDK gives it (the
    three counts and, by the version, further members that may be
    [None]). *)
Record completion_usage := {
  total_tokens : Z;
  model_dump : list (string * option Z)
}.

Record chat_completion := {
  choices : list string;
  usage : option completion_usage
}.

(** [client.messages.create(...)] of the anthropic SDK, with the
    arguments the code passes; [max_tokens], which the SDK requires, is
    not among them. *)
Record messages_request := {
  mr_model : string;
  mr_system : string;
  mr_messages : list message
}.

Record anthropic_message := {
  am_content : list string;
  am_input_tokens : Z;
  am_output_tokens : Z
}.

(** An httpx response. *)
Record http_response := {
  status_code : Z;
  text : string
}.

(** PyGithub objects.  Object names (shas) are natural numbers. *)
Record Repository := {
  repo_name : string;
  full_name : string;
  default_branch : string
}.

Record GitRef := {
  ref_name : string;
  ref_object_sha : nat
}.

Record GitCommit := {
  commit_sha : nat;
  commit_tree : nat;
  commit_parents : list nat;
  commit_message : string
}.

Record InputGitTreeElement := {
  el_path : string;
  el_mode : string;
  el_type : string;
  el_content : string
}.

(** A [ContentFile].  A directory listing carries the type and the path
    of each entry and neither [encoding] nor [content]: for an entry that
    is a file these two are empty until the object is completed. *)
Record ContentFile := {
  cf_type : string;
  cf_path : string;
  cf_encoding : string;
  cf_content : string
}.

(** ** External operations and programs *)

(** The operations the code asks of the outside world, indexed by the
    type of their answer. *)
Inductive eff : Type -> Type :=
| ChatCompletionsCreate (c : client) (req : chat_request) : eff chat_completion
| MessagesCreate (c : client) (req : messages_request) : eff anthropic_message
| HttpPost (url : string) (json : EvaluationResponseSchema)
    (headers : list (string * string)) : eff http_response
| Sleep (seconds : Z) : eff unit
| GetRepo (name : string) : eff Repository
| CreateRepo (name description : string) : eff Repository
| GetGitRef (repo : string) (ref : string) : eff GitRef
| GetGitCommit (repo : string) (sha : nat) : eff GitCommit
| CreateFile (repo : string) (path message content branch : string) : eff unit
| CreateGitTree (repo : string) (tree : list InputGitTreeElement) (base_tree : nat) : eff nat
| CreateGitCommit (repo : string) (message : string) (tree : nat) (parents : list nat) : eff GitCommit
| RefEdit (repo : string) (ref : string) (sha : nat) (force : bool) : eff unit
| GetContents (repo : string) (path : string) : eff (list ContentFile)
| GetContentFile (repo : string) (path : string) : eff ContentFile.

(** A program either returns, raises, or performs an operation and goes on
    with the answer, which is a value or the exception the call raised. *)
Inductive prog (A : Type) : Type :=
| Ret (a : A)
| Raise (e : exn)
| Do {R : Type} (op : eff R) (k : exn + R -> prog A).

Arguments Ret {A} a.
Arguments Raise {A} e.
Arguments Do {A R} op k.

(** A call outside any [try]: the exception propagates. *)
Definition call {R} (op : eff R) : prog R :=
  Do op (fun r => match r with inl e => Raise e | inr x => Ret x end).

Fixpoint bind {A B} (p : prog A) (f : A -> prog B) : prog B :=
  match p with
  | Ret a => f a
  | Raise e => Raise e
  | Do op k => Do op (fun r => bind (k r) f)
  end.

(** [try: p  except Exception as e: handle e]. *)
Fixpoint try_except {A} (p : prog A) (handle : exn -> prog A) : prog A :=
  match p with
  | Ret a => Ret a
  | Raise e => handle e
  | Do op k => Do op (fun r => try_except (k r) handle)
  end.

#[global] Instance prog_ret : MRet prog := fun A a => Ret a.
#[global] Instance prog_bind : MBind prog := fun A B f p => bind p f.

(** The outside world: it answers each operation and moves on. *)
Definition handler (W : Type) : Type := forall R, eff R -> W -> (exn + R) * W.

(** One step of a run: the operation, its answer, the world after it. *)
Inductive step (W : Type) : Type :=
| Step {R : Type} (op : eff R) (reply : exn + R) (after : W).

Arguments Step {W R} op reply after.

Record outcome (W A : Type) := {
  trace : list (step W);
  result : exn + A;
  final : W
}.

Arguments trace {W A} o.
Arguments result {W A} o.
Arguments final {W A} o.

Fixpoint interp {W A} (h : handler W) (p : prog A) (w : W) : outcome W A :=
  match p with
  | Ret a => {| trace := []; result := inr a; final := w |}
  | Raise e => {| trace := []; result := inl e; final := w |}
  | Do op k =>
      let '(r, w') := h _ op w in
      let o := interp h (k r) w' in
      {| trace := Step op r w' :: trace o; result := result o; final := final o |}
  end.

(** ** tenacity *)

Module Tenacity.
(** [wait_exponential(multiplier, min, max)] at an attempt number:
    [max(max(0, min), min(multiplier * 2 ** (attempt_number - 1), max))]. *)
Definition wait_exponential (multiplier min max : Z) (attempt_number : Z) : Z :=
  Z.max (Z.max 0 min) (Z.min (multiplier * 2 ^ (attempt_number - 1)) max).

(** The retry loop of [@retry(stop=stop_after_attempt(n), wait=w)]:
    run the body; if it raises and the attempt number has reached [n],
    raise [RetryError]; otherwise sleep [w attempt_number] and go round.
    [remaining] counts the attempts still allowed after this one. *)
Fixpoint retrying {A} (remaining : nat) (attempt_number : Z)
    (wait : Z -> Z) (body : prog A) : prog A :=
  try_except body (fun e =>
    match remaining with
    | O => Raise (RetryError e)
    | S remaining' =>
        Do (Sleep (wait attempt_number))
           (fun _ => retrying remaining' (attempt_number + 1) wait body)
    end).

Definition retry {A} (stop_after_attempt : nat) (wait : Z -> Z)
    (body : prog A) : prog A :=
  retrying (stop_after_attempt - 1) 1 wait body.
End Tenacity.

(** ** Deployment service ([app/services/deployment.py]) *)

Definition json_headers : list (string * string) :=
  [("Content-Type", "application/json")].

(** The body of [notify_evaluation], one attempt. *)
Definition notify_evaluation_once (evaluation_url : string)
    (data : EvaluationResponseSchema) : prog bool :=
  try_except
    (response ← call (HttpPost evaluation_url data json_headers);
     if (status_code response =? 200)%Z then Ret true
     else Raise (Exception ("Non-200 response: " +:+ pretty (status_code response))))
    (fun e => Raise e).

(** [@retry(stop=stop_after_attempt(5),
            wait=wait_exponential(multiplier=1, min=1, max=8))] *)
Definition notify_evaluation (evaluation_url : string)
    (data : EvaluationResponseSchema) : prog bool :=
  Tenacity.retry 5 (Tenacity.wait_exponential 1 1 8)
    (notify_evaluation_once evaluation_url data).

(** ** The Python standard library, as far as the code calls it *)

(** [json.loads] gives a [dict] for an object and some other value
    otherwise; members are taken with [str] values, as the annotation
    [Dict[str, str]] of the callers says. *)
Inductive json : Type :=
| JObject (members : PyDict.t string)
| JOther.

(** Library functions that are taken as given.  [None] is the exception
    the function raises on a malformed argument ([json.JSONDecodeError],
    [binascii.Error]). *)
Class PythonLib := {
  (** [bytes.decode('utf-8', errors='replace')] *)
  decode_utf8 : list Byte.byte -> string;
  (** [json.loads(s)] *)
  json_loads : string -> option json;
  (** [json.dumps(l, indent=2)] on a list of [str] *)
  json_dumps : list string -> string;
  (** [re.findall(r'```(\w+)?\n([\s\S]*?)```', s)] *)
  re_findall_code_blocks : string -> list (string * string);
  (** [base64.b64decode(s)] *)
  b64decode : string -> option (list Byte.byte)
}.

(** [re.search(r'\{[\s\S]*\}', s)]: the star is greedy, so the match runs
    from the first opening brace to the last closing brace after it. *)
Fixpoint drop_to_brace (s : list Ascii.ascii) : option (list Ascii.ascii) :=
  match s with
  | [] => None
  | c :: s' => if Ascii.eqb c "{"%char then Some s' else drop_to_brace s'
  end.

Fixpoint through_last_close (s : list Ascii.ascii) : option (list Ascii.ascii) :=
  match s with
  | [] => None
  | c :: s' =>
      match through_last_close s' with
      | Some m => Some (c :: m)
      | None => if Ascii.eqb c "}"%char then Some [c] else None
      end
  end.

Definition re_search_braces (s : string) : option string :=
  match drop_to_brace (String.list_ascii_of_string s) with
  | None => None
  | Some rest =>
      match through_last_close rest with
      | None => None
      | Some m => Some (String "{"%char (String.string_of_list_ascii m))
      end
  end.

(** [base64.b64encode(bs).decode('ascii')] *)
Definition b64_alphabet : string :=
  "ABCDEFGHIJKLMNOPQRSTUVWXYZabcdefghijklmnopqrstuvwxyz0123456789+/".

Definition b64_digit (n : N) : Ascii.ascii :=
  match String.get (N.to_nat n) b64_alphabet with
  | Some c => c
  | None => "="%char
  end.

Fixpoint b64encode (bs : list Byte.byte) : string :=
  match bs with
  | [] => EmptyString
  | [a] =>
      let n := (Byte.to_N a * 65536)%N in
      String (b64_digit (n / 262144)) (String (b64_digit (n / 4096 mod 64)) "==")
  | [a; b] =>
      let n := (Byte.to_N a * 65536 + Byte.to_N b * 256)%N in
      String (b64_digit (n / 262144)) (String (b64_digit (n / 4096 mod 64))
        (String (b64_digit (n / 64 mod 64)) "="))
  | a :: b :: c :: rest =>
      let n := (Byte.to_N a * 65536 + Byte.to_N b * 256 + Byte.to_N c)%N in
      String (b64_digit (n / 262144)) (String (b64_digit (n / 4096 mod 64))
        (String (b64_digit (n / 64 mod 64)) (String (b64_digit (n mod 64))
          (b64encode rest))))
  end.

(** [sep.join(parts)] *)
Fixpoint join (sep : string) (parts : list string) : string :=
  match parts with
  | [] => EmptyString
  | [p] => p
  | p :: rest => p +:+ sep +:+ join sep rest
  end.

Definition nl : string := String (Ascii.ascii_of_nat 10) EmptyString.
Definition dq : string := String (Ascii.ascii_of_nat 34) EmptyString.

(** ** Providers ([app/services/llm/providers.py]) *)

(** ** Providers ([app/services/llm/providers.py]) *)

(** [att.get('mime_type', '').startswith('image/')] *)
Definition is_image (att : attachment) : bool :=
  startswith "image/" (mime_type att).

(** The labelled block a non-image attachment adds to the prompt text. *)
Definition file_block `{PythonLib} (att : attachment) : string :=
  nl +:+ nl +:+ "--- File: " +:+ name att +:+ " ---" +:+ nl +:+
  decode_utf8 (content att) +:+ nl +:+ "--- End of " +:+ name att +:+ " ---".

(** The part an image attachment adds beside the prompt. *)
Definition image_part (att : attachment) : content_part :=
  ImageUrlPart ("data:" +:+ mime_type att +:+ ";base64," +:+ b64encode (content att)).

(** [user_content[0]["text"] += block] *)
Definition append_to_first_text (block : string) (user_content : list content_part)
    : list content_part :=
  match user_content with
  | TextPart t :: rest => TextPart (t +:+ block) :: rest
  | _ => user_content
  end.

(** The attachment loop of [OpenRouterProvider.generate] and of
    [OpenAIProvider.generate] (the two loops are the same code). *)
Definition user_content_of `{PythonLib} (prompt : string) (attachments : list attachment)
    : list content_part :=
  fold_left
    (fun user_content att =>
       if is_image att then user_content ++ [image_part att]
       else append_to_first_text (file_block att) user_content)
    attachments [TextPart prompt].

(** The attachment loop of [AnthropicProvider.generate] and of
    [GeminiProvider.generate]. *)
Definition full_prompt_of `{PythonLib} (prompt : string) (attachments : list attachment)
    : string :=
  fold_left
    (fun full_prompt att =>
       if negb (is_image att) then full_prompt +:+ file_block att else full_prompt)
    attachments prompt.

Definition system_messages (system_prompt : option string) : list message :=
  match system_prompt with
  | Some s => if truthy s then [{| role := "system"; msg_content := TextContent s |}] else []
  | None => []
  end.

(** [except Exception as e: raise Exception(f"<label> API error: {str(e)}")] *)
Definition api_error {A} (label : string) (p : prog A) : prog A :=
  try_except p (fun e => Raise (Exception (label +:+ " API error: " +:+ exn_str e))).

Definition first_choice (response : chat_completion) : prog string :=
  match choices response with
  | c :: _ => Ret c
  | [] => Raise (Exception "list index out of range")
  end.

Definition openrouter_generate `{PythonLib} (c : client) (prompt model : string)
    (system_prompt : option string) (attachments : list attachment) : prog LLMResponse :=
  let messages :=
    system_messages system_prompt ++
    [{| role := "user"; msg_content := PartsContent (user_content_of prompt attachments) |}] in
  api_error "OpenRouter"
    (response ← call (ChatCompletionsCreate c
        {| cr_model := model; cr_messages := messages;
           cr_max_tokens := None; cr_temperature := None |});
     content ← first_choice response;
     Ret {| resp_content := content; resp_model := model; resp_provider := "openrouter";
            resp_usage := model_dump <$> usage response |}).

Definition anthropic_generate `{PythonLib} (c : client) (prompt model : string)
    (system_prompt : option string) (attachments : list attachment) : prog LLMResponse :=
  let full_prompt := full_prompt_of prompt attachments in
  api_error "Anthropic"
    (message ← call (MessagesCreate c
        {| mr_model := model;
           mr_system := if truthy_opt system_prompt then default EmptyString system_prompt
                        else "You are a helpful assistant.";
           mr_messages := [{| role := "user"; msg_content := TextContent full_prompt |}] |});
     Ret {| resp_content := match am_content message with t :: _ => t | [] => EmptyString end;
            resp_model := model; resp_provider := "anthropic";
            resp_usage := Some [("total_tokens",
                                 Some (am_input_tokens message + am_output_tokens message)%Z)] |}).

Definition openai_generate `{PythonLib} (c : client) (prompt model : string)
    (system_prompt : option string) (attachments : list attachment) : prog LLMResponse :=
  let messages :=
    system_messages system_prompt ++
    [{| role := "user"; msg_content := PartsContent (user_content_of prompt attachments) |}] in
  api_error "OpenAI"
    (response ← call (ChatCompletionsCreate c
        {| cr_model := model; cr_messages := messages;
           cr_max_tokens := None; cr_temperature := None |});
     content ← first_choice response;
     Ret {| resp_content := content; resp_model := model; resp_provider := "openai";
            resp_usage := model_dump <$> usage response |}).

(** [model.split('/', 1)[-1] if '/' in model else model] *)
Fixpoint after_first_slash (s : string) : option string :=
  match s with
  | EmptyString => None
  | String c s' => if Ascii.eqb c "/"%char then Some s' else after_first_slash s'
  end.

Definition gemini_generate `{PythonLib} (c : client) (prompt model : string)
    (max_tokens : Z) (temperature : Q)
    (system_prompt : option string) (attachments : list attachment) : prog LLMResponse :=
  let actual_model := default model (after_first_slash model) in
  let full_prompt := full_prompt_of prompt attachments in
  let messages :=
    system_messages system_prompt ++
    [{| role := "user"; msg_content := TextContent full_prompt |}] in
  api_error "Gemini"
    (response ← call (ChatCompletionsCreate c
        {| cr_model := actual_model; cr_messages := messages;
           cr_max_tokens := Some max_tokens; cr_temperature := Some temperature |});
     content ← first_choice response;
     Ret {| resp_content := content; resp_model := model; resp_provider := "gemini";
            resp_usage := Some [("total_tokens",
                                 Some match usage response with
                                      | Some u => total_tokens u
                                      | None => 0%Z
                                      end)] |}).

(** The abstract class [LLMProvider] of [base.py], and its four
    implementations. *)
Record LLMProvider := {
  api_key : string;
  base_url : option string;
  generate : string -> string -> option string -> list attachment -> prog LLMResponse;
  is_available : bool
}.

Definition gemini_url : string :=
  "https://generativelanguage.googleapis.com/v1beta/openai/".

Definition OpenRouterProvider `{PythonLib} (key : string) (url : string) : LLMProvider := {|
  api_key := key;
  base_url := Some url;
  generate := openrouter_generate {| client_api_key := key; client_base_url := Some url |};
  is_available := truthy key
|}.

Definition AnthropicProvider `{PythonLib} (key : string) : LLMProvider := {|
  api_key := key;
  base_url := None;
  generate := anthropic_generate {| client_api_key := key; client_base_url := None |};
  is_available := truthy key
|}.

Definition OpenAIProvider `{PythonLib} (key : string) : LLMProvider := {|
  api_key := key;
  base_url := None;
  generate := openai_generate {| client_api_key := key; client_base_url := None |};
  is_available := truthy key
|}.

Definition GeminiProvider `{PythonLib} (key : string) (url : string) : LLMProvider := {|
  api_key := key;
  base_url := Some url;
  generate := fun prompt model =>
    gemini_generate
      {| client_api_key := key;
         client_base_url := Some (if truthy url then url else gemini_url) |}
      prompt model 4096 (Qmake 7 10);
  is_available := truthy key
|}.

(** ** Configuration ([app/config.py]) *)

Record Settings := {
  secret_token : string;
  anthropic_api_key : option string;
  openai_api_key : option string;
  gemini_api_key : option string;
  openrouter_api_key : option string;
  openrouter_url : string;
  github_token : string;
  github_username : string;
  model_preferences : list string
}.

Definition default_model_preferences : list string :=
  ["anthropic/claude-opus-4.1"; "claude-opus-4-1"; "gpt-5";
   "google/gemini-2.5-pro"; "gemini-2.5-pro"].

(** ** Fallback manager ([app/services/llm/manager.py]) *)

Record LLMManager := {
  providers : PyDict.t LLMProvider;
  model_mapping : PyDict.t (list string)
}.

Definition _initialize_providers `{PythonLib} (settings : Settings) : PyDict.t LLMProvider :=
  let providers := [] in
  let providers :=
    match openrouter_api_key settings with
    | Some key =>
        if truthy key
        then PyDict.set "openrouter" (OpenRouterProvider key (openrouter_url settings)) providers
        else providers
    | None => providers
    end in
  let providers :=
    match anthropic_api_key settings with
    | Some key =>
        if truthy key then PyDict.set "anthropic" (AnthropicProvider key) providers
        else providers
    | None => providers
    end in
  let providers :=
    match openai_api_key settings with
    | Some key =>
        if truthy key then PyDict.set "openai" (OpenAIProvider key) providers
        else providers
    | None => providers
    end in
  let providers :=
    match gemini_api_key settings with
    | Some key =>
        if truthy key then PyDict.set "gemini" (GeminiProvider key gemini_url) providers
        else providers
    | None => providers
    end in
  providers.

Definition new_LLMManager `{PythonLib} (settings : Settings) : LLMManager := {|
  providers := _initialize_providers settings;
  model_mapping :=
    [("anthropic/claude-opus-4.1", ["openrouter"]);
     ("claude-opus-4-1", ["anthropic"]);
     ("gpt-5", ["openrouter"; "openai"]);
     ("google/gemini-2.5-pro", ["openrouter"]);
     ("gemini-2.5-pro", ["gemini"])]
|}.

Definition all_failed : exn :=
  Exception "All LLM providers failed. Please check your API keys and configurations.".

(** The inner loop: [for provider_name in available_providers].  [None]
    means the loop ran to its end; [Some response] is the [return]. *)
Fixpoint providers_loop (self : LLMManager) (prompt : string)
    (system_prompt : option string) (attachments : list attachment)
    (model : string) (available_providers : list string) : prog (option LLMResponse) :=
  match available_providers with
  | [] => Ret None
  | provider_name :: rest =>
      let continue := providers_loop self prompt system_prompt attachments model rest in
      match PyDict.get provider_name (providers self) with
      | None => continue
      | Some provider =>
          if negb (is_available provider) then continue
          else
            try_except
              (response ← generate provider prompt model system_prompt attachments;
               Ret (Some response))
              (fun e => continue)
      end
  end.

(** The outer loop: [for model in settings.model_preferences]. *)
Fixpoint models_loop (self : LLMManager) (prompt : string)
    (system_prompt : option string) (attachments : list attachment)
    (models : list string) : prog LLMResponse :=
  match models with
  | [] => Raise all_failed
  | model :: rest =>
      let available_providers := default [] (PyDict.get model (model_mapping self)) in
      r ← providers_loop self prompt system_prompt attachments model available_providers;
      match r with
      | Some response => Ret response
      | None => models_loop self prompt system_prompt attachments rest
      end
  end.

(** The body of [generate_with_fallback], one pass over the cascade. *)
Definition generate_with_fallback_once (self : LLMManager) (settings : Settings)
    (prompt : string) (system_prompt : option string) (attachments : list attachment)
    : prog LLMResponse :=
  models_loop self prompt system_prompt attachments (model_preferences settings).

(** [@retry(stop=stop_after_attempt(3),
            wait=wait_exponential(multiplier=1, min=2, max=10))] *)
Definition generate_with_fallback (self : LLMManager) (settings : Settings)
    (prompt : string) (system_prompt : option string) (attachments : list attachment)
    : prog LLMResponse :=
  Tenacity.retry 3 (Tenacity.wait_exponential 1 2 10)
    (generate_with_fallback_once self settings prompt system_prompt attachments).

(** ** Code generator ([app/services/code_generator.py]) *)

Record CodeGenerator := {
  llm_manager : LLMManager
}.

Definition new_CodeGenerator `{PythonLib} (settings : Settings) : CodeGenerator :=
  {| llm_manager := new_LLMManager settings |}.

(** [s.split(sep)] for a non-empty [sep]: [skip] counts the characters of
    a separator just found that are still to be passed over. *)
Fixpoint split_from (sep : string) (skip : nat) (cur : string) (s : string) : list string :=
  match s with
  | EmptyString => [cur]
  | String c s' =>
      match skip with
      | S skip' => split_from sep skip' cur s'
      | O =>
          if startswith sep s
          then cur :: split_from sep (String.length sep - 1) EmptyString s'
          else split_from sep O (cur +:+ String c EmptyString) s'
      end
  end.

Definition split (sep s : string) : list string := split_from sep O EmptyString s.

(** [sub in s] for strings *)
Definition str_contains (sub s : string) : bool :=
  match split sub s with
  | _ :: _ :: _ => true
  | _ => false
  end.

Definition generate_system_prompt : string :=
  "You are an expert web developer. Generate a complete, working web application based on the requirements." +:+
  nl +:+ "        Generate clean, well-commented code that follows best practices." +:+
  nl +:+
  "        The application should be a single-page application that can be deployed to GitHub Pages." +:+
  nl +:+
  "        Always include proper error handling and make the code production-ready." +:+
  nl +:+
  "        Return your response as a JSON object with file paths as keys and file contents as values." +:+
  nl +:+ "        Example: {" +:+ dq +:+ "index.html" +:+ dq +:+ ": " +:+ dq +:+
  "<!DOCTYPE html>..." +:+ dq +:+ ", " +:+ dq +:+ "script.js" +:+ dq +:+ ": " +:+
  dq +:+ "// JavaScript code..." +:+ dq +:+ ", " +:+ dq +:+ "style.css" +:+ dq +:+
  ": " +:+ dq +:+ "/* CSS code */" +:+ dq +:+ "}" +:+ nl +:+ "        ".

(** The [for att in processed_attachments] loop that lists the attachments. *)
Definition attachment_lines (attachments : list attachment) : string :=
  fold_left (fun prompt att => prompt +:+
    "- " +:+ (name att) +:+ " (" +:+ (mime_type att) +:+ ")" +:+ nl)
    attachments EmptyString.

Definition generate_prompt `{PythonLib} (request : BuildRequestSchema)
    (processed_attachments : list attachment) : string :=
  let prompt :=
    "Create a web application with the following requirements:" +:+ nl +:+ nl +:+
    "Brief: " +:+ (req_brief request) +:+ nl +:+ nl +:+
    "The application will be evaluated based on these checks:" +:+ nl +:+
    (json_dumps (req_checks request)) +:+ nl +:+ nl +:+ "Task ID: " +:+
    (req_task request) +:+ nl +:+ "Round: " +:+ (pretty (req_round request)) +:+ nl +:+
    nl in
  let prompt :=
    match processed_attachments with
    | [] => prompt
    | _ :: _ => prompt +:+
      nl +:+ "Attachments provided:" +:+ nl +:+
        attachment_lines processed_attachments
    end in
  prompt +:+
    nl +:+ "Generate a complete application that:" +:+ nl +:+
    "1. Meets all the requirements in the brief" +:+ nl +:+
    "2. Passes all the evaluation checks" +:+ nl +:+
    "3. Handles the provided attachments appropriately" +:+ nl +:+
    "4. Is production-ready with proper error handling" +:+ nl +:+
    "5. Includes a professional README.md" +:+ nl +:+
    "6. Uses modern web development best practices" +:+ nl +:+ nl +:+
    "Return ONLY a valid JSON object with file paths and contents. Make sure all files needed for a complete application are included." +:+
    nl.

Definition _generate_default_html (request : BuildRequestSchema) : string :=
  "<!DOCTYPE html>" +:+ nl +:+ "<html lang=" +:+ dq +:+ "en" +:+ dq +:+ ">" +:+ nl +:+
  "<head>" +:+ nl +:+ "    <meta charset=" +:+ dq +:+ "UTF-8" +:+ dq +:+ ">" +:+ nl +:+
  "    <meta name=" +:+ dq +:+ "viewport" +:+ dq +:+ " content=" +:+ dq +:+
  "width=device-width, initial-scale=1.0" +:+ dq +:+ ">" +:+ nl +:+ "    <title>" +:+
  (req_task request) +:+ "</title>" +:+ nl +:+ "    <link href=" +:+ dq +:+
  "https://cdn.jsdelivr.net/npm/bootstrap@5.1.3/dist/css/bootstrap.min.css" +:+ dq +:+
  " rel=" +:+ dq +:+ "stylesheet" +:+ dq +:+ ">" +:+ nl +:+ "    <style>" +:+ nl +:+
  "        body { padding: 20px; }" +:+ nl +:+ "    </style>" +:+ nl +:+ "</head>" +:+
  nl +:+ "<body>" +:+ nl +:+ "    <div class=" +:+ dq +:+ "container" +:+ dq +:+
  ">" +:+ nl +:+ "        <h1>" +:+ (req_task request) +:+ "</h1>" +:+ nl +:+
  "        <div id=" +:+ dq +:+ "app" +:+ dq +:+ ">" +:+ nl +:+
  "            <!-- Application content will be rendered here -->" +:+ nl +:+
  "        </div>" +:+ nl +:+ "    </div>" +:+ nl +:+ "    <script src=" +:+ dq +:+
  "script.js" +:+ dq +:+ "></script>" +:+ nl +:+ "</body>" +:+ nl +:+ "</html>".

Definition _generate_readme (request : BuildRequestSchema) (files : PyDict.t string) : string :=
  "# " +:+ (req_task request) +:+ nl +:+ nl +:+ "## Summary" +:+ nl +:+
  "This application was generated to fulfill the following requirements:" +:+ nl +:+
  (req_brief request) +:+ nl +:+ nl +:+ "## Setup" +:+ nl +:+
  "1. Clone this repository" +:+ nl +:+ "2. Open `index.html` in a web browser" +:+
  nl +:+ "3. The application is ready to use" +:+ nl +:+ nl +:+ "## Usage" +:+ nl +:+
  "The application provides the following functionality based on the requirements:" +:+
  nl +:+ (join nl (map (fun check => "- " +:+ check) (req_checks request))) +:+ nl +:+
  nl +:+ "## Code Explanation" +:+ nl +:+ "### Files Included:" +:+ nl +:+
  (join nl (map (fun filename => "- `" +:+ filename +:+ "`") (PyDict.keys files))) +:+
  nl +:+ nl +:+ "### Key Features:" +:+ nl +:+
  "- Responsive design using Bootstrap" +:+ nl +:+
  "- Error handling for robust operation" +:+ nl +:+
  "- Clean, maintainable code structure" +:+ nl +:+ nl +:+ "## License" +:+ nl +:+
  "This project is licensed under the MIT License - see the LICENSE file for details." +:+
  nl +:+ nl +:+ "## Task Details" +:+ nl +:+ "- Task ID: " +:+ (req_task request) +:+
  nl +:+ "- Round: " +:+ (pretty (req_round request)) +:+ nl +:+ "- Email: " +:+
  (req_email request) +:+ nl.

Definition _generate_mit_license : string :=
  "MIT License" +:+ nl +:+ nl +:+ "Copyright (c) 2024" +:+ nl +:+ nl +:+
  "Permission is hereby granted, free of charge, to any person obtaining a copy" +:+
  nl +:+ "of this software and associated documentation files (the " +:+ dq +:+
  "Software" +:+ dq +:+ "), to deal" +:+ nl +:+
  "in the Software without restriction, including without limitation the rights" +:+
  nl +:+
  "to use, copy, modify, merge, publish, distribute, sublicense, and/or sell" +:+
  nl +:+ "copies of the Software, and to permit persons to whom the Software is" +:+
  nl +:+ "furnished to do so, subject to the following conditions:" +:+ nl +:+ nl +:+
  "The above copyright notice and this permission notice shall be included in all" +:+
  nl +:+ "copies or substantial portions of the Software." +:+ nl +:+ nl +:+
  "THE SOFTWARE IS PROVIDED " +:+ dq +:+ "AS IS" +:+ dq +:+
  ", WITHOUT WARRANTY OF ANY KIND, EXPRESS OR" +:+ nl +:+
  "IMPLIED, INCLUDING BUT NOT LIMITED TO THE WARRANTIES OF MERCHANTABILITY," +:+ nl +:+
  "FITNESS FOR A PARTICULAR PURPOSE AND NONINFRINGEMENT. IN NO EVENT SHALL THE" +:+
  nl +:+ "AUTHORS OR COPYRIGHT HOLDERS BE LIABLE FOR ANY CLAIM, DAMAGES OR OTHER" +:+
  nl +:+
  "LIABILITY, WHETHER IN AN ACTION OF CONTRACT, TORT OR OTHERWISE, ARISING FROM," +:+
  nl +:+
  "OUT OF OR IN CONNECTION WITH THE SOFTWARE OR THE USE OR OTHER DEALINGS IN THE" +:+
  nl +:+ "SOFTWARE.".

(** The fenced-block fallback of [_parse_code_response]. *)
Definition parse_code_blocks `{PythonLib} (code_blocks : list (string * string))
    : PyDict.t string :=
  fold_left
    (fun files block =>
       let '(lang, code) := block in
       if String.eqb lang "html" then PyDict.set "index.html" code files
       else if String.eqb lang "javascript" || String.eqb lang "js"
       then PyDict.set "script.js" code files
       else if String.eqb lang "css" then PyDict.set "style.css" code files
       else if String.eqb lang "json" then
         match json_loads code with
         | Some (JObject parsed) => PyDict.update files parsed
         | Some JOther => files
         | None => files
         end
       else files)
    code_blocks [].

(** [_parse_code_response].  A text that begins with an opening brace
    decodes to an object or not at all, so [JOther] does not arise in the
    first branch; it is given the empty dict. *)
Definition _parse_code_response `{PythonLib} (response : string) : PyDict.t string :=
  let direct :=
    match re_search_braces response with
    | Some json_match => json_loads json_match
    | None => None
    end in
  match direct with
  | Some (JObject files) => files
  | Some JOther => []
  | None => parse_code_blocks (re_findall_code_blocks response)
  end.

(** Lines 67-77 of [generate_application]: the required files. *)
Definition ensure_required_files (request : BuildRequestSchema) (files : PyDict.t string)
    : PyDict.t string :=
  let files :=
    if negb (PyDict.contains "index.html" files)
    then PyDict.set "index.html" (_generate_default_html request) files else files in
  let files :=
    if negb (PyDict.contains "README.md" files)
    then PyDict.set "README.md" (_generate_readme request files) files else files in
  let files :=
    if negb (PyDict.contains "LICENSE" files)
    then PyDict.set "LICENSE" _generate_mit_license files else files in
  files.

Definition generate_application `{PythonLib} (self : CodeGenerator) (settings : Settings)
    (request : BuildRequestSchema) (processed_attachments : list attachment)
    : prog (PyDict.t string) :=
  let system_prompt := generate_system_prompt in
  let prompt := generate_prompt request processed_attachments in
  response ← generate_with_fallback (llm_manager self) settings prompt
                (Some system_prompt) processed_attachments;
  let files := _parse_code_response (resp_content response) in
  Ret (ensure_required_files request files).

Definition update_section (request : BuildRequestSchema) : string :=
  nl +:+ nl +:+ "## Round " +:+ (pretty (req_round request)) +:+ " Updates" +:+ nl +:+
  "### New Requirements:" +:+ nl +:+ (req_brief request) +:+ nl +:+ nl +:+
  "### New Checks:" +:+ nl +:+
  (join nl (map (fun check => "- " +:+ check) (req_checks request))) +:+ nl.

Definition _update_readme (request : BuildRequestSchema) (current_readme : string) : string :=
  if str_contains "## License" current_readme then
    match split "## License" current_readme with
    | part0 :: part1 :: _ =>
        part0 +:+ update_section request +:+ nl +:+ "## License" +:+ part1
    | _ => current_readme +:+ update_section request
    end
  else current_readme +:+ update_section request.

Definition update_system_prompt : string :=
  "You are an expert web developer. Update the existing application based on new requirements." +:+
  nl +:+ "        Preserve existing functionality while adding new features." +:+
  nl +:+
  "        Return your response as a JSON object with file paths as keys and file contents as values." +:+
  nl +:+ "        Include ALL files, both modified and unmodified." +:+ nl +:+
  "        ".

(** [s[:n]], the first [n] characters of a [str].  A [str] is held as the
    bytes of its UTF-8 encoding: a character is a byte that is not a
    continuation byte ([10xxxxxx]) together with the continuation bytes
    that follow it. *)
Definition is_continuation (c : Ascii.ascii) : bool :=
  match c with
  | Ascii.Ascii _ _ _ _ _ _ b6 b7 => b7 && negb b6
  end.

Fixpoint take_chars (n : nat) (s : string) : string :=
  match s with
  | EmptyString => EmptyString
  | String c s' =>
      if is_continuation c then String c (take_chars n s')
      else
        match n with
        | O => EmptyString
        | S n' => String c (take_chars n' s')
        end
  end.

(** The [for filename in ['index.html', 'script.js', 'style.css']] loop. *)
Definition reference_code (existing_files : PyDict.t string) : string :=
  fold_left
    (fun prompt filename =>
       match PyDict.get filename existing_files with
       | Some content => prompt +:+
           nl +:+ "--- " +:+ filename +:+ " ---" +:+ nl +:+
           take_chars 1000 content +:+ "..." +:+ nl
       | None => prompt
       end)
    ["index.html"; "script.js"; "style.css"] EmptyString.

Definition update_prompt `{PythonLib} (request : BuildRequestSchema)
    (existing_files : PyDict.t string) (processed_attachments : list attachment) : string :=
  let prompt :=
    "Update the existing application with these new requirements:" +:+ nl +:+ nl +:+
    "Brief: " +:+ (req_brief request) +:+ nl +:+ nl +:+ "New evaluation checks:" +:+
    nl +:+ (json_dumps (req_checks request)) +:+ nl +:+ nl +:+
    "Current files in the application:" +:+ nl +:+
    (json_dumps (PyDict.keys existing_files)) +:+ nl +:+ nl +:+ "Task ID: " +:+
    (req_task request) +:+ nl +:+ "Round: " +:+ (pretty (req_round request)) +:+ nl +:+
    nl in
  let prompt :=
    match processed_attachments with
    | [] => prompt
    | _ :: _ => prompt +:+
      nl +:+ "New attachments provided:" +:+ nl +:+
        attachment_lines processed_attachments
    end in
  let prompt := prompt +:+
    nl +:+ "Update the application to:" +:+ nl +:+
    "1. Meet all the new requirements in the brief" +:+ nl +:+
    "2. Pass all the new evaluation checks" +:+ nl +:+
    "3. Maintain existing functionality" +:+ nl +:+
    "4. Handle any new attachments appropriately" +:+ nl +:+
    "5. Update the README.md to reflect changes" +:+ nl +:+ nl +:+
    "Current code for reference:" +:+ nl in
  let prompt := prompt +:+ reference_code existing_files in
  prompt +:+
    nl +:+
    "Return ONLY a valid JSON object with ALL file paths and their complete updated contents.".

(** Lines 253-256 of [update_application]: files the answer left out are
    taken over from the repository, [README.md] excepted. *)
Definition merge_existing (existing_files files : PyDict.t string) : PyDict.t string :=
  fold_left
    (fun files kv =>
       let '(key, value) := kv in
       if negb (PyDict.contains key files) && negb (String.eqb key "README.md")
       then PyDict.set key value files else files)
    existing_files files.

(** Lines 258-260 of [update_application]. *)
Definition refresh_readme (request : BuildRequestSchema) (files : PyDict.t string)
    : PyDict.t string :=
  match PyDict.get "README.md" files with
  | Some readme => PyDict.set "README.md" (_update_readme request readme) files
  | None => files
  end.

Definition update_application `{PythonLib} (self : CodeGenerator) (settings : Settings)
    (request : BuildRequestSchema) (existing_files : PyDict.t string)
    (processed_attachments : list attachment) : prog (PyDict.t string) :=
  let system_prompt := update_system_prompt in
  let prompt := update_prompt request existing_files processed_attachments in
  response ← generate_with_fallback (llm_manager self) settings prompt
                (Some system_prompt) processed_attachments;
  let files := _parse_code_response (resp_content response) in
  let files := merge_existing existing_files files in
  Ret (refresh_readme request files).

(** ** Repository synchronisation ([app/services/github/github_service.py]) *)

(** [try: p  except GithubException as e: handle e] *)
Definition try_except_github {A} (p : prog A) (handle : exn -> prog A) : prog A :=
  try_except p (fun e =>
    match e with
    | GithubException _ _ => handle e
    | _ => Raise e
    end).

Definition create_repository (repo_name description : string) : prog Repository :=
  try_except_github (call (CreateRepo repo_name description))
    (fun e =>
       match e with
       | GithubException status _ =>
           if status =? 422 then call (GetRepo repo_name) else Raise e
       | _ => Raise e
       end).

Definition get_repository (repo_name : string) : prog (option Repository) :=
  try_except_github (repo ← call (GetRepo repo_name); Ret (Some repo))
    (fun e =>
       match e with
       | GithubException status _ => if status =? 404 then Ret None else Raise e
       | _ => Raise e
       end).

(** The loop that builds [tree_elements]: the key [round] is passed over. *)
Definition tree_elements_of (files : PyDict.t string) : list InputGitTreeElement :=
  fold_left
    (fun tree_elements kv =>
       let '(filepath, content) := kv in
       if String.eqb filepath "round" then tree_elements
       else tree_elements ++
            [{| el_path := filepath; el_mode := "100644"; el_type := "blob";
                el_content := content |}])
    files [].

(** [ref = repo.get_git_ref(...); base_commit = repo.get_git_commit(ref.object.sha);
     base_tree = base_commit.tree] *)
Definition resolve_tip (repo : Repository) (branch : string) : prog (GitRef * GitCommit * nat) :=
  ref ← call (GetGitRef (full_name repo) ("heads/" +:+ branch));
  base_commit ← call (GetGitCommit (full_name repo) (ref_object_sha ref));
  Ret (ref, base_commit, commit_tree base_commit).

Definition branch_of (repo : Repository) : string :=
  if truthy (default_branch repo) then default_branch repo else "main".

Definition commit_message_of (files : PyDict.t string) : string :=
  "Deploy application - Round " +:+ default "1" (PyDict.get "round" files).

(** [push_files].  The outer [except Exception: ...; raise] re-raises what
    it catches and is the identity on programs. *)
Definition push_files (repo : Repository) (files : PyDict.t string) : prog nat :=
  let default_branch := branch_of repo in
  let commit_message := commit_message_of files in
  let tree_elements := tree_elements_of files in
  tip ← try_except_github (resolve_tip repo default_branch)
    (fun e =>
       try_except_github
         (call (CreateFile (full_name repo) ".init" "Initialize repository"
                  "Initialized by application" default_branch))
         (fun create_exc => Raise create_exc);;
       resolve_tip repo default_branch);
  let '(ref, base_commit, base_tree) := tip in
  new_tree ← call (CreateGitTree (full_name repo) tree_elements base_tree);
  new_commit ← call (CreateGitCommit (full_name repo) commit_message new_tree
                       [commit_sha base_commit]);
  call (RefEdit (full_name repo) (ref_name ref) (commit_sha new_commit) true);;
  Ret (commit_sha new_commit).

(** The text [get_files] stores for a file (the decoding step of its
    loop): the decoded content of a base64 entry, when it decodes, and the
    content as it is of any other.  [None]: [b64decode] raises. *)
Definition entry_text `{PythonLib} (file_content : ContentFile) : option string :=
  if String.eqb (cf_encoding file_content) "base64" then
    decode_utf8 <$> b64decode (cf_content file_content)
  else Some (cf_content file_content).

(** The [while contents:] loop of [get_files], inside its [try].  An
    exception anywhere in the loop ends it and what [files] holds by then
    is returned.  PyGithub hands out the files of a listing incomplete
    ([completed=(item["type"] != "file")]): the first read of
    [file_content.encoding] sends the request that completes the object,
    and the reads after it, [file_content.path] included, are of the
    completed object.  An entry of any other type is complete as listed.
    [fuel] bounds the number of iterations; [None] says that the bound was
    reached. *)
Fixpoint get_files_loop `{PythonLib} (fuel : nat) (repo : Repository)
    (contents : list ContentFile) (files : PyDict.t string)
    : prog (option (PyDict.t string)) :=
  match contents with
  | [] => Ret (Some files)
  | file_content :: contents =>
      match fuel with
      | O => Ret None
      | S fuel =>
          let store (file_content : ContentFile) :=
            match entry_text file_content with
            | None => Ret (Some files)
            | Some content =>
                get_files_loop fuel repo contents
                  (PyDict.set (cf_path file_content) content files)
            end in
          if String.eqb (cf_type file_content) "dir" then
            Do (GetContents (full_name repo) (cf_path file_content))
               (fun r =>
                  match r with
                  | inl e => Ret (Some files)
                  | inr more => get_files_loop fuel repo (contents ++ more) files
                  end)
          else if String.eqb (cf_type file_content) "file" then
            Do (GetContentFile (full_name repo) (cf_path file_content))
               (fun r =>
                  match r with
                  | inl e => Ret (Some files)
                  | inr file_content => store file_content
                  end)
          else store file_content
      end
  end.

Definition get_files `{PythonLib} (fuel : nat) (repo : Repository)
    : prog (option (PyDict.t string)) :=
  Do (GetContents (full_name repo) EmptyString)
     (fun r =>
        match r with
        | inl e => Ret (Some [])
        | inr contents => get_files_loop fuel repo contents []
        end).

(** ** Request orchestrator ([app/api/endpoints.py]) *)

(** [s.replace(a, b)] for single characters *)
Fixpoint replace_char (a b : Ascii.ascii) (s : string) : string :=
  match s with
  | EmptyString => EmptyString
  | String c s' => String (if Ascii.eqb c a then b else c) (replace_char a b s')
  end.

(** [f"{request.task}-{request.email.split('@')[0]}".replace('.', '-').replace('_', '-')] *)
Definition repo_name_of (request : BuildRequestSchema) : string :=
  let local_part :=
    match split "@" (req_email request) with
    | p :: _ => p
    | [] => req_email request
    end in
  replace_char "_" "-" (replace_char "." "-" (req_task request +:+ "-" +:+ local_part)).

(** Line 55: [files['round'] = str(request.round)] *)
Definition add_round_metadata (request : BuildRequestSchema) (files : PyDict.t string)
    : PyDict.t string :=
  PyDict.set "round" (pretty (req_round request)) files.

(** Lines 27-58 of [process_build_request]: from the repository lookup to
    the push.  The answer is the repository, the file set handed to
    [push_files] and the commit; [None] says that [get_files] reached its
    iteration bound. *)
Definition process_build_request_publish `{PythonLib} (fuel : nat) (settings : Settings)
    (request : BuildRequestSchema) (processed_attachments : list attachment)
    : prog (option (Repository * PyDict.t string * nat)) :=
  let code_generator := new_CodeGenerator settings in
  let repo_name := repo_name_of request in
  repo ← get_repository repo_name;
  generated ←
    match repo with
    | None =>
        files ← generate_application code_generator settings request processed_attachments;
        repo ← create_repository repo_name ("Application for task: " +:+ req_task request);
        Ret (Some (repo, files))
    | Some repo =>
        if req_round request =? 1 then
          files ← generate_application code_generator settings request processed_attachments;
          Ret (Some (repo, files))
        else
          existing ← get_files fuel repo;
          match existing with
          | None => Ret None
          | Some existing_files =>
              files ← update_application code_generator settings request existing_files
                        processed_attachments;
              Ret (Some (repo, files))
          end
    end;
  match generated with
  | None => Ret None
  | Some (repo, files) =>
      let files := add_round_metadata request files in
      commit_sha ← push_files repo files;
      Ret (Some (repo, files, commit_sha))
  end.

(** ** The outside world, simulated *)

(** A repository on the host: an object store of trees and commits, named
    by their index, and the branch references.  A tree is held flat, as
    the map from each blob's path to its content. *)
Record commit_data := {
  cd_tree : nat;
  cd_parents : list nat;
  cd_message : string
}.

Record repo_state := {
  rs_default_branch : string;
  rs_trees : list (gmap string string);
  rs_commits : list commit_data;
  rs_refs : gmap string nat
}.

(** The world: the repositories of one account, keyed by full name; the
    faults the host is going to inject, one slot per repository call
    ([Some e]: the call fails with [e] and changes nothing); the answers
    the chat-completions providers and the evaluator are going to give,
    one per call (a text or a status, or an exception); the time slept so
    far.  The anthropic client sends nothing: it refuses every call of the
    code, for the missing [max_tokens]. *)
Record world := {
  gh_owner : string;
  gh_repos : gmap string repo_state;
  gh_faults : list (option exn);
  llm_script : list (exn + string);
  http_script : list (exn + Z);
  slept : Z
}.

Definition set_repos (g : gmap string repo_state) (w : world) : world :=
  {| gh_owner := gh_owner w; gh_repos := g; gh_faults := gh_faults w;
     llm_script := llm_script w; http_script := http_script w; slept := slept w |}.

Definition set_faults (fs : list (option exn)) (w : world) : world :=
  {| gh_owner := gh_owner w; gh_repos := gh_repos w; gh_faults := fs;
     llm_script := llm_script w; http_script := http_script w; slept := slept w |}.

Definition set_llm_script (s : list (exn + string)) (w : world) : world :=
  {| gh_owner := gh_owner w; gh_repos := gh_repos w; gh_faults := gh_faults w;
     llm_script := s; http_script := http_script w; slept := slept w |}.

Definition set_http_script (s : list (exn + Z)) (w : world) : world :=
  {| gh_owner := gh_owner w; gh_repos := gh_repos w; gh_faults := gh_faults w;
     llm_script := llm_script w; http_script := s; slept := slept w |}.

Definition add_slept (seconds : Z) (w : world) : world :=
  {| gh_owner := gh_owner w; gh_repos := gh_repos w; gh_faults := gh_faults w;
     llm_script := llm_script w; http_script := http_script w;
     slept := slept w + seconds |}.

Definition not_found : exn := GithubException 404 "Not Found".
Definition unprocessable : exn := GithubException 422 "Unprocessable Entity".
Definition empty_repository : exn := GithubException 409 "Git Repository is empty.".
Definition connection_error : exn := Exception "Connection error.".

(** What the anthropic client answers to a call without [max_tokens],
    before any request is sent. *)
Definition missing_max_tokens : exn :=
  Exception "AsyncMessages.create() missing 1 required keyword-only argument: 'max_tokens'".

(** A tree layered on a base: each element replaces or adds the blob at
    its path, every other entry of the base is kept. *)
Definition apply_elements (base : gmap string string) (elements : list InputGitTreeElement)
    : gmap string string :=
  fold_left (fun t el => <[el_path el := el_content el]> t) elements base.

Definition host_get_git_ref (ref : string) (rs : repo_state) : (exn + GitRef) * repo_state :=
  match rs_refs rs !! ref with
  | Some sha => (inr {| ref_name := ref; ref_object_sha := sha |}, rs)
  | None =>
      (inl (match rs_commits rs with [] => empty_repository | _ :: _ => not_found end), rs)
  end.

Definition host_get_git_commit (sha : nat) (rs : repo_state) : (exn + GitCommit) * repo_state :=
  match rs_commits rs !! sha with
  | Some c =>
      (inr {| commit_sha := sha; commit_tree := cd_tree c;
              commit_parents := cd_parents c; commit_message := cd_message c |}, rs)
  | None => (inl not_found, rs)
  end.

(** Writing [tree] as a new commit on top of [parents] and pointing [ref]
    at it. *)
Definition commit_onto (ref : string) (tree : gmap string string) (parents : list nat)
    (message : string) (rs : repo_state) : repo_state :=
  {| rs_default_branch := rs_default_branch rs;
     rs_trees := rs_trees rs ++ [tree];
     rs_commits := rs_commits rs ++
       [{| cd_tree := length (rs_trees rs); cd_parents := parents; cd_message := message |}];
     rs_refs := <[ref := length (rs_commits rs)]> (rs_refs rs) |}.

(** The contents API, creating a file without naming a blob to replace:
    on an empty repository it makes the first commit and the branch; on a
    branch that exists it adds the file unless the path is taken (422); on
    a repository with commits it refuses a branch that does not exist. *)
Definition host_create_file (path message content branch : string) (rs : repo_state)
    : (exn + unit) * repo_state :=
  let ref := "heads/" +:+ branch in
  match rs_refs rs !! ref with
  | Some tip =>
      match rs_commits rs !! tip with
      | Some c =>
          match rs_trees rs !! cd_tree c with
          | Some t =>
              match t !! path with
              | Some _ => (inl unprocessable, rs)
              | None => (inr tt, commit_onto ref (<[path := content]> t) [tip] message rs)
              end
          | None => (inl not_found, rs)
          end
      | None => (inl not_found, rs)
      end
  | None =>
      match rs_commits rs with
      | [] => (inr tt, commit_onto ref {[path := content]} [] message rs)
      | _ :: _ => (inl not_found, rs)
      end
  end.

Definition host_create_git_tree (elements : list InputGitTreeElement) (base_tree : nat)
    (rs : repo_state) : (exn + nat) * repo_state :=
  match rs_trees rs !! base_tree with
  | Some base =>
      (inr (length (rs_trees rs)),
       {| rs_default_branch := rs_default_branch rs;
          rs_trees := rs_trees rs ++ [apply_elements base elements];
          rs_commits := rs_commits rs;
          rs_refs := rs_refs rs |})
  | None => (inl not_found, rs)
  end.

Definition host_create_git_commit (message : string) (tree : nat) (parents : list nat)
    (rs : repo_state) : (exn + GitCommit) * repo_state :=
  match rs_trees rs !! tree with
  | Some _ =>
      if forallb (fun p => bool_decide (is_Some (rs_commits rs !! p))) parents then
        (inr {| commit_sha := length (rs_commits rs); commit_tree := tree;
                commit_parents := parents; commit_message := message |},
         {| rs_default_branch := rs_default_branch rs;
            rs_trees := rs_trees rs;
            rs_commits := rs_commits rs ++
              [{| cd_tree := tree; cd_parents := parents; cd_message := message |}];
            rs_refs := rs_refs rs |})
      else (inl unprocessable, rs)
  | None => (inl not_found, rs)
  end.

(** Updating a reference: it must exist and the target must be a commit;
    without [force] the update must be a fast-forward by one commit. *)
Definition host_ref_edit (ref : string) (sha : nat) (force : bool) (rs : repo_state)
    : (exn + unit) * repo_state :=
  match rs_refs rs !! ref, rs_commits rs !! sha with
  | Some tip, Some c =>
      if force || bool_decide (tip ∈ cd_parents c) then
        (inr tt,
         {| rs_default_branch := rs_default_branch rs;
            rs_trees := rs_trees rs;
            rs_commits := rs_commits rs;
            rs_refs := <[ref := sha]> (rs_refs rs) |})
      else (inl unprocessable, rs)
  | _, _ => (inl unprocessable, rs)
  end.

(** What a reader of a branch sees: the tree of the commit it points to. *)
Definition tip_tree (rs : repo_state) (branch : string) : option (gmap string string) :=
  sha ← rs_refs rs !! ("heads/" +:+ branch);
  c ← rs_commits rs !! sha;
  rs_trees rs !! cd_tree c.

(** The listing of the default branch.  Paths are listed flat, each as a
    file, without encoding or content. *)
Definition host_get_contents (path : string) (rs : repo_state)
    : (exn + list ContentFile) * repo_state :=
  match tip_tree rs (rs_default_branch rs) with
  | Some t =>
      if String.eqb path EmptyString then
        (inr ((fun kv => {| cf_type := "file"; cf_path := fst kv;
                            cf_encoding := EmptyString; cf_content := EmptyString |})
              <$> map_to_list t), rs)
      else (inl not_found, rs)
  | None => (inl not_found, rs)
  end.

(** One file of the default branch, complete: its text in base64. *)
Definition host_get_content_file (path : string) (rs : repo_state)
    : (exn + ContentFile) * repo_state :=
  match tip_tree rs (rs_default_branch rs) ≫= (.!! path) with
  | Some text =>
      (inr {| cf_type := "file"; cf_path := path; cf_encoding := "base64";
              cf_content := b64encode (String.list_byte_of_string text) |}, rs)
  | None => (inl not_found, rs)
  end.

Definition describe (owner name : string) (rs : repo_state) : Repository :=
  {| repo_name := name; full_name := owner +:+ "/" +:+ name;
     default_branch := rs_default_branch rs |}.

Definition empty_repo_state : repo_state :=
  {| rs_default_branch := "main"; rs_trees := []; rs_commits := []; rs_refs := ∅ |}.

(** A call on one repository, after the fault slot of the call is
    consumed. *)
Definition on_repo {R} (repo : string) (f : repo_state -> (exn + R) * repo_state)
    (w : world) : (exn + R) * world :=
  match gh_faults w with
  | Some e :: fs => (inl e, set_faults fs w)
  | fs =>
      let w := set_faults (tail fs) w in
      match gh_repos w !! repo with
      | Some rs => let '(r, rs') := f rs in (r, set_repos (<[repo := rs']> (gh_repos w)) w)
      | None => (inl not_found, w)
      end
  end.

Definition host_get_repo (name : string) (w : world) : (exn + Repository) * world :=
  match gh_faults w with
  | Some e :: fs => (inl e, set_faults fs w)
  | fs =>
      let w := set_faults (tail fs) w in
      match gh_repos w !! (gh_owner w +:+ "/" +:+ name) with
      | Some rs => (inr (describe (gh_owner w) name rs), w)
      | None => (inl not_found, w)
      end
  end.

Definition host_create_repo (name : string) (w : world) : (exn + Repository) * world :=
  match gh_faults w with
  | Some e :: fs => (inl e, set_faults fs w)
  | fs =>
      let w := set_faults (tail fs) w in
      let key := gh_owner w +:+ "/" +:+ name in
      match gh_repos w !! key with
      | Some _ => (inl unprocessable, w)
      | None =>
          (inr (describe (gh_owner w) name empty_repo_state),
           set_repos (<[key := empty_repo_state]> (gh_repos w)) w)
      end
  end.

Definition llm_answer (w : world) : (exn + string) * world :=
  match llm_script w with
  | [] => (inl connection_error, w)
  | r :: rest => (r, set_llm_script rest w)
  end.

Definition map_reply {A B} (f : A -> B) (r : exn + A) : exn + B :=
  match r with
  | inl e => inl e
  | inr a => inr (f a)
  end.

Definition sim : handler world := fun R op =>
  match op in eff R return world -> (exn + R) * world with
  | ChatCompletionsCreate c req => fun w =>
      let '(r, w) := llm_answer w in
      (map_reply (fun s => {| choices := [s]; usage := None |}) r, w)
  | MessagesCreate c req => fun w => (inl missing_max_tokens, w)
  | HttpPost url json headers => fun w =>
      match http_script w with
      | [] => (inl connection_error, w)
      | r :: rest =>
          (map_reply (fun status => {| status_code := status; text := EmptyString |}) r,
           set_http_script rest w)
      end
  | Sleep seconds => fun w => (inr tt, add_slept seconds w)
  | GetRepo name => host_get_repo name
  | CreateRepo name description => host_create_repo name
  | GetGitRef repo ref => on_repo repo (host_get_git_ref ref)
  | GetGitCommit repo sha => on_repo repo (host_get_git_commit sha)
  | CreateFile repo path message content branch =>
      on_repo repo (host_create_file path message content branch)
  | CreateGitTree repo tree base_tree => on_repo repo (host_create_git_tree tree base_tree)
  | CreateGitCommit repo message tree parents =>
      on_repo repo (host_create_git_commit message tree parents)
  | RefEdit repo ref sha force => on_repo repo (host_ref_edit ref sha force)
  | GetContents repo path => on_repo repo (host_get_contents path)
  | GetContentFile repo path => on_repo repo (host_get_content_file path)
  end.

(** What a reader of a repository's branch sees in a world. *)
Definition branch_tree (w : world) (repo branch : string) : option (gmap string string) :=
  rs ← gh_repos w !! repo; tip_tree rs branch.

Definition branch_tip (w : world) (repo branch : string) : option nat :=
  rs ← gh_repos w !! repo; rs_refs rs !! ("heads/" +:+ branch).

(** ** Observations on a run *)

(** The evaluator POSTs of a trace: target, body, headers and answer. *)
Definition post_of {W} (s : step W)
    : option (string * EvaluationResponseSchema * list (string * string) * (exn + http_response)) :=
  match s with
  | Step op reply _ =>
      match op in eff R return exn + R -> _ with
      | HttpPost url json headers => fun reply => Some (url, json, headers, reply)
      | _ => fun _ => None
      end reply
  end.

Definition posts {W} (tr : list (step W)) := omap post_of tr.

(** The sleeps of a trace, in seconds. *)
Definition sleep_of {W} (s : step W) : option Z :=
  match s with
  | Step op _ _ =>
      match op with
      | Sleep seconds => Some seconds
      | _ => None
      end
  end.

Definition sleeps {W} (tr : list (step W)) : list Z := omap sleep_of tr.

(** The generation calls of a trace: the client asked and the model named
    in the request. *)
Definition generation_call_of {W} (s : step W) : option (client * string) :=
  match s with
  | Step op _ _ =>
      match op with
      | ChatCompletionsCreate c req => Some (c, cr_model req)
      | MessagesCreate c req => Some (c, mr_model req)
      | _ => None
      end
  end.

Definition generation_calls {W} (tr : list (step W)) : list (client * string) :=
  omap generation_call_of tr.

(** The worlds a trace passes through. *)
Definition after {W} (s : step W) : W :=
  match s with Step _ _ w => w end.

(** A POST that does not confirm: an exception or a status other than 200. *)
Definition post_failed (r : exn + http_response) : Prop :=
  match r with
  | inl _ => True
  | inr response => status_code response ≠ 200
  end.

(** Running [f] after a run that returned; a run that raised stays. *)
Definition and_then {W A B} (o : outcome W A) (f : A -> W -> outcome W B) : outcome W B :=
  match result o with
  | inl e => {| trace := trace o; result := inl e; final := final o |}
  | inr a =>
      let o' := f a (final o) in
      {| trace := trace o ++ trace o'; result := result o'; final := final o' |}
  end.

(** Running [f] after a run that raised; a run that returned stays. *)
Definition or_else {W A} (o : outcome W A) (f : exn -> W -> outcome W A) : outcome W A :=
  match result o with
  | inr a => {| trace := trace o; result := inr a; final := final o |}
  | inl e =>
      let o' := f e (final o) in
      {| trace := trace o ++ trace o'; result := result o'; final := final o' |}
  end.

(** ** The cascade, as a list of candidates *)

(** A candidate is a model together with a provider that is configured and
    reports itself available. *)
Record candidate := {
  cand_model : string;
  cand_provider_name : string;
  cand_provider : LLMProvider
}.

(** The candidates one model contributes, in the declared order of its
    providers. *)
Definition provider_candidates (self : LLMManager) (model : string)
    (provider_names : list string) : list candidate :=
  flat_map
    (fun provider_name =>
       match PyDict.get provider_name (providers self) with
       | Some provider =>
           if is_available provider
           then [{| cand_model := model; cand_provider_name := provider_name;
                    cand_provider := provider |}]
           else []
       | None => []
       end)
    provider_names.

(** All candidates: models in preference order, each with its providers. *)
Definition candidates (self : LLMManager) (models : list string) : list candidate :=
  flat_map
    (fun model =>
       provider_candidates self model (default [] (PyDict.get model (model_mapping self))))
    models.

(** The generation call made for a candidate. *)
Definition attempt (prompt : string) (system_prompt : option string)
    (attachments : list attachment) (c : candidate) : prog LLMResponse :=
  generate (cand_provider c) prompt (cand_model c) system_prompt attachments.

(** Trying the candidates of a list one after the other until one
    returns. *)
Fixpoint run_candidates {W} (h : handler W) (att : candidate -> prog LLMResponse)
    (cs : list candidate) (w : W) : outcome W (option LLMResponse) :=
  match cs with
  | [] => {| trace := []; result := inr None; final := w |}
  | c :: cs' =>
      let o := interp h (att c) w in
      match result o with
      | inr response => {| trace := trace o; result := inr (Some response); final := final o |}
      | inl _ =>
          let o' := run_candidates h att cs' (final o) in
          {| trace := trace o ++ trace o'; result := result o'; final := final o' |}
      end
  end.

(** [fails_through h att w cs tr w']: tried in turn from the world [w],
    every candidate of [cs] raises; [tr] is what was done and [w'] the
    world it leaves. *)
Inductive fails_through {W} (h : handler W) (att : candidate -> prog LLMResponse)
    : W -> list candidate -> list (step W) -> W -> Prop :=
| fails_nil w : fails_through h att w [] [] w
| fails_cons w c cs e tr w' :
    result (interp h (att c) w) = inl e ->
    fails_through h att (final (interp h (att c) w)) cs tr w' ->
    fails_through h att w (c :: cs) (trace (interp h (att c) w) ++ tr) w'.

(** [failed_passes h att cs wait n attempt w tr w']: from the world [w],
    [n] passes over the candidates [cs] in each of which every candidate
    raises, each pass followed by the sleep before the next attempt, the
    first of them being attempt number [attempt]; [tr] is what was done
    and [w'] the world it leaves. *)
Inductive failed_passes {W} (h : handler W) (att : candidate -> prog LLMResponse)
    (cs : list candidate) (wait : Z -> Z) : nat -> Z -> W -> list (step W) -> W -> Prop :=
| passes_nil attempt_number w : failed_passes h att cs wait 0 attempt_number w [] w
| passes_cons n attempt_number w tr w1 tr' w' :
    fails_through h att w cs tr w1 ->
    failed_passes h att cs wait n (attempt_number + 1)
      (h _ (Sleep (wait attempt_number)) w1).2 tr' w' ->
    failed_passes h att cs wait (S n) attempt_number w
      (tr ++ Step (Sleep (wait attempt_number)) (h _ (Sleep (wait attempt_number)) w1).1
                 (h _ (Sleep (wait attempt_number)) w1).2 :: tr') w'.

(** A step that is a generation call answered with an exception, or no
    generation call at all. *)
Definition generation_failed {W} (s : step W) : bool :=
  match s with
  | Step op reply _ =>
      match op in eff R return exn + R -> bool with
      | ChatCompletionsCreate _ _ => fun reply => match reply with inl _ => true | inr _ => false end
      | MessagesCreate _ _ => fun reply => match reply with inl _ => true | inr _ => false end
      | _ => fun _ => true
      end reply
  end.

(** What a request carries for the user: the text, and the URLs of the
    images set beside it. *)
Definition part_text (p : content_part) : option string :=
  match p with TextPart t => Some t | ImageUrlPart _ => None end.

Definition part_image (p : content_part) : option string :=
  match p with TextPart _ => None | ImageUrlPart url => Some url end.

Definition content_shape (mc : message_content) : string * list string :=
  match mc with
  | TextContent t => (t, [])
  | PartsContent parts => (join EmptyString (omap part_text parts), omap part_image parts)
  end.

Definition user_shapes (ms : list message) : list (string * list string) :=
  content_shape <$> (msg_content <$> List.filter (fun m => String.eqb (role m) "user") ms).

(** The user text and images of every generation call of a trace. *)
Definition sent_of {W} (s : step W) : list (string * list string) :=
  match s with
  | Step op _ _ =>
      match op with
      | ChatCompletionsCreate _ req => user_shapes (cr_messages req)
      | MessagesCreate _ req => user_shapes (mr_messages req)
      | _ => []
      end
  end.

Definition sent {W} (tr : list (step W)) : list (string * list string) :=
  flat_map sent_of tr.

(** The data URI of an image attachment. *)
Definition data_uri (att : attachment) : string :=
  "data:" +:+ mime_type att +:+ ";base64," +:+ b64encode (content att).

(** What the outer loop makes of a pass over the candidates: the answer
    found, or the exception that all failed. *)
Definition found_or_raise {W} (o : outcome W (option LLMResponse)) : outcome W LLMResponse :=
  {| trace := trace o;
     result := match result o with
               | inr (Some response) => inr response
               | inr None => inl all_failed
               | inl e => inl e
               end;
     final := final o |}.

(** A program that makes one generation call, never sleeps, and raises
    when that call is answered with an exception. *)
Definition one_generation_call {W} (h : handler W) (p : prog LLMResponse) : Prop :=
  forall w,
    let o := interp h p w in
    length (generation_calls (trace o)) = 1%nat /\
    sleeps (trace o) = [] /\
    (forallb generation_failed (trace o) = true -> exists e, result o = inl e).

(** The world holds the repository [repo] in the state [rs] and is going
    to inject the faults [fs]. *)
Definition at_repo (w : world) (repo : string) (rs : repo_state)
    (fs : list (option exn)) : Prop :=
  gh_repos w !! repo = Some rs /\ gh_faults w = fs.

(** The states a publish takes a repository through: the tree is stored,
    then the commit, then the reference is moved. *)
Definition with_tree (t : gmap string string) (rs : repo_state) : repo_state :=
  {| rs_default_branch := rs_default_branch rs;
     rs_trees := rs_trees rs ++ [t];
     rs_commits := rs_commits rs;
     rs_refs := rs_refs rs |}.

Definition with_commit (c : commit_data) (rs : repo_state) : repo_state :=
  {| rs_default_branch := rs_default_branch rs;
     rs_trees := rs_trees rs;
     rs_commits := rs_commits rs ++ [c];
     rs_refs := rs_refs rs |}.

Definition with_ref (ref : string) (sha : nat) (rs : repo_state) : repo_state :=
  {| rs_default_branch := rs_default_branch rs;
     rs_trees := rs_trees rs;
     rs_commits := rs_commits rs;
     rs_refs := <[ref := sha]> (rs_refs rs) |}.


(** ** A repository as a finite tree of directories and files *)

#[local] Unset Elimination Schemes.
Inductive node : Type :=
| File (cf : ContentFile)
| Dir (path : string) (children : list node).
#[local] Set Elimination Schemes.

(** The number of nodes of a tree, and of the nodes below its root. *)
Fixpoint node_size (n : node) : nat :=
  match n with
  | File _ => 1
  | Dir _ children => S (list_sum (map node_size children))
  end.

Definition below (n : node) : nat :=
  match n with
  | File _ => O
  | Dir _ children => list_sum (map node_size children)
  end.

Definition is_dir (n : node) : bool :=
  match n with File _ => false | Dir _ _ => true end.

(** The entry a listing shows for a node: a file without its encoding and
    content. *)
Definition entry_of (n : node) : ContentFile :=
  match n with
  | File cf =>
      if String.eqb (cf_type cf) "file" then
        {| cf_type := cf_type cf; cf_path := cf_path cf; cf_encoding := EmptyString;
           cf_content := EmptyString |}
      else cf
  | Dir path _ =>
      {| cf_type := "dir"; cf_path := path; cf_encoding := EmptyString;
         cf_content := EmptyString |}
  end.

(** The first directory of the given path among those shown and not yet
    listed: its children, and the directories that remain. *)
Fixpoint take_dir (path : string) (pending : list node) : option (list node * list node) :=
  match pending with
  | [] => None
  | n :: pending' =>
      match n with
      | Dir p children =>
          if String.eqb p path then Some (children, pending')
          else
            match take_dir path pending' with
            | Some (cs, rest) => Some (cs, n :: rest)
            | None => None
            end
      | File _ =>
          match take_dir path pending' with
          | Some (cs, rest) => Some (cs, n :: rest)
          | None => None
          end
      end
  end.

(** The first file of the given path among the nodes shown. *)
Fixpoint find_file (path : string) (shown : list node) : option ContentFile :=
  match shown with
  | [] => None
  | File cf :: shown' => if String.eqb (cf_path cf) path then Some cf else find_file path shown'
  | Dir _ _ :: shown' => find_file path shown'
  end.

(** A host that serves a finite tree.  It holds the nodes it has shown,
    the directories among them until they are listed (at first the root,
    with the empty path), and the faults it is going to inject, one slot
    per call.  Listing a directory it has not shown, or completing a file
    it has not shown, is answered 404; so is every other call. *)
Record tree_world := {
  pending : list node;
  tw_faults : list (option exn)
}.

Definition tree_host : handler tree_world := fun R op =>
  match op in eff R return tree_world -> (exn + R) * tree_world with
  | GetContents repo path => fun w =>
      match tw_faults w with
      | Some e :: fs => (inl e, {| pending := pending w; tw_faults := fs |})
      | fs =>
          match take_dir path (pending w) with
          | Some (children, rest) =>
              (inr (entry_of <$> children),
               {| pending := rest ++ children; tw_faults := tail fs |})
          | None => (inl not_found, {| pending := pending w; tw_faults := tail fs |})
          end
      end
  | GetContentFile repo path => fun w =>
      match tw_faults w with
      | Some e :: fs => (inl e, {| pending := pending w; tw_faults := fs |})
      | fs =>
          (match find_file path (pending w) with
           | Some cf => inr cf
           | None => inl not_found
           end, {| pending := pending w; tw_faults := tail fs |})
      end
  | _ => fun w => (inl not_found, w)
  end.

(** ** Sample data *)

Definition sample_notification : EvaluationResponseSchema :=
  {| ev_email := "dev@example.com"; ev_task := "demo"; ev_round := 1; ev_nonce := "n-1";
     ev_repo_url := "https://github.com/acme/demo-dev"; ev_commit_sha := "3";
     ev_pages_url := "https://acme.github.io/demo-dev/" |}.

Definition sample_evaluation_url : string := "https://evaluator.example/notify".

(** A world with nothing in it: no repository, and every provider and the
    evaluator unreachable. *)
Definition idle_world : world :=
  {| gh_owner := "acme"; gh_repos := ∅; gh_faults := []; llm_script := [];
     http_script := []; slept := 0 |}.

(** A world whose evaluator answers the given statuses, in turn. *)
Definition evaluator_answers (statuses : list Z) : world :=
  set_http_script (inr <$> statuses) idle_world.

Definition sample_settings : Settings :=
  {| secret_token := "s3cret"; anthropic_api_key := Some "sk-ant";
     openai_api_key := Some "sk-oa"; gemini_api_key := None;
     openrouter_api_key := Some "sk-or";
     openrouter_url := "https://openrouter.ai/api/v1";
     github_token := "ghp"; github_username := "acme";
     model_preferences := default_model_preferences |}.


(** An answer of a model that regenerates the entry page only. *)
Definition sample_answer : string :=
  "{" +:+ dq +:+ "index.html" +:+ dq +:+ ": " +:+ dq +:+ "<h1>v2</h1>" +:+ dq +:+ "}".

(** Base64 text without line breaks, decoded; [None] for any other text. *)
Fixpoint b64_index (c : Ascii.ascii) (alphabet : string) (i : N) : option N :=
  match alphabet with
  | EmptyString => None
  | String a alphabet' => if Ascii.eqb a c then Some i else b64_index c alphabet' (i + 1)%N
  end.

Definition b64_byte (n : N) : Byte.byte := default Byte.x00 (Byte.of_N (n mod 256)).

Fixpoint b64decode_chars (s : list Ascii.ascii) : option (list Byte.byte) :=
  match s with
  | [] => Some []
  | a :: b :: c :: d :: rest =>
      x ← b64_index a b64_alphabet 0; y ← b64_index b b64_alphabet 0;
      if Ascii.eqb d "="%char then
        match rest with
        | [] =>
            if Ascii.eqb c "="%char then Some [b64_byte ((x * 64 + y) / 16)]
            else
              z ← b64_index c b64_alphabet 0;
              let n := ((x * 64 + y) * 64 + z)%N in
              Some [b64_byte (n / 1024); b64_byte (n / 4)]
        | _ :: _ => None
        end
      else
        z ← b64_index c b64_alphabet 0; t ← b64_index d b64_alphabet 0;
        more ← b64decode_chars rest;
        let n := (((x * 64 + y) * 64 + z) * 64 + t)%N in
        Some (b64_byte (n / 65536) :: b64_byte (n / 256) :: b64_byte n :: more)
  | _ => None
  end.

(** The library on the sample inputs: bytes are ASCII, the one JSON text
    is [sample_answer], no answer carries a code fence and base64 text has
    no line breaks. *)
Definition sample_lib : PythonLib :=
  {| decode_utf8 := String.string_of_list_byte;
     json_loads := fun s =>
       if String.eqb s sample_answer then Some (JObject [("index.html", "<h1>v2</h1>")])
       else None;
     json_dumps := fun l =>
       match l with
       | [] => "[]"
       | _ :: _ =>
           "[" +:+ nl +:+
           join ("," +:+ nl) (map (fun s => "  " +:+ dq +:+ s +:+ dq) l) +:+ nl +:+ "]"
       end;
     re_findall_code_blocks := fun _ => [];
     b64decode := fun s => b64decode_chars (String.list_ascii_of_string s) |}.

(** A small image attachment: the first four bytes of a PNG file. *)
Definition sample_image : attachment :=
  {| name := "logo.png"; mime_type := "image/png";
     content := [Byte.x89; Byte.x50; Byte.x4e; Byte.x47];
     is_binary := true; source := "data_uri" |}.

Definition sample_client : client :=
  {| client_api_key := "sk"; client_base_url := None |}.

(** A second-round request, and the files its repository holds. *)
Definition sample_request : BuildRequestSchema :=
  {| req_email := "dev@example.com"; req_secret := "s3cret"; req_task := "demo";
     req_round := 2; req_nonce := "n-2"; req_brief := "Add a dark theme";
     req_checks := ["Page has a theme switch"];
     req_evaluation_url := sample_evaluation_url; req_attachments := [] |}.


(** A world whose first provider answers [sample_answer]. *)
Definition answering_world : world :=
  set_llm_script [inr sample_answer] idle_world.

(** A repository that was bootstrapped and published to once. *)
Definition sample_repo : Repository :=
  {| repo_name := "demo-dev"; full_name := "acme/demo-dev"; default_branch := "main" |}.

Definition published_state : repo_state :=
  {| rs_default_branch := "main";
     rs_trees :=
       [{[".init" := "Initialized by application"]};
        <["index.html" := "<h1>v1</h1>"]> {[".init" := "Initialized by application"]}];
     rs_commits :=
       [{| cd_tree := 0; cd_parents := []; cd_message := "Initialize repository" |};
        {| cd_tree := 1; cd_parents := [0%nat];
           cd_message := "Deploy application - Round 1" |}];
     rs_refs := {["heads/main" := 1%nat]} |}.

(** A world with that repository, or with an empty one, and given faults. *)
Definition hosting (rs : repo_state) (faults : list (option exn)) : world :=
  {| gh_owner := "acme"; gh_repos := {["acme/demo-dev" := rs]}; gh_faults := faults;
     llm_script := []; http_script := []; slept := 0 |}.

Definition sample_files : PyDict.t string :=
  [("index.html", "<h1>v2</h1>"); ("script.js", "init();"); ("round", "2")].

Definition bad_gateway : exn := GithubException 502 "Bad Gateway".

(** A repository whose commits are on [master] while its default branch
    is given as [main]. *)
Definition master_only_state : repo_state :=
  {| rs_default_branch := "main";
     rs_trees := [{["index.html" := "<h1>v1</h1>"]}];
     rs_commits := [{| cd_tree := 0; cd_parents := []; cd_message := "first" |}];
     rs_refs := {["heads/master" := 0%nat]} |}.

(** A small repository tree: two files at the root and one in a
    directory. *)
Definition sample_tree : list node :=
  [File {| cf_type := "file"; cf_path := "index.html"; cf_encoding := "base64";
           cf_content := b64encode (String.list_byte_of_string "<h1>v1</h1>") |};
   Dir "css"
     [File {| cf_type := "file"; cf_path := "css/style.css"; cf_encoding := "base64";
              cf_content := b64encode (String.list_byte_of_string "body { margin: 0; }") |}];
   File {| cf_type := "file"; cf_path := "LICENSE"; cf_encoding := "base64";
           cf_content := b64encode (String.list_byte_of_string "MIT License") |}].

(** A world for a second-round run: the repository is there, the listing
    of its contents is going to fail, the first provider answers. *)
Definition failed_fetch_world : world :=
  {| gh_owner := "acme"; gh_repos := {["acme/demo-dev" := published_state]};
     gh_faults := [None; Some bad_gateway];
     llm_script := [inr sample_answer]; http_script := []; slept := 0 |}.

(** ** Fenced blocks *)

(** The languages whose blocks are written under a key. *)
Definition langs_of (key : string) : list string :=
  if String.eqb key "index.html" then ["html"]
  else if String.eqb key "script.js" then ["javascript"; "js"]
  else if String.eqb key "style.css" then ["css"]
  else [].

(** The code of the last block in one of the given languages. *)
Definition last_code (langs : list string) (blocks : list (string * string)) : option string :=
  snd <$> last (List.filter (fun b => existsb (String.eqb (fst b)) langs) blocks).


(** A configuration without any credential. *)
Definition no_credentials (settings : Settings) : Prop :=
  truthy_opt (openrouter_api_key settings) = false /\
  truthy_opt (anthropic_api_key settings) = false /\
  truthy_opt (openai_api_key settings) = false /\
  truthy_opt (gemini_api_key settings) = false.

Definition bare_settings : Settings :=
  {| secret_token := "s3cret"; anthropic_api_key := None; openai_api_key := Some EmptyString;
     gemini_api_key := None; openrouter_api_key := None;
     openrouter_url := "https://openrouter.ai/api/v1";
     github_token := "ghp"; github_username := "acme";
     model_preferences := default_model_preferences |}.

(** A step that writes to the repository host. *)
Definition repo_write_of {W} (s : step W) : bool :=
  match s with
  | Step op _ _ =>
      match op with
      | CreateRepo _ _ | CreateFile _ _ _ _ _ | CreateGitTree _ _ _
      | CreateGitCommit _ _ _ _ | RefEdit _ _ _ _ => true
      | _ => false
      end
  end.

Definition no_repo_write {W} (tr : list (step W)) : bool :=
  forallb (fun s => negb (repo_write_of s)) tr.



(** ** Attachments ([app/utils/attachments.py]) *)

(** What [.+] and [.*] can take at most: the text up to the first newline,
    the one character the dot does not match. *)
Fixpoint line (s : string) : string :=
  match s with
  | EmptyString => EmptyString
  | String c s' => if Ascii.eqb c (Ascii.ascii_of_nat 10) then EmptyString
                   else String c (line s')
  end.

(** The rest of [s] after the literal [p], when [s] begins with it. *)
Fixpoint strip_prefix (p s : string) : option string :=
  match p, s with
  | EmptyString, _ => Some s
  | String a p', String b s' => if Ascii.eqb a b then strip_prefix p' s' else None
  | String _ _, EmptyString => None
  end.

(** [re.match(r'data:([^;]+)(;base64)?,(.+)', data_uri)], by the
    backtracking order of the pattern.  The groups of a match: group 1,
    whether group 2 took part, group 3. *)

(** [,(.+)] at [s], the first two groups being settled. *)
Definition match_data (group1 : string) (group2 : bool) (s : string)
    : option (string * bool * string) :=
  match s with
  | String c s' =>
      if Ascii.eqb c ","%char then
        match line s' with
        | EmptyString => None
        | group3 => Some (group1, group2, group3)
        end
      else None
  | EmptyString => None
  end.

(** [(;base64)?,(.+)] at [s]: the optional group is tried first, and left
    out when the rest does not match with it. *)
Definition match_base64 (group1 : string) (s : string) : option (string * bool * string) :=
  match
    match strip_prefix ";base64" s with
    | Some s' => match_data group1 true s'
    | None => None
    end
  with
  | Some m => Some m
  | None => match_data group1 false s
  end.

(** [([^;]+)(;base64)?,(.+)] at [s], with [taken] already in group 1: the
    group is greedy, so it takes the next character when it can and the
    rest is tried from here only when that fails; it needs one character
    at least. *)
Fixpoint match_mediatype (taken : string) (s : string) : option (string * bool * string) :=
  let stop :=
    match taken with
    | EmptyString => None
    | _ => match_base64 taken s
    end in
  match s with
  | String c s' =>
      if Ascii.eqb c ";"%char then stop
      else
        match match_mediatype (taken +:+ String c EmptyString) s' with
        | Some m => Some m
        | None => stop
        end
  | EmptyString => stop
  end.

Definition re_match_data_uri (data_uri : string) : option (string * bool * string) :=
  match strip_prefix "data:" data_uri with
  | Some s => match_mediatype EmptyString s
  | None => None
  end.

(** What [parse_data_uri] raises: its own [ValueError], or the
    [binascii.Error] of [base64.b64decode]. *)
Inductive data_uri_error : Type :=
| ValueError (msg : string)
| BinasciiError.

(** [AttachmentHandler.parse_data_uri]; [encode_utf8] is
    [str.encode('utf-8')]. *)
Definition parse_data_uri `{PythonLib} (encode_utf8 : string -> list Byte.byte)
    (data_uri : string) : data_uri_error + (string * string * list Byte.byte) :=
  match re_match_data_uri data_uri with
  | None => inl (ValueError "Invalid data URI format")
  | Some (group1, is_base64, data_part) =>
      let mime_type := if truthy group1 then group1 else "text/plain" in
      if is_base64 then
        match b64decode data_part with
        | Some data => inr (mime_type, "base64", data)
        | None => inl BinasciiError
        end
      else inr (mime_type, "plain", encode_utf8 data_part)
  end.

(** The library of the samples with a decoder that knows the base64 text
    of [sample_image]. *)
Definition image_lib : PythonLib :=
  {| decode_utf8 := String.string_of_list_byte;
     json_loads := fun _ => None;
     json_dumps := fun _ => "[]";
     re_findall_code_blocks := fun _ => [];
     b64decode := fun s =>
       if String.eqb s (b64encode (content sample_image)) then Some (content sample_image)
       else None |}.

(** ** Observations on a walk of [get_files] *)

(** What a step adds to the mapping [get_files] collects: the text of a
    file whose completion was answered and decodes, under the path the
    completed object gives. *)
Definition stored_of `{PythonLib} {W} (s : step W) : option (string * string) :=
  match s with
  | Step op reply _ =>
      match op in eff R return exn + R -> _ with
      | GetContentFile _ _ => fun reply =>
          match reply with
          | inr file_content => pair (cf_path file_content) <$> entry_text file_content
          | inl _ => None
          end
      | _ => fun _ => None
      end reply
  end.

Definition stored `{PythonLib} {W} (tr : list (step W)) : list (string * string) :=
  omap stored_of tr.

(** The entries a step lists. *)
Definition listed_of {W} (s : step W) : list ContentFile :=
  match s with
  | Step op reply _ =>
      match op in eff R return exn + R -> _ with
      | GetContents _ _ => fun reply =>
          match reply with
          | inr contents => contents
          | inl _ => []
          end
      | _ => fun _ => []
      end reply
  end.

Definition step_failed {W} (s : step W) : bool :=
  match s with
  | Step _ (inl _) _ => true
  | Step _ (inr _) _ => false
  end.

Definition file_or_dir (file_content : ContentFile) : bool :=
  String.eqb (cf_type file_content) "dir" || String.eqb (cf_type file_content) "file".


(** * Theorems *)

(** ** Programs and their runs *)

Lemma outcome_eta {W A} (o : outcome W A) :
  {| trace := trace o; result := result o; final := final o |} = o.
Proof. by destruct o. Qed.

Lemma interp_bind {W A B} (h : handler W) (p : prog A) (f : A -> prog B) (w : W) :
  interp h (bind p f) w = and_then (interp h p w) (fun a w' => interp h (f a) w').
Proof.
  revert w. induction p as [a|e|R op k IH]; intros w; simpl.
  - unfold and_then; simpl. by rewrite outcome_eta.
  - done.
  - destruct (h R op w) as [r w']. rewrite IH. unfold and_then; simpl.
    by destruct (result (interp h (k r) w')).
Qed.

Lemma interp_mbind {W A B} (h : handler W) (p : prog A) (f : A -> prog B) (w : W) :
  interp h (p ≫= f) w = and_then (interp h p w) (fun a w' => interp h (f a) w').
Proof. apply interp_bind. Qed.

Lemma interp_try_except {W A} (h : handler W) (p : prog A) (handle : exn -> prog A) (w : W) :
  interp h (try_except p handle) w =
  or_else (interp h p w) (fun e w' => interp h (handle e) w').
Proof.
  revert w. induction p as [a|e|R op k IH]; intros w; simpl.
  - done.
  - unfold or_else; simpl. by rewrite outcome_eta.
  - destruct (h R op w) as [r w']. rewrite IH. unfold or_else; simpl.
    by destruct (result (interp h (k r) w')).
Qed.

(** A body that returns is not retried. *)
Lemma interp_retrying_ok {W A} (h : handler W) remaining attempt wait (body : prog A) w a :
  result (interp h body w) = inr a ->
  interp h (Tenacity.retrying remaining attempt wait body) w = interp h body w.
Proof.
  intros Hr. destruct remaining; simpl; rewrite interp_try_except;
    unfold or_else; destruct (interp h body w) as [t r f]; simpl in *; by subst.
Qed.

(** A body that raises on the last attempt allowed ends in [RetryError]. *)
Lemma interp_retrying_stop {W A} (h : handler W) attempt wait (body : prog A) w e :
  result (interp h body w) = inl e ->
  interp h (Tenacity.retrying 0 attempt wait body) w =
  {| trace := trace (interp h body w); result := inl (RetryError e);
     final := final (interp h body w) |}.
Proof.
  intros Hr. simpl. rewrite interp_try_except. unfold or_else. rewrite Hr. simpl.
  by rewrite app_nil_r.
Qed.

(** A body that raises with attempts left: sleep, then go round. *)
Lemma interp_retrying_again {W A} (h : handler W) remaining attempt wait (body : prog A) w e :
  result (interp h body w) = inl e ->
  interp h (Tenacity.retrying (S remaining) attempt wait body) w =
  let o := interp h body w in
  let rw := h _ (Sleep (wait attempt)) (final o) in
  let o' := interp h (Tenacity.retrying remaining (attempt + 1) wait body) rw.2 in
  {| trace := trace o ++ Step (Sleep (wait attempt)) rw.1 rw.2 :: trace o';
     result := result o'; final := final o' |}.
Proof.
  intros Hr. cbn [Tenacity.retrying]. rewrite interp_try_except. unfold or_else.
  rewrite Hr. cbn [interp]. by destruct (h unit (Sleep (wait attempt)) _).
Qed.

(** ** Notification ([DeploymentService.notify_evaluation]) *)

Lemma interp_notify_once {W} (h : handler W) w url data :
  interp h (notify_evaluation_once url data) w =
  let rw := h _ (HttpPost url data json_headers) w in
  {| trace := [Step (HttpPost url data json_headers) rw.1 rw.2];
     result := match rw.1 with
               | inl e => inl e
               | inr response =>
                   if status_code response =? 200 then inr true
                   else inl (Exception ("Non-200 response: " +:+ pretty (status_code response)))
               end;
     final := rw.2 |}.
Proof.
  unfold notify_evaluation_once. rewrite interp_try_except. unfold or_else.
  cbn. destruct (h _ (HttpPost url data json_headers) w) as [[e|response] w']; cbn.
  - done.
  - by destruct (status_code response =? 200).
Qed.

Lemma notify_once_result {W} (h : handler W) w url data :
  let o := interp h (notify_evaluation_once url data) w in
  exists r, posts (trace o) = [(url, data, json_headers, r)] /\ sleeps (trace o) = [] /\
    ((exists response, r = inr response /\ status_code response = 200 /\ result o = inr true) \/
     (post_failed r /\ exists e, result o = inl e)).
Proof.
  cbn zeta. rewrite interp_notify_once. cbn zeta.
  destruct (h _ (HttpPost url data json_headers) w) as [r w']. cbn.
  exists r. split; [done|]. split; [done|].
  destruct r as [e|response]; cbn.
  - right. eauto.
  - destruct (Z.eqb_spec (status_code response) 200); [left|right]; eauto.
Qed.

Lemma posts_app {W} (tr1 tr2 : list (step W)) : posts (tr1 ++ tr2) = posts tr1 ++ posts tr2.
Proof. apply omap_app. Qed.

Lemma sleeps_app {W} (tr1 tr2 : list (step W)) : sleeps (tr1 ++ tr2) = sleeps tr1 ++ sleeps tr2.
Proof. apply omap_app. Qed.

Lemma generation_calls_app {W} (tr1 tr2 : list (step W)) :
  generation_calls (tr1 ++ tr2) = generation_calls tr1 ++ generation_calls tr2.
Proof. apply omap_app. Qed.

Lemma posts_sleep {W} seconds r (w : W) tr :
  posts (Step (Sleep seconds) r w :: tr) = posts tr.
Proof. done. Qed.

Lemma sleeps_sleep {W} seconds r (w : W) tr :
  sleeps (Step (Sleep seconds) r w :: tr) = seconds :: sleeps tr.
Proof. done. Qed.

Lemma generation_calls_sleep {W} seconds r (w : W) tr :
  generation_calls (Step (Sleep seconds) r w :: tr) = generation_calls tr.
Proof. done. Qed.

Lemma notify_retrying_spec {W} (h : handler W) url data wait remaining :
  forall attempt w,
  let o := interp h (Tenacity.retrying remaining attempt wait
                       (notify_evaluation_once url data)) w in
  let ps := posts (trace o) in
  Forall (fun p => p.1 = (url, data, json_headers)) ps /\
  ((exists failed response,
      ps.*2 = failed ++ [inr response] /\ Forall post_failed failed /\
      status_code response = 200 /\ (length failed <= remaining)%nat /\
      result o = inr true /\
      sleeps (trace o) = wait <$> seqZ attempt (Z.of_nat (length failed))) \/
   (exists e,
      length ps = S remaining /\ Forall post_failed ps.*2 /\
      result o = inl (RetryError e) /\
      sleeps (trace o) = wait <$> seqZ attempt (Z.of_nat remaining))).
Proof.
  induction remaining as [|remaining IH]; intros attempt w;
    destruct (notify_once_result h w url data) as (r & Hps & Hsl & Hcase);
    cbn zeta in *.
  - destruct Hcase as [(response & -> & H200 & Hres)|(Hfail & e & Hres)].
    + rewrite (interp_retrying_ok _ _ _ _ _ _ _ Hres), Hps, Hsl.
      split; [by repeat constructor|]. left. exists [], response. by repeat split.
    + rewrite (interp_retrying_stop _ _ _ _ _ _ Hres). cbn [trace result].
      rewrite Hps, Hsl. split; [by repeat constructor|]. right. exists e.
      repeat split; by repeat constructor.
  - destruct Hcase as [(response & -> & H200 & Hres)|(Hfail & e & Hres)].
    + rewrite (interp_retrying_ok _ _ _ _ _ _ _ Hres), Hps, Hsl.
      split; [by repeat constructor|]. left. exists [], response.
      repeat split; try done. cbn. lia.
    + rewrite (interp_retrying_again _ _ _ _ _ _ _ Hres). cbn zeta. cbn [trace result].
      set (o := interp h (notify_evaluation_once url data) w) in *.
      set (rw := h unit (Sleep (wait attempt)) (final o)).
      specialize (IH (attempt + 1) rw.2). cbn zeta in IH.
      set (o' := interp h (Tenacity.retrying remaining (attempt + 1) wait
                             (notify_evaluation_once url data)) rw.2) in *.
      rewrite posts_app, posts_sleep, sleeps_app, sleeps_sleep, Hps, Hsl.
      cbn [app]. rewrite fmap_cons. cbn [snd length].
      destruct IH as [Hsame IH]. split; [by constructor|].
      destruct IH as [(failed & response & Hrep & Hf & H200 & Hlen & Hres' & Hsl')
                     |(e' & Hlen & Hf & Hres' & Hsl')].
      * left. exists (r :: failed), response. rewrite Hrep.
        repeat split; try done.
        -- by constructor.
        -- cbn [length]. lia.
        -- rewrite Hsl'. cbn [length]. rewrite (seqZ_cons attempt) by lia.
           rewrite fmap_cons. do 3 f_equal; lia.
      * right. exists e'. repeat split; try done.
        -- by rewrite Hlen.
        -- by constructor.
        -- rewrite Hsl'. rewrite (seqZ_cons attempt) by lia.
           rewrite fmap_cons. do 3 f_equal; lia.
Qed.

(** C4 (as amended).  Whatever the evaluator does, [notify_evaluation]
    POSTs the same payload to the same URL on every attempt, and either
    some attempt among the first five is answered with status 200, the
    attempts before it having failed (an exception, or any other status,
    2xx or not), and the call returns [True] after sleeping 1, 2, 4, 8
    seconds between the attempts made; or all five attempts fail, the
    sleeps are 1, 2, 4, 8 seconds and the call raises [RetryError]. *)
Theorem notify_evaluation_confirms_on_200 {W} (h : handler W) (w : W)
    (evaluation_url : string) (data : EvaluationResponseSchema) :
  let o := interp h (notify_evaluation evaluation_url data) w in
  let ps := posts (trace o) in
  Forall (fun p => p.1 = (evaluation_url, data, json_headers)) ps /\
  ((exists failed response,
      ps.*2 = failed ++ [inr response] /\ Forall post_failed failed /\
      status_code response = 200 /\ (length failed <= 4)%nat /\
      result o = inr true /\
      sleeps (trace o) = take (length failed) [1; 2; 4; 8]) \/
   (exists e,
      length ps = 5%nat /\ Forall post_failed ps.*2 /\
      result o = inl (RetryError e) /\
      sleeps (trace o) = [1; 2; 4; 8])).
Proof.
  cbn zeta. unfold notify_evaluation, Tenacity.retry.
  change (5 - 1)%nat with 4%nat.
  destruct (notify_retrying_spec h evaluation_url data
              (Tenacity.wait_exponential 1 1 8) 4 1 w) as [Hsame Hcase].
  split; [exact Hsame|].
  destruct Hcase as [(failed & response & Hrep & Hf & H200 & Hlen & Hres & Hsl)
                    |(e & Hlen & Hf & Hres & Hsl)].
  - left. exists failed, response. repeat split; try done.
    rewrite Hsl. clear -Hlen.
    destruct failed as [|? [|? [|? [|? [|? ?]]]]]; cbn in Hlen; try lia; reflexivity.
  - right. exists e. repeat split; try done.
Qed.

(** C4, counterexample.  An evaluator that answers 201 Created, a status
    of the 2xx class, is not taken to have confirmed: the notification is
    sent five times and the call fails. *)
Lemma notify_evaluation_201_not_confirmed :
  let o := interp sim (notify_evaluation sample_evaluation_url sample_notification)
             (evaluator_answers [201; 201; 201; 201; 201]) in
  result o = inl (RetryError (Exception "Non-200 response: 201")) /\
  length (posts (trace o)) = 5%nat.
Proof. vm_compute. split; reflexivity. Qed.

(** ** The fallback cascade ([LLMManager.generate_with_fallback]) *)

Lemma run_candidates_app {W} (h : handler W) att cs1 cs2 w :
  run_candidates h att (cs1 ++ cs2) w =
  let o := run_candidates h att cs1 w in
  match result o with
  | inr None =>
      let o' := run_candidates h att cs2 (final o) in
      {| trace := trace o ++ trace o'; result := result o'; final := final o' |}
  | _ => o
  end.
Proof.
  revert w. induction cs1 as [|c cs1 IH]; intros w; cbn [app run_candidates].
  - cbn. by rewrite outcome_eta.
  - cbn zeta. destruct (result (interp h (att c) w)) as [e|response] eqn:Hr; [|done].
    rewrite IH. cbn zeta.
    destruct (result (run_candidates h att cs1 (final (interp h (att c) w))))
      as [e'|[response|]] eqn:Hr'; cbn [trace result final]; rewrite ?Hr'; try done.
    by rewrite app_assoc.
Qed.

Lemma run_candidates_no_raise {W} (h : handler W) att cs w e :
  result (run_candidates h att cs w) <> inl e.
Proof.
  revert w. induction cs as [|c cs IH]; intros w; cbn; [done|].
  destruct (result (interp h (att c) w)); cbn; [apply IH|done].
Qed.

(** The inner loop is a pass over the candidates of its model. *)
Lemma interp_providers_loop {W} (h : handler W) self prompt system_prompt attachments
    model names w :
  interp h (providers_loop self prompt system_prompt attachments model names) w =
  run_candidates h (attempt prompt system_prompt attachments)
    (provider_candidates self model names) w.
Proof.
  revert w. induction names as [|provider_name names IH]; intros w; [done|].
  cbn [providers_loop provider_candidates flat_map].
  fold (provider_candidates self model names).
  destruct (PyDict.get provider_name (providers self)) as [provider|]; [|apply IH].
  destruct (is_available provider); cbn [negb]; [|apply IH].
  rewrite interp_try_except, interp_mbind. cbn [app run_candidates]. cbn zeta.
  change (attempt prompt system_prompt attachments
            {| cand_model := model; cand_provider_name := provider_name;
               cand_provider := provider |})
    with (generate provider prompt model system_prompt attachments).
  unfold or_else, and_then.
  destruct (interp h (generate provider prompt model system_prompt attachments) w)
    as [tr [e|response] w']; cbn [trace result final interp].
  - by rewrite IH.
  - by rewrite app_nil_r.
Qed.

(** The outer loop is a pass over all candidates. *)
Lemma interp_models_loop {W} (h : handler W) self prompt system_prompt attachments
    models w :
  interp h (models_loop self prompt system_prompt attachments models) w =
  found_or_raise (run_candidates h (attempt prompt system_prompt attachments)
                    (candidates self models) w).
Proof.
  revert w. induction models as [|model models IH]; intros w; [done|].
  cbn [models_loop candidates flat_map]. fold (candidates self models).
  rewrite interp_mbind, interp_providers_loop, run_candidates_app.
  unfold and_then. cbn zeta.
  set (o := run_candidates h _ (provider_candidates self model _) w).
  destruct (result o) as [e|[response|]] eqn:Hr.
  - by apply run_candidates_no_raise in Hr.
  - unfold found_or_raise. rewrite Hr. cbn. by rewrite app_nil_r.
  - rewrite IH. unfold found_or_raise. by cbn.
Qed.

Lemma run_candidates_spec {W} (h : handler W) att cs :
  forall w,
  let o := run_candidates h att cs w in
  (exists failed c rest tr w1 response,
     cs = failed ++ c :: rest /\ fails_through h att w failed tr w1 /\
     result (interp h (att c) w1) = inr response /\
     trace o = tr ++ trace (interp h (att c) w1) /\
     result o = inr (Some response) /\
     final o = final (interp h (att c) w1)) \/
  (exists tr w',
     fails_through h att w cs tr w' /\
     trace o = tr /\ result o = inr None /\ final o = w').
Proof.
  induction cs as [|c cs IH]; intros w; cbn zeta.
  - right. exists [], w. repeat split. constructor.
  - cbn [run_candidates]. cbn zeta.
    destruct (result (interp h (att c) w)) as [e|response] eqn:Hr.
    + destruct (IH (final (interp h (att c) w)))
        as [(failed & c' & rest & tr & w1 & response & -> & Hf & Hok & Htr & Hres & Hfin)
           |(tr & w' & Hf & Htr & Hres & Hfin)]; cbn [trace result final].
      * left. exists (c :: failed), c', rest, (trace (interp h (att c) w) ++ tr), w1, response.
        repeat split; try done.
        -- by econstructor.
        -- by rewrite Htr, app_assoc.
      * right. exists (trace (interp h (att c) w) ++ tr), w'.
        repeat split; try done.
        -- by econstructor.
        -- by rewrite Htr.
    + left. exists [], c, cs, [], w, response. repeat split; try done. constructor.
Qed.

(** One pass: the first candidate that returns ends it, or all fail. *)
Lemma cascade_pass_cases {W} (h : handler W) (w : W) (self : LLMManager)
    (settings : Settings) (prompt : string) (system_prompt : option string)
    (attachments : list attachment) :
  let att := attempt prompt system_prompt attachments in
  let cs := candidates self (model_preferences settings) in
  let o := interp h (generate_with_fallback_once self settings prompt system_prompt
                       attachments) w in
  (exists failed c rest tr w1 response,
     cs = failed ++ c :: rest /\ fails_through h att w failed tr w1 /\
     result (interp h (att c) w1) = inr response /\
     trace o = tr ++ trace (interp h (att c) w1) /\
     result o = inr response /\
     final o = final (interp h (att c) w1)) \/
  (exists tr w',
     fails_through h att w cs tr w' /\
     trace o = tr /\ result o = inl all_failed /\ final o = w').
Proof.
  cbn zeta. unfold generate_with_fallback_once. rewrite interp_models_loop.
  destruct (run_candidates_spec h (attempt prompt system_prompt attachments)
              (candidates self (model_preferences settings)) w)
    as [(failed & c & rest & tr & w1 & response & Hcs & Hf & Hok & Htr & Hres & Hfin)
       |(tr & w' & Hf & Htr & Hres & Hfin)].
  - left. exists failed, c, rest, tr, w1, response.
    unfold found_or_raise. cbn [trace result final]. rewrite Hres. by repeat split.
  - right. exists tr, w'. unfold found_or_raise. cbn [trace result final].
    by rewrite Hres.
Qed.

(** The passes of the retry loop, whatever number of them is allowed. *)
Lemma cascade_passes_spec {W} (h : handler W) (self : LLMManager) (settings : Settings)
    (prompt : string) (system_prompt : option string) (attachments : list attachment)
    (wait : Z -> Z) (remaining : nat) :
  forall attempt_number w,
  let att := attempt prompt system_prompt attachments in
  let cs := candidates self (model_preferences settings) in
  let o := interp h (Tenacity.retrying remaining attempt_number wait
                       (generate_with_fallback_once self settings prompt system_prompt
                          attachments)) w in
  (exists n failed c rest tr0 w0 tr w1 response,
     (n <= remaining)%nat /\
     failed_passes h att cs wait n attempt_number w tr0 w0 /\
     cs = failed ++ c :: rest /\ fails_through h att w0 failed tr w1 /\
     result (interp h (att c) w1) = inr response /\
     trace o = tr0 ++ tr ++ trace (interp h (att c) w1) /\
     result o = inr response /\
     final o = final (interp h (att c) w1)) \/
  (exists tr0 w0 tr w',
     failed_passes h att cs wait remaining attempt_number w tr0 w0 /\
     fails_through h att w0 cs tr w' /\
     trace o = tr0 ++ tr /\ result o = inl (RetryError all_failed) /\ final o = w').
Proof.
  induction remaining as [|remaining IH]; intros attempt_number w; cbn zeta;
    destruct (cascade_pass_cases h w self settings prompt system_prompt attachments)
      as [(failed & c & rest & tr & w1 & response & Hcs & Hf & Hok & Htr & Hres & Hfin)
         |(tr & w' & Hf & Htr & Hres & Hfin)]; cbn zeta in *.
  - left. exists 0%nat, failed, c, rest, [], w, tr, w1, response.
    rewrite (interp_retrying_ok _ _ _ _ _ _ _ Hres).
    repeat split; try done. constructor.
  - right. exists [], w, tr, w'.
    rewrite (interp_retrying_stop _ _ _ _ _ _ Hres). cbn [trace result final].
    repeat split; try done. constructor.
  - left. exists 0%nat, failed, c, rest, [], w, tr, w1, response.
    rewrite (interp_retrying_ok _ _ _ _ _ _ _ Hres).
    repeat split; try done; [lia|constructor].
  - rewrite (interp_retrying_again _ _ _ _ _ _ _ Hres). cbn zeta. cbn [trace result final].
    rewrite Htr, Hfin.
    destruct (IH (attempt_number + 1) (h _ (Sleep (wait attempt_number)) w').2)
      as [(n & failed & c & rest & tr0 & w0 & tr1 & w1 & response & Hn & Hp & Hcs & Hf1 &
           Hok & Htr1 & Hres1 & Hfin1)
         |(tr0 & w0 & tr1 & w1 & Hp & Hf1 & Htr1 & Hres1 & Hfin1)]; cbn zeta in *.
    + left. eexists (S n), failed, c, rest, _, w0, tr1, w1, response.
      split; [lia|]. split; [by apply passes_cons|].
      repeat split; try done. rewrite Htr1. by rewrite <- app_assoc.
    + right. eexists _, w0, tr1, w1.
      split; [by apply passes_cons|].
      repeat split; try done. rewrite Htr1. by rewrite <- app_assoc.
Qed.

(** C2.  [generate_with_fallback] tries the candidates in order: models
    by preference, each model's providers as declared, leaving out the
    providers that are not configured or not available.  A candidate that
    raises only moves the pass on to the next.  Either some candidate
    returns, in the first pass or, after one or two passes in which every
    candidate raised and the sleep that follows each, in a later one, every
    candidate before it in its pass having raised: then
    [generate_with_fallback] returns that candidate's answer and the run
    ends with that candidate's call, no later candidate being consulted.
    Or every candidate raises in each of the three passes, and it raises
    that all providers failed. *)
Theorem generate_with_fallback_first_success {W} (h : handler W) (w : W)
    (self : LLMManager) (settings : Settings) (prompt : string)
    (system_prompt : option string) (attachments : list attachment) :
  let att := attempt prompt system_prompt attachments in
  let cs := candidates self (model_preferences settings) in
  let wait := Tenacity.wait_exponential 1 2 10 in
  let o := interp h (generate_with_fallback self settings prompt system_prompt
                       attachments) w in
  (exists n failed c rest tr0 w0 tr w1 response,
     (n <= 2)%nat /\
     failed_passes h att cs wait n 1 w tr0 w0 /\
     cs = failed ++ c :: rest /\ fails_through h att w0 failed tr w1 /\
     result (interp h (att c) w1) = inr response /\
     trace o = tr0 ++ tr ++ trace (interp h (att c) w1) /\
     result o = inr response /\
     final o = final (interp h (att c) w1)) \/
  (exists tr0 w0 tr w',
     failed_passes h att cs wait 2 1 w tr0 w0 /\
     fails_through h att w0 cs tr w' /\
     trace o = tr0 ++ tr /\ result o = inl (RetryError all_failed) /\ final o = w').
Proof.
  cbn zeta. unfold generate_with_fallback, Tenacity.retry. change (3 - 1)%nat with 2%nat.
  apply (cascade_passes_spec h self settings prompt system_prompt attachments
           (Tenacity.wait_exponential 1 2 10) 2 1 w).
Qed.

Lemma interp_do {W A R} (h : handler W) (op : eff R) (k : exn + R -> prog A) w :
  interp h (Do op k) w =
  let rw := h R op w in
  let o := interp h (k rw.1) rw.2 in
  {| trace := Step op rw.1 rw.2 :: trace o; result := result o; final := final o |}.
Proof. cbn. by destruct (h R op w). Qed.

(** Each provider implementation makes exactly one call per generation. *)
Ltac one_call_tac h :=
  let w := fresh "w" in
  intros w; cbn zeta;
  unfold api_error, call; cbn zeta;
  cbn [try_except bind mbind prog_bind]; rewrite interp_do; cbn zeta;
  destruct (h _ _ w) as [[?|?] ?];
  cbn [try_except bind interp trace result final fst snd];
  [ repeat split; eauto
  | unfold first_choice;
    try match goal with
        | |- context [choices ?r] => destruct (choices r)
        end;
    cbn [try_except bind interp trace result final];
    repeat split; try done ].

Lemma openrouter_one_call `{PythonLib} {W} (h : handler W) c prompt model sys atts :
  one_generation_call h (openrouter_generate c prompt model sys atts).
Proof. unfold one_generation_call, openrouter_generate. one_call_tac h. Qed.

Lemma anthropic_one_call `{PythonLib} {W} (h : handler W) c prompt model sys atts :
  one_generation_call h (anthropic_generate c prompt model sys atts).
Proof. unfold one_generation_call, anthropic_generate. one_call_tac h. Qed.

Lemma openai_one_call `{PythonLib} {W} (h : handler W) c prompt model sys atts :
  one_generation_call h (openai_generate c prompt model sys atts).
Proof. unfold one_generation_call, openai_generate. one_call_tac h. Qed.

Lemma gemini_one_call `{PythonLib} {W} (h : handler W) c prompt model mt temp sys atts :
  one_generation_call h (gemini_generate c prompt model mt temp sys atts).
Proof. unfold one_generation_call, gemini_generate. one_call_tac h. Qed.

Lemma pydict_get_set {V} (k k' : string) (v : V) (d : PyDict.t V) :
  PyDict.get k (PyDict.set k' v d) = if String.eqb k k' then Some v else PyDict.get k d.
Proof.
  induction d as [|[k0 v0] d IH]; cbn.
  - done.
  - destruct (String.eqb_spec k' k0) as [->|Hne]; cbn.
    + by destruct (String.eqb k k0).
    + destruct (String.eqb_spec k k0) as [->|Hne'].
      * destruct (String.eqb_spec k0 k'); congruence.
      * done.
Qed.



(** The providers the manager is built with are the four of
    [providers.py]. *)
Lemma manager_providers_one_call `{PythonLib} {W} (h : handler W) settings provider_name p :
  PyDict.get provider_name (providers (new_LLMManager settings)) = Some p ->
  forall prompt model sys atts, one_generation_call h (generate p prompt model sys atts).
Proof.
  unfold new_LLMManager, _initialize_providers. cbn [providers].
  destruct (openrouter_api_key settings) as [k1|]; [destruct (truthy k1)|];
  (destruct (anthropic_api_key settings) as [k2|]; [destruct (truthy k2)|]);
  (destruct (openai_api_key settings) as [k3|]; [destruct (truthy k3)|]);
  (destruct (gemini_api_key settings) as [k4|]; [destruct (truthy k4)|]);
  rewrite ?pydict_get_set; cbn [PyDict.get];
  repeat (match goal with
          | |- context [String.eqb provider_name ?s] => destruct (String.eqb provider_name s)
          end);
  intros Hp; try discriminate Hp; injection Hp as <-; intros prompt model sys atts;
  cbn [generate OpenRouterProvider AnthropicProvider OpenAIProvider GeminiProvider];
  first [apply openrouter_one_call | apply anthropic_one_call
        | apply openai_one_call | apply gemini_one_call].
Qed.

Lemma manager_candidates_one_call `{PythonLib} {W} (h : handler W) settings models
    prompt sys atts :
  Forall (fun c => one_generation_call h (attempt prompt sys atts c))
    (candidates (new_LLMManager settings) models).
Proof.
  apply Forall_forall. intros c Hc. apply list_elem_of_In in Hc.
  unfold candidates in Hc. apply in_flat_map in Hc as (model & _ & Hc).
  unfold provider_candidates in Hc. apply in_flat_map in Hc as (provider_name & _ & Hc).
  destruct (PyDict.get provider_name (providers (new_LLMManager settings)))
    as [p|] eqn:Hp; [|done].
  destruct (is_available p); [|done].
  destruct Hc as [<-|[]]. unfold attempt. cbn [cand_provider cand_model].
  by eapply manager_providers_one_call.
Qed.

Lemma run_candidates_all_tried {W} (h : handler W) att cs :
  Forall (fun c => one_generation_call h (att c)) cs ->
  forall w,
  let o := run_candidates h att cs w in
  sleeps (trace o) = [] /\
  (length (generation_calls (trace o)) <= length cs)%nat /\
  (result o = inr None -> length (generation_calls (trace o)) = length cs) /\
  (forallb generation_failed (trace o) = true -> result o = inr None).
Proof.
  induction 1 as [|c cs Hc _ IH]; intros w; cbn zeta.
  - cbn. repeat split; done.
  - cbn [run_candidates]. cbn zeta.
    destruct (Hc w) as (Hcalls & Hsl & Hfail). cbn zeta in *.
    destruct (result (interp h (att c) w)) as [e|response] eqn:Hr; cbn [trace result final].
    + destruct (IH (final (interp h (att c) w))) as (Hsl' & Hle & Hall & Hfail').
      rewrite sleeps_app, generation_calls_app, length_app, Hsl, Hsl', Hcalls.
      cbn [length]. repeat split; try done.
      * lia.
      * intros Hn. by rewrite (Hall Hn).
      * rewrite forallb_app. intros [_ Hf]%andb_prop. auto.
    + rewrite Hsl, Hcalls. cbn [length]. repeat split; try done.
      * lia.
      * intros Hf. destruct (Hfail Hf) as [e He]. congruence.
Qed.

(** One pass over the cascade of the manager. *)
Lemma cascade_pass_spec `{PythonLib} {W} (h : handler W) settings prompt sys atts w :
  let self := new_LLMManager settings in
  let n := length (candidates self (model_preferences settings)) in
  let o := interp h (generate_with_fallback_once self settings prompt sys atts) w in
  sleeps (trace o) = [] /\
  (length (generation_calls (trace o)) <= n)%nat /\
  (forall e, result o = inl e ->
     e = all_failed /\ length (generation_calls (trace o)) = n) /\
  (forallb generation_failed (trace o) = true -> result o = inl all_failed).
Proof.
  cbn zeta. unfold generate_with_fallback_once. rewrite interp_models_loop.
  destruct (run_candidates_all_tried h (attempt prompt sys atts) _
              (manager_candidates_one_call h settings (model_preferences settings)
                 prompt sys atts) w) as (Hsl & Hle & Hall & Hfail).
  cbn zeta in *. unfold found_or_raise. cbn [trace result final].
  split; [done|]. split; [done|]. split.
  - intros e. destruct (result (run_candidates _ _ _ _)) as [e'|[r|]] eqn:Hr; intros [= <-].
    + by apply run_candidates_no_raise in Hr.
    + split; [done|by apply Hall].
  - intros Hf. by rewrite (Hfail Hf).
Qed.

Lemma cascade_retrying_spec `{PythonLib} {W} (h : handler W) settings prompt sys atts wait
    remaining :
  forall attempt w,
  let self := new_LLMManager settings in
  let n := length (candidates self (model_preferences settings)) in
  let o := interp h (Tenacity.retrying remaining attempt wait
                       (generate_with_fallback_once self settings prompt sys atts)) w in
  (forall e, result o = inl e ->
     e = RetryError all_failed /\
     length (generation_calls (trace o)) = (S remaining * n)%nat /\
     sleeps (trace o) = wait <$> seqZ attempt (Z.of_nat remaining)) /\
  (forallb generation_failed (trace o) = true -> exists e, result o = inl e) /\
  (length (generation_calls (trace o)) <= S remaining * n)%nat.
Proof.
  induction remaining as [|remaining IH]; intros attempt w; cbn zeta;
    destruct (cascade_pass_spec h settings prompt sys atts w) as (Hsl & Hle & Hall & Hfail);
    cbn zeta in *;
    destruct (result (interp h (generate_with_fallback_once (new_LLMManager settings)
                                  settings prompt sys atts) w)) as [e|r] eqn:Hr.
  - rewrite (interp_retrying_stop _ _ _ _ _ _ Hr). cbn [trace result final].
    destruct (Hall e eq_refl) as [-> Hn]. split; [|split].
    + intros e' [= <-]. split; [done|]. split; [lia|done].
    + eauto.
    + lia.
  - rewrite (interp_retrying_ok _ _ _ _ _ _ _ Hr). split; [|split].
    + intros e' He. congruence.
    + intros Hf. specialize (Hfail Hf). congruence.
    + lia.
  - rewrite (interp_retrying_again _ _ _ _ _ _ _ Hr). cbn zeta. cbn [trace result final].
    destruct (Hall e eq_refl) as [-> Hn].
    set (o := interp h (generate_with_fallback_once _ _ _ _ _) w) in *.
    set (rw := h unit (Sleep (wait attempt)) (final o)).
    destruct (IH (attempt + 1) rw.2) as (Hall' & Hfail' & Hle'). cbn zeta in *.
    rewrite generation_calls_app, generation_calls_sleep, sleeps_app, sleeps_sleep,
      length_app, Hsl, Hn.
    split; [|split].
    + intros e' He'. destruct (Hall' e' He') as (-> & -> & ->).
      split; [done|]. split; [lia|]. cbn [app].
      rewrite (seqZ_cons attempt) by lia. rewrite fmap_cons. do 3 f_equal; lia.
    + rewrite forallb_app. cbn [forallb generation_failed].
      intros [_ Hf]%andb_prop. auto.
    + lia.
  - rewrite (interp_retrying_ok _ _ _ _ _ _ _ Hr). split; [|split].
    + intros e' He. congruence.
    + intros Hf. specialize (Hfail Hf). congruence.
    + lia.
Qed.

(** C3.  When every generation call of a run fails, [generate_with_fallback]
    raises tenacity's [RetryError] around the exception that all providers
    failed.  No other exception ever leaves it, and when it raises, the
    cascade has been passed over three times as a unit: the generation
    calls number three times the candidates, and the sleeps between the
    passes are 2 and 2 seconds, the exponential wait clamped between its
    floor of 2 and its ceiling of 10.  In any run the calls number at most
    three times the candidates. *)
Theorem generate_with_fallback_exhausted `{PythonLib} {W} (h : handler W) (w : W)
    (settings : Settings) (prompt : string) (system_prompt : option string)
    (attachments : list attachment) :
  let self := new_LLMManager settings in
  let n := length (candidates self (model_preferences settings)) in
  let o := interp h (generate_with_fallback self settings prompt system_prompt
                       attachments) w in
  (forallb generation_failed (trace o) = true -> result o = inl (RetryError all_failed)) /\
  (forall e, result o = inl e ->
     e = RetryError all_failed /\
     length (generation_calls (trace o)) = (3 * n)%nat /\
     sleeps (trace o) = [2; 2] /\
     Forall (fun s => 2 <= s <= 10) (sleeps (trace o))) /\
  (length (generation_calls (trace o)) <= 3 * n)%nat.
Proof.
  cbn zeta. unfold generate_with_fallback, Tenacity.retry.
  change (3 - 1)%nat with 2%nat.
  destruct (cascade_retrying_spec h settings prompt system_prompt attachments
              (Tenacity.wait_exponential 1 2 10) 2 1 w) as (Hall & Hfail & Hle).
  cbn zeta in *. split; [|split].
  - intros Hf. destruct (Hfail Hf) as [e He]. rewrite He.
    by destruct (Hall e He) as (-> & _).
  - intros e He. destruct (Hall e He) as (-> & Hn & Hsl). rewrite Hsl.
    split; [done|]. split; [exact Hn|]. split; [reflexivity|].
    repeat constructor; vm_compute; congruence.
  - exact Hle.
Qed.

(** C3, witness.  With every provider unreachable, the manager of the
    sample configuration makes fifteen calls, three for each of its five
    candidates, and fails. *)
Lemma generate_with_fallback_exhausted_witness :
  let o := interp sim
             (generate_with_fallback (new_LLMManager (H := sample_lib) sample_settings)
                sample_settings "Build a page" None [])
             idle_world in
  forallb generation_failed (trace o) = true /\
  result o = inl (RetryError all_failed) /\
  length (generation_calls (trace o)) = 15%nat.
Proof.
  cbn zeta.
  destruct (generate_with_fallback_exhausted (H := sample_lib) sim idle_world
              sample_settings "Build a page" None []) as (Hfail & Hall & _).
  cbn zeta in *.
  assert (Hf : forallb generation_failed
                 (trace (interp sim
                    (generate_with_fallback (new_LLMManager (H := sample_lib) sample_settings)
                       sample_settings "Build a page" None [])
                    idle_world)) = true) by (vm_compute; reflexivity).
  split; [exact Hf|]. split; [exact (Hfail Hf)|].
  destruct (Hall _ (Hfail Hf)) as (_ & Hn & _). rewrite Hn. vm_compute. reflexivity.
Defined.

(** ** Attachment shaping ([providers.py]) *)

Lemma string_app_nil_r (s : string) : s +:+ EmptyString = s.
Proof.
  induction s as [|c s IH]; [done|].
  change (String c (s +:+ EmptyString) = String c s). by rewrite IH.
Qed.

Lemma string_app_assoc (s1 s2 s3 : string) : (s1 +:+ s2) +:+ s3 = s1 +:+ s2 +:+ s3.
Proof.
  induction s1 as [|c s1 IH]; [done|].
  change (String c ((s1 +:+ s2) +:+ s3) = String c (s1 +:+ s2 +:+ s3)). by rewrite IH.
Qed.

Lemma user_content_of_acc `{PythonLib} (atts : list attachment) (t : string)
    (imgs : list content_part) :
  fold_left
    (fun user_content att =>
       if is_image att then user_content ++ [image_part att]
       else append_to_first_text (file_block att) user_content)
    atts (TextPart t :: imgs) =
  TextPart (full_prompt_of t atts) :: imgs ++ (image_part <$> List.filter is_image atts).
Proof.
  revert t imgs. induction atts as [|att atts IH]; intros t imgs.
  - cbn. by rewrite app_nil_r.
  - unfold full_prompt_of. cbn [fold_left List.filter].
    destruct (is_image att); cbn [negb append_to_first_text app].
    + rewrite IH. unfold full_prompt_of. by rewrite fmap_cons, <- app_assoc.
    + rewrite IH. by unfold full_prompt_of.
Qed.

Lemma user_content_of_shape `{PythonLib} (prompt : string) (atts : list attachment) :
  content_shape (PartsContent (user_content_of prompt atts)) =
  (full_prompt_of prompt atts, data_uri <$> List.filter is_image atts).
Proof.
  unfold user_content_of. rewrite user_content_of_acc. cbn [app content_shape].
  assert (Himg : forall l : list attachment,
            omap part_text (image_part <$> l) = [] /\
            omap part_image (image_part <$> l) = data_uri <$> l).
  { induction l as [|a l [IH1 IH2]]; [done|]. rewrite !fmap_cons. cbn. by rewrite IH1, IH2. }
  destruct (Himg (List.filter is_image atts)) as [H1 H2].
  cbn [omap list_omap part_text part_image].
  fold (@omap list _ _ _ part_text). fold (@omap list _ _ _ part_image).
  by rewrite H1, H2.
Qed.

Lemma user_shapes_system (system_prompt : option string) (m : message) :
  role m = "user" ->
  user_shapes (system_messages system_prompt ++ [m]) = [content_shape (msg_content m)].
Proof.
  intros Hm. unfold user_shapes, system_messages.
  destruct system_prompt as [s0|]; [destruct (truthy s0)|]; cbn; by rewrite Hm.
Qed.

Ltac sent_tac h w :=
  unfold api_error, call; cbn [try_except bind mbind prog_bind];
  rewrite interp_do; cbn zeta;
  destruct (h _ _ w) as [[?|?] ?];
  cbn [try_except bind interp trace result final fst snd];
  unfold first_choice;
  try match goal with
      | |- context [choices ?r] => destruct (choices r)
      end;
  cbn [try_except bind interp trace result final sent flat_map sent_of
       cr_messages mr_messages app];
  rewrite ?app_nil_r, ?user_shapes_system by done;
  cbn [msg_content]; rewrite ?user_content_of_shape; done.

(** C9 (as amended).  Every provider puts the same text before the
    model: the prompt followed by the labelled block of each non-image
    attachment, in order.  [OpenRouterProvider] and [OpenAIProvider] set
    each image attachment beside it as a base64 data URI;
    [AnthropicProvider] and [GeminiProvider] send no image at all. *)
Theorem providers_shape_attachments `{PythonLib} {W} (h : handler W) (w : W)
    (c : client) (prompt model : string) (system_prompt : option string)
    (attachments : list attachment) (max_tokens : Z) (temperature : Q) :
  let text := full_prompt_of prompt attachments in
  let images := data_uri <$> List.filter is_image attachments in
  sent (trace (interp h (openrouter_generate c prompt model system_prompt attachments) w))
    = [(text, images)] /\
  sent (trace (interp h (openai_generate c prompt model system_prompt attachments) w))
    = [(text, images)] /\
  sent (trace (interp h (anthropic_generate c prompt model system_prompt attachments) w))
    = [(text, [])] /\
  sent (trace (interp h (gemini_generate c prompt model max_tokens temperature
                           system_prompt attachments) w))
    = [(text, [])] /\
  text = prompt +:+
         join EmptyString (file_block <$> List.filter (fun att => negb (is_image att)) attachments).
Proof.
  cbn zeta. repeat split.
  - unfold openrouter_generate. sent_tac h w.
  - unfold openai_generate. sent_tac h w.
  - unfold anthropic_generate. sent_tac h w.
  - unfold gemini_generate. sent_tac h w.
  - unfold full_prompt_of. revert prompt.
    induction attachments as [|att atts IH]; intros prompt; cbn [fold_left List.filter].
    + cbn. by rewrite string_app_nil_r.
    + rewrite IH. destruct (is_image att); cbn [negb]; [done|].
      rewrite fmap_cons.
      destruct (file_block <$> List.filter (fun att0 => negb (is_image att0)) atts) eqn:Hl.
      * cbn [join]. by rewrite !string_app_nil_r.
      * cbn [join]. by rewrite !string_app_assoc.
Qed.

(** C9, counterexample.  Given one PNG attachment, the request of
    [OpenRouterProvider] carries the image and the request of
    [AnthropicProvider] carries nothing of it: the two do not shape the
    attachment alike. *)
Lemma providers_differ_on_images :
  sent (trace (interp sim
                 (openrouter_generate (H := sample_lib) sample_client "Build a page"
                    "gpt-5" None [sample_image]) idle_world))
    = [("Build a page", ["data:image/png;base64,iVBORw=="])] /\
  sent (trace (interp sim
                 (anthropic_generate (H := sample_lib) sample_client "Build a page"
                    "claude-opus-4-1" None [sample_image]) idle_world))
    = [("Build a page", [])].
Proof. split; vm_compute; reflexivity. Qed.

(** ** Post-processing of the generated files ([code_generator.py]) *)

Lemma pydict_contains_set {V} (k k' : string) (v : V) (d : PyDict.t V) :
  PyDict.contains k (PyDict.set k' v d) = String.eqb k k' || PyDict.contains k d.
Proof. unfold PyDict.contains. rewrite pydict_get_set. by destruct (String.eqb k k'). Qed.





Lemma interp_generate_application `{PythonLib} {W} (h : handler W) w self settings request
    atts :
  interp h (generate_application self settings request atts) w =
  and_then
    (interp h (generate_with_fallback (llm_manager self) settings
                 (generate_prompt request atts) (Some generate_system_prompt) atts) w)
    (fun response w' =>
       {| trace := [];
          result := inr (ensure_required_files request
                           (_parse_code_response (resp_content response)));
          final := w' |}).
Proof. unfold generate_application. cbn zeta. by rewrite interp_mbind. Qed.

Lemma interp_update_application `{PythonLib} {W} (h : handler W) w self settings request
    existing atts :
  interp h (update_application self settings request existing atts) w =
  and_then
    (interp h (generate_with_fallback (llm_manager self) settings
                 (update_prompt request existing atts) (Some update_system_prompt) atts) w)
    (fun response w' =>
       {| trace := [];
          result := inr (refresh_readme request
                           (merge_existing existing
                              (_parse_code_response (resp_content response))));
          final := w' |}).
Proof. unfold update_application. cbn zeta. by rewrite interp_mbind. Qed.






(** ** Publishing ([GitHubService.push_files]) *)

Lemma on_repo_ok {R} (repo : string) (f : repo_state -> (exn + R) * repo_state)
    (w : world) (rs : repo_state) (fs : list (option exn)) :
  at_repo w repo rs (None :: fs) \/ (at_repo w repo rs [] /\ fs = []) ->
  exists w', on_repo repo f w = ((f rs).1, w') /\ at_repo w' repo (f rs).2 fs.
Proof.
  unfold at_repo, on_repo.
  intros [[Hrs Hfs]|[[Hrs Hfs] ->]]; rewrite Hfs; cbn [tail];
    cbn [set_faults gh_repos]; rewrite Hrs; destruct (f rs) as [r rs'];
    eexists; (split; [reflexivity|]); cbn; by rewrite lookup_insert_eq.
Qed.

Lemma on_repo_fault {R} (repo : string) (f : repo_state -> (exn + R) * repo_state)
    (w : world) (rs : repo_state) (e : exn) (fs : list (option exn)) :
  at_repo w repo rs (Some e :: fs) ->
  exists w', on_repo repo f w = (inl e, w') /\ at_repo w' repo rs fs.
Proof.
  unfold at_repo, on_repo. intros [Hrs Hfs]. rewrite Hfs.
  eexists. split; [reflexivity|]. by cbn.
Qed.

Lemma branch_tree_at (w : world) (repo : string) (rs : repo_state) fs (branch : string) :
  at_repo w repo rs fs -> branch_tree w repo branch = tip_tree rs branch.
Proof. intros [Hrs _]. unfold branch_tree. by rewrite Hrs. Qed.

Lemma branch_tip_at (w : world) (repo : string) (rs : repo_state) fs (branch : string) :
  at_repo w repo rs fs -> branch_tip w repo branch = rs_refs rs !! ("heads/" +:+ branch).
Proof. intros [Hrs _]. unfold branch_tip. by rewrite Hrs. Qed.

(** A repository call in a world that holds the repository: the fault of
    its slot, if there is one, or else what the host does. *)
Lemma on_repo_step {R} (repo : string) (f : repo_state -> (exn + R) * repo_state)
    (w : world) (rs : repo_state) (fs : list (option exn)) :
  at_repo w repo rs fs ->
  exists w',
    on_repo repo f w =
      (match head fs with Some (Some e) => inl e | _ => (f rs).1 end, w') /\
    at_repo w' repo (match head fs with Some (Some e) => rs | _ => (f rs).2 end) (tail fs).
Proof.
  intros Hat. destruct fs as [|[e|] fs]; cbn [head tail].
  - destruct (on_repo_ok repo f w rs []) as (w' & ? & ?); eauto.
  - destruct (on_repo_fault repo f w rs e fs) as (w' & ? & ?); eauto.
  - destruct (on_repo_ok repo f w rs fs) as (w' & ? & ?); eauto.
Qed.

Section Publish.
Context (rs : repo_state) (branch : string) (tip : nat) (base : commit_data)
  (t0 : gmap string string).
Hypothesis Href : rs_refs rs !! ("heads/" +:+ branch) = Some tip.
Hypothesis Hcommit : rs_commits rs !! tip = Some base.
Hypothesis Htree : rs_trees rs !! cd_tree base = Some t0.

Lemma host_get_git_ref_tip :
  host_get_git_ref ("heads/" +:+ branch) rs =
  (inr {| ref_name := "heads/" +:+ branch; ref_object_sha := tip |}, rs).
Proof. unfold host_get_git_ref. by rewrite Href. Qed.

Lemma host_get_git_commit_tip :
  host_get_git_commit tip rs =
  (inr {| commit_sha := tip; commit_tree := cd_tree base;
          commit_parents := cd_parents base; commit_message := cd_message base |}, rs).
Proof. unfold host_get_git_commit. by rewrite Hcommit. Qed.

Lemma host_create_git_tree_tip (elements : list InputGitTreeElement) :
  host_create_git_tree elements (cd_tree base) rs =
  (inr (length (rs_trees rs)), with_tree (apply_elements t0 elements) rs).
Proof. unfold host_create_git_tree. by rewrite Htree. Qed.

Lemma host_create_git_commit_tip (t : gmap string string) (message : string) :
  host_create_git_commit message (length (rs_trees rs)) [tip] (with_tree t rs) =
  (inr {| commit_sha := length (rs_commits rs); commit_tree := length (rs_trees rs);
          commit_parents := [tip]; commit_message := message |},
   with_commit {| cd_tree := length (rs_trees rs); cd_parents := [tip];
                  cd_message := message |} (with_tree t rs)).
Proof.
  unfold host_create_git_commit, with_tree. cbn [rs_trees rs_commits].
  rewrite lookup_app_r, Nat.sub_diag by done. cbn [lookup list_lookup].
  cbn [forallb]. rewrite Hcommit. rewrite bool_decide_eq_true_2 by eauto. done.
Qed.

Lemma host_ref_edit_tip (t : gmap string string) (c : commit_data) :
  host_ref_edit ("heads/" +:+ branch) (length (rs_commits rs)) true
    (with_commit c (with_tree t rs)) =
  (inr tt, with_ref ("heads/" +:+ branch) (length (rs_commits rs))
             (with_commit c (with_tree t rs))).
Proof.
  unfold host_ref_edit, with_commit, with_tree. cbn [rs_refs rs_commits].
  rewrite Href, lookup_app_r, Nat.sub_diag by done. done.
Qed.




Lemma tip_tree_with_ref (t : gmap string string) (parents : list nat) (message : string) :
  tip_tree (with_ref ("heads/" +:+ branch) (length (rs_commits rs))
              (with_commit {| cd_tree := length (rs_trees rs); cd_parents := parents;
                              cd_message := message |} (with_tree t rs))) branch
  = Some t.
Proof.
  unfold tip_tree, with_ref, with_commit, with_tree. cbn [rs_refs rs_commits rs_trees].
  rewrite lookup_insert_eq. cbn.
  rewrite lookup_app_r, Nat.sub_diag by done. cbn.
  by rewrite lookup_app_r, Nat.sub_diag by done.
Qed.

End Publish.


Lemma interp_call {W R} (h : handler W) (op : eff R) (w : W) :
  interp h (call op) w =
  {| trace := [Step op (h R op w).1 (h R op w).2];
     result := (h R op w).1; final := (h R op w).2 |}.
Proof. unfold call. rewrite interp_do. cbn zeta. by destruct ((h R op w).1). Qed.

(** One repository call of a run on the simulated host. *)
Ltac repo_step H w' H' :=
  rewrite interp_do; cbn zeta; cbn [sim];
  match goal with
  | |- context [on_repo ?r ?f ?w] =>
      destruct (on_repo_step r f w _ _ H) as (w' & -> & H')
  end;
  cbn [head tail fst snd] in H' |- *;
  cbn [trace result final].

Ltac reduce_prog :=
  cbn [bind try_except mbind prog_bind ref_object_sha ref_name commit_sha commit_tree
       commit_parents commit_message fst snd].













(** The bootstrap of an empty repository on a host that does not fail. *)
Lemma push_files_bootstrap_ok (w : world) (repo : Repository) (files : PyDict.t string)
    (rs : repo_state) :
  gh_repos w !! full_name repo = Some rs ->
  rs_refs rs !! ("heads/" +:+ branch_of repo) = None ->
  rs_commits rs = [] ->
  gh_faults w = [] ->
  let o := interp sim (push_files repo files) w in
  result o = inr 1%nat /\
  branch_tree (final o) (full_name repo) (branch_of repo)
    = Some (apply_elements {[".init" := "Initialized by application"]}
              (tree_elements_of files)).
Proof.
  intros Hrs Href Hempty Hfs. cbn zeta.
  assert (H0 : at_repo w (full_name repo) rs []) by done.
  set (t0 := ({[".init" := "Initialized by application"]} : gmap string string)).
  set (c0 := {| cd_tree := length (rs_trees rs); cd_parents := [];
                cd_message := "Initialize repository" |}).
  set (rs0 := commit_onto ("heads/" +:+ branch_of repo) t0 [] "Initialize repository" rs).
  assert (Href0 : rs_refs rs0 !! ("heads/" +:+ branch_of repo) = Some 0%nat).
  { unfold rs0, commit_onto. cbn [rs_refs]. rewrite Hempty. apply lookup_insert_eq. }
  assert (Hc0 : rs_commits rs0 !! 0%nat = Some c0).
  { unfold rs0, commit_onto. cbn [rs_commits]. by rewrite Hempty. }
  assert (Ht0 : rs_trees rs0 !! cd_tree c0 = Some t0).
  { unfold rs0, commit_onto, c0. cbn [rs_trees cd_tree].
    by rewrite lookup_app_r, Nat.sub_diag by done. }
  assert (Hlen : length (rs_commits rs0) = 1%nat).
  { unfold rs0, commit_onto. cbn [rs_commits]. by rewrite Hempty. }
  unfold push_files, resolve_tip, try_except_github, call.
  cbn [mbind prog_bind bind try_except].
  repo_step H0 w1 H1.
  assert (Hg : host_get_git_ref ("heads/" +:+ branch_of repo) rs = (inl empty_repository, rs)).
  { unfold host_get_git_ref. by rewrite Href, Hempty. }
  rewrite Hg in *. cbn [fst snd] in *. unfold empty_repository in *. reduce_prog.
  repo_step H1 w2 H2.
  assert (Hcf : host_create_file ".init" "Initialize repository" "Initialized by application"
                  (branch_of repo) rs = (inr tt, rs0)).
  { unfold host_create_file. by rewrite Href, Hempty. }
  rewrite Hcf in *. cbn [fst snd] in *. reduce_prog.
  repo_step H2 w3 H3.
  rewrite (host_get_git_ref_tip rs0 _ 0 Href0) in *. cbn [fst snd] in *. reduce_prog.
  repo_step H3 w4 H4.
  rewrite (host_get_git_commit_tip rs0 0 c0 Hc0) in *. cbn [fst snd] in *. reduce_prog.
  repo_step H4 w5 H5.
  rewrite (host_create_git_tree_tip rs0 c0 t0 Ht0) in *. cbn [fst snd] in *. reduce_prog.
  repo_step H5 w6 H6.
  rewrite (host_create_git_commit_tip rs0 0 c0 Hc0) in *. cbn [fst snd] in *. reduce_prog.
  repo_step H6 w7 H7.
  rewrite (host_ref_edit_tip rs0 _ 0 Href0) in *. cbn [fst snd] in *. reduce_prog.
  cbn [interp trace result final]. rewrite Hlen. split; [done|].
  rewrite (branch_tree_at _ _ _ _ _ H7). apply tip_tree_with_ref.
Qed.

(** C5 (as amended).  When the tip of the branch cannot be resolved and
    the creation of the placeholder file raises, for whatever reason,
    [push_files] raises the same exception at once: the run consists of
    the failed read and the failed write, no tree or commit is made and no
    reference moved.  On an empty repository and a host that does not
    fail, the placeholder is created, the tip is resolved again and the
    publish returns with the file set laid over the placeholder. *)
Theorem push_files_bootstrap (repo : Repository) (files : PyDict.t string) :
  (forall (W : Type) (h : handler W) (w w1 w2 : W) (status : Z) (msg : string) (e : exn),
     h _ (GetGitRef (full_name repo) ("heads/" +:+ branch_of repo)) w
       = (inl (GithubException status msg), w1) ->
     h _ (CreateFile (full_name repo) ".init" "Initialize repository"
            "Initialized by application" (branch_of repo)) w1 = (inl e, w2) ->
     let o := interp h (push_files repo files) w in
     result o = inl e /\ final o = w2 /\
     trace o =
       [Step (GetGitRef (full_name repo) ("heads/" +:+ branch_of repo))
          (inl (GithubException status msg)) w1;
        Step (CreateFile (full_name repo) ".init" "Initialize repository"
                "Initialized by application" (branch_of repo)) (inl e) w2]) /\
  (forall (w : world) (rs : repo_state),
     gh_repos w !! full_name repo = Some rs ->
     rs_refs rs !! ("heads/" +:+ branch_of repo) = None ->
     rs_commits rs = [] ->
     gh_faults w = [] ->
     let o := interp sim (push_files repo files) w in
     exists sha,
       result o = inr sha /\
       branch_tree (final o) (full_name repo) (branch_of repo)
         = Some (apply_elements {[".init" := "Initialized by application"]}
                   (tree_elements_of files))).
Proof.
  split.
  - intros W h w w1 w2 status msg e Href Hcreate. cbn zeta.
    unfold push_files, resolve_tip, try_except_github, call.
    cbn [mbind prog_bind bind try_except].
    rewrite interp_do. cbn zeta. rewrite Href. cbn [fst snd]. reduce_prog.
    rewrite interp_do. cbn zeta. rewrite Hcreate. cbn [fst snd]. reduce_prog.
    by destruct e.
  - intros w rs Hrs Href Hempty Hfs. cbn zeta. exists 1%nat.
    by apply push_files_bootstrap_ok with (rs := rs).
Qed.

(** C5, witness.  The commits of the repository are on another branch:
    the default branch has no tip, the placeholder cannot be created
    because the repository is not empty, and the publish fails with the
    host's answer. *)
Lemma push_files_bootstrap_witness :
  result (interp sim (push_files sample_repo sample_files)
            (hosting master_only_state [])) = inl not_found.
Proof.
  destruct (proj1 (push_files_bootstrap sample_repo sample_files) world sim
              (hosting master_only_state [])
              (sim _ (GetGitRef "acme/demo-dev" "heads/main")
                 (hosting master_only_state [])).2
              (sim _ (CreateFile "acme/demo-dev" ".init" "Initialize repository"
                        "Initialized by application" "main")
                 (sim _ (GetGitRef "acme/demo-dev" "heads/main")
                    (hosting master_only_state [])).2).2
              404 "Not Found" not_found) as (Hres & _).
  - vm_compute. reflexivity.
  - vm_compute. reflexivity.
  - exact Hres.
Defined.

(** C5, counterexample.  The repository holds the placeholder already; the
    read of the tip fails once (the host answers 502); the creation of the
    placeholder is refused because the path is taken, and the publish
    fails with that refusal instead of going on: the branch is left where
    it was and the files are not published. *)
Lemma push_files_stops_on_nonempty_repository :
  let o := interp sim (push_files sample_repo sample_files)
             (hosting published_state [Some bad_gateway]) in
  result o = inl unprocessable /\
  branch_tip (final o) "acme/demo-dev" "main" = Some 1%nat /\
  length (trace o) = 2%nat.
Proof. vm_compute. repeat split; reflexivity. Qed.


(** ** Round metadata ([process_build_request], [push_files]) *)




(** ** Fetching the prior files ([GitHubService.get_files]) *)

Lemma get_files_loop_no_raise `{PythonLib} {W} (h : handler W) fuel repo e :
  forall contents files w,
  result (interp h (get_files_loop fuel repo contents files) w) <> inl e.
Proof.
  induction fuel as [|fuel IH]; intros contents files w;
    destruct contents as [|file_content contents]; cbn [get_files_loop]; try done.
  cbn zeta. destruct (String.eqb (cf_type file_content) "dir");
    [|destruct (String.eqb (cf_type file_content) "file")].
  - rewrite interp_do. cbn zeta.
    destruct (h _ _ w) as [[e'|more] w']; cbn [fst snd result]; [done|apply IH].
  - rewrite interp_do. cbn zeta.
    destruct (h _ _ w) as [[e'|completed] w']; cbn [fst snd result]; [done|].
    destruct (entry_text completed); [apply IH|done].
  - destruct (entry_text file_content); [apply IH|done].
Qed.

(** What is returned is what was stored, in the order of the run: nothing
    that a step stored is dropped, whatever ends the walk. *)
Lemma get_files_loop_stored `{PythonLib} {W} (h : handler W) fuel repo :
  forall contents files w collected,
  let o := interp h (get_files_loop fuel repo contents files) w in
  result o = inr (Some collected) ->
  forallb file_or_dir contents = true ->
  Forall (fun s => forallb file_or_dir (listed_of s) = true) (trace o) ->
  collected = PyDict.update files (stored (trace o)).
Proof.
  induction fuel as [|fuel IH]; intros contents files w collected;
    destruct contents as [|file_content contents]; cbn [get_files_loop]; cbn zeta;
    try (by cbn; intros [= <-]); try done.
  cbn [forallb]. unfold file_or_dir at 1.
  destruct (String.eqb (cf_type file_content) "dir");
    [|destruct (String.eqb (cf_type file_content) "file")]; cbn [orb andb].
  - rewrite interp_do. cbn zeta.
    destruct (h _ _ w) as [[e'|more] w']; cbn [fst snd trace result];
      [by intros [= <-]|].
    intros Hres Hq Hlist. apply Forall_cons in Hlist as [Hmore Hlist]. cbn in Hmore.
    cbn [stored omap list_omap stored_of].
    apply (IH _ _ _ _ Hres); [|done]. by rewrite forallb_app, Hq, Hmore.
  - rewrite interp_do. cbn zeta.
    destruct (h _ _ w) as [[e'|completed] w']; cbn [fst snd trace result];
      [by intros [= <-]|].
    destruct (entry_text completed) as [content|] eqn:Htext.
    + intros Hres Hq Hlist. apply Forall_cons in Hlist as [_ Hlist].
      cbn [stored omap list_omap stored_of]. rewrite Htext.
      cbn [fmap option_fmap option_map]. apply (IH _ _ _ _ Hres Hq Hlist).
    + cbn [interp trace result stored omap list_omap stored_of]. rewrite Htext.
      by intros [= <-].
  - done.
Qed.

(** A call that fails is the last call of the walk. *)
Lemma get_files_loop_stops `{PythonLib} {W} (h : handler W) fuel repo :
  forall contents files w,
  forallb (fun s => negb (step_failed s))
    (removelast (trace (interp h (get_files_loop fuel repo contents files) w))) = true.
Proof.
  assert (Hcons : forall (s : step W) tr,
            step_failed s = false ->
            forallb (fun s => negb (step_failed s)) (removelast tr) = true ->
            forallb (fun s => negb (step_failed s)) (removelast (s :: tr)) = true).
  { intros s [|s' tr] Hs Htr; [done|].
    change (removelast (s :: s' :: tr)) with (s :: removelast (s' :: tr)).
    cbn [forallb]. by rewrite Hs, Htr. }
  induction fuel as [|fuel IH]; intros contents files w;
    destruct contents as [|file_content contents]; cbn [get_files_loop]; try done.
  cbn zeta. destruct (String.eqb (cf_type file_content) "dir");
    [|destruct (String.eqb (cf_type file_content) "file")].
  - rewrite interp_do. cbn zeta.
    destruct (h _ _ w) as [[e'|more] w']; cbn [fst snd trace]; [done|].
    by apply Hcons.
  - rewrite interp_do. cbn zeta.
    destruct (h _ _ w) as [[e'|completed] w']; cbn [fst snd trace]; [done|].
    apply Hcons; [done|]. destruct (entry_text completed); [apply IH|done].
  - destruct (entry_text file_content); [apply IH|done].
Qed.

Lemma below_children (children : list node) :
  list_sum (map node_size children) =
  (length children + list_sum (map below children))%nat.
Proof.
  induction children as [|[cf|p cs] children IH]; cbn [map list_sum length].
  - done.
  - change (list_sum (node_size (File cf) :: map node_size children))
      with (1 + list_sum (map node_size children))%nat.
    change (list_sum (below (File cf) :: map below children))
      with (0 + list_sum (map below children))%nat. lia.
  - change (list_sum (node_size (Dir p cs) :: map node_size children))
      with (S (list_sum (map node_size cs)) + list_sum (map node_size children))%nat.
    change (list_sum (below (Dir p cs) :: map below children))
      with (list_sum (map node_size cs) + list_sum (map below children))%nat.
    lia.
Qed.

Lemma take_dir_below (path : string) (pending children rest : list node) :
  take_dir path pending = Some (children, rest) ->
  list_sum (map below pending) =
  (list_sum (map node_size children) + list_sum (map below rest))%nat.
Proof.
  revert rest. induction pending as [|n pending IH]; intros rest; cbn [take_dir]; [done|].
  destruct n as [cf|p cs].
  - destruct (take_dir path pending) as [[cs' rest']|]; [|done].
    intros [= <- <-]. cbn [map].
    change (list_sum (below (File cf) :: map below pending))
      with (0 + list_sum (map below pending))%nat.
    change (list_sum (below (File cf) :: map below rest'))
      with (0 + list_sum (map below rest'))%nat.
    rewrite (IH rest') by done. lia.
  - destruct (String.eqb p path).
    + by intros [= <- <-].
    + destruct (take_dir path pending) as [[cs' rest']|]; [|done].
      intros [= <- <-]. cbn [map].
      change (list_sum (below (Dir p cs) :: map below pending))
        with (below (Dir p cs) + list_sum (map below pending))%nat.
      change (list_sum (below (Dir p cs) :: map below rest'))
        with (below (Dir p cs) + list_sum (map below rest'))%nat.
      rewrite (IH rest') by done. lia.
Qed.

(** On a finite tree the walk ends: fuel for every entry still to be
    visited is enough. *)
Lemma get_files_loop_returns `{PythonLib} fuel repo :
  forall contents files w,
  (length contents + list_sum (map below (pending w)) <= fuel)%nat ->
  exists collected,
    result (interp tree_host (get_files_loop fuel repo contents files) w)
      = inr (Some collected).
Proof.
  induction fuel as [|fuel IH]; intros contents files w Hfuel;
    destruct contents as [|file_content contents]; cbn [get_files_loop]; eauto.
  - cbn [length] in Hfuel. lia.
  - cbn [length] in Hfuel. cbn zeta.
    destruct (String.eqb (cf_type file_content) "dir");
      [|destruct (String.eqb (cf_type file_content) "file")].
    + rewrite interp_do. cbn zeta. cbn [tree_host].
      destruct (tw_faults w) as [|[e|] fs]; cbn [tail fst snd result];
        try (by eauto);
        (destruct (take_dir (cf_path file_content) (pending w)) as [[children rest]|] eqn:Htake;
         cbn [fst snd result]; [|by eauto];
         apply IH; cbn [pending];
         rewrite length_app, length_fmap, map_app, list_sum_app;
         pose proof (take_dir_below _ _ _ _ Htake) as Hb;
         pose proof (below_children children); lia).
    + rewrite interp_do. cbn zeta. cbn [tree_host].
      destruct (tw_faults w) as [|[e|] fs]; cbn [tail fst snd result];
        try (by eauto);
        (destruct (find_file (cf_path file_content) (pending w)) as [completed|];
         cbn [result]; [|by eauto];
         destruct (entry_text completed); [|by eauto];
         apply IH; cbn [pending]; lia).
    + destruct (entry_text file_content); [|by eauto]. apply IH. lia.
Qed.

(** C10.  [get_files] never raises, whatever the host does and whatever
    bound is put on the walk.  When the first listing fails it returns the
    empty mapping.  A call that fails, a listing or the completion of a
    file, is the last call of the walk, and what is returned then is what
    was collected until then: when the entries listed are files and
    directories, the mapping returned is made of the files whose
    completion was answered and whose content decoded, each under its path
    with its text, in the order of the run, none of them dropped.  On a
    repository that is a finite tree, with the host failing wherever it
    will, the walk ends within as many iterations as the tree has entries
    and a mapping is returned. *)
Theorem get_files_never_raises `{PythonLib} (repo : Repository) :
  (forall (W : Type) (h : handler W) (w : W) (fuel : nat) (e : exn),
     result (interp h (get_files fuel repo) w) <> inl e) /\
  (forall (W : Type) (h : handler W) (w : W) (fuel : nat),
     (exists e, (h _ (GetContents (full_name repo) EmptyString) w).1 = inl e) ->
     result (interp h (get_files fuel repo) w) = inr (Some [])) /\
  (forall (W : Type) (h : handler W) (w : W) (fuel : nat),
     forallb (fun s => negb (step_failed s))
       (removelast (trace (interp h (get_files fuel repo) w))) = true) /\
  (forall (W : Type) (h : handler W) (w : W) (fuel : nat) (collected : PyDict.t string),
     let o := interp h (get_files fuel repo) w in
     result o = inr (Some collected) ->
     Forall (fun s => forallb file_or_dir (listed_of s) = true) (trace o) ->
     collected = PyDict.update [] (stored (trace o))) /\
  (forall (tree : list node) (faults : list (option exn)),
     exists collected,
       result (interp tree_host (get_files (list_sum (map node_size tree)) repo)
                 {| pending := [Dir EmptyString tree]; tw_faults := faults |})
         = inr (Some collected)).
Proof.
  split; [|split; [|split; [|split]]].
  - intros W h w fuel e. unfold get_files. rewrite interp_do. cbn zeta.
    destruct (h _ _ w) as [[e'|contents] w']; cbn [fst snd result]; [done|].
    apply get_files_loop_no_raise.
  - intros W h w fuel [e He]. unfold get_files. rewrite interp_do. cbn zeta.
    by rewrite He.
  - intros W h w fuel. unfold get_files. rewrite interp_do. cbn zeta.
    destruct (h _ _ w) as [[e'|contents] w']; cbn [fst snd trace]; [done|].
    pose proof (get_files_loop_stops h fuel repo contents [] w') as Hstops.
    destruct (trace (interp h (get_files_loop fuel repo contents []) w')) as [|s tr];
      [done|].
    change (removelast (Step (GetContents (full_name repo) EmptyString) (inr contents) w'
                          :: s :: tr))
      with (Step (GetContents (full_name repo) EmptyString) (inr contents) w'
              :: removelast (s :: tr)).
    cbn [forallb]. by rewrite Hstops.
  - intros W h w fuel collected. cbn zeta. unfold get_files. rewrite interp_do. cbn zeta.
    destruct (h _ _ w) as [[e'|contents] w']; cbn [fst snd trace result];
      [by intros [= <-]|].
    intros Hres Hlist. apply Forall_cons in Hlist as [Hroot Hlist]. cbn in Hroot.
    cbn [stored omap list_omap stored_of].
    by apply (get_files_loop_stored h fuel repo contents [] w' collected Hres).
  - intros tree faults. unfold get_files. rewrite interp_do. cbn zeta. cbn [tree_host].
    cbn [tw_faults pending take_dir]. rewrite String.eqb_refl.
    destruct faults as [|[e|] fs]; cbn [tail fst snd result]; try (by eauto);
      apply get_files_loop_returns; cbn [pending app];
      rewrite length_fmap; pose proof (below_children tree); lia.
Qed.


(** A second-round run whose fetch of the prior files fails goes on with
    the empty mapping: the update is generated from nothing and pushed. *)
Example update_run_after_failed_fetch :
  result (interp sim
            (process_build_request_publish (H := sample_lib) 10 sample_settings
               sample_request [])
            failed_fetch_world)
  = inr (Some (sample_repo, [("index.html", "<h1>v2</h1>"); ("round", "2")], 2%nat)).
Proof. vm_compute. reflexivity. Qed.

(** On the sample tree, with the listing of the directory failing, the
    files of the root are what is collected. *)
Example get_files_partial :
  result (interp tree_host (get_files (H := sample_lib) 4 sample_repo)
            {| pending := [Dir EmptyString sample_tree];
               tw_faults := [None; None; Some bad_gateway] |})
  = inr (Some [("index.html", "<h1>v1</h1>")]).
Proof. vm_compute. reflexivity. Qed.

(** The first candidate is unreachable, the second is refused by its
    client and the third answers: the answer of the third is returned,
    after three calls and no sleep. *)
Example fallback_to_second_candidate :
  let o := interp sim
             (generate_with_fallback (new_LLMManager (H := sample_lib) sample_settings)
                sample_settings "Build a page" None [])
             (set_llm_script [inl connection_error; inr sample_answer] idle_world) in
  result o = inr {| resp_content := sample_answer; resp_model := "gpt-5";
                    resp_provider := "openrouter"; resp_usage := None |} /\
  length (generation_calls (trace o)) = 3%nat /\
  sleeps (trace o) = [].
Proof. vm_compute. repeat split; reflexivity. Qed.

(** The evaluator answers 500 and then 200: the notification is confirmed
    at the second attempt, one second after the first. *)
Example notify_second_attempt :
  let o := interp sim (notify_evaluation sample_evaluation_url sample_notification)
             (evaluator_answers [500; 200]) in
  result o = inr true /\ length (posts (trace o)) = 2%nat /\ sleeps (trace o) = [1].
Proof. vm_compute. repeat split; reflexivity. Qed.

(** * Further properties of the code *)

(** ** Looking up and creating the repository *)

Lemma host_get_repo_quiet (name : string) (w : world) :
  gh_faults w = [] ->
  host_get_repo name w =
  (match gh_repos w !! (gh_owner w +:+ "/" +:+ name) with
   | Some rs => inr (describe (gh_owner w) name rs)
   | None => inl not_found
   end, set_faults [] w).
Proof.
  intros Hfs. unfold host_get_repo. rewrite Hfs. cbn [tail set_faults gh_repos gh_owner].
  by destruct (gh_repos w !! (gh_owner w +:+ "/" +:+ name)).
Qed.

Lemma host_create_repo_quiet (name : string) (w : world) :
  gh_faults w = [] ->
  host_create_repo name w =
  match gh_repos w !! (gh_owner w +:+ "/" +:+ name) with
  | Some _ => (inl unprocessable, set_faults [] w)
  | None =>
      (inr (describe (gh_owner w) name empty_repo_state),
       set_repos (<[gh_owner w +:+ "/" +:+ name := empty_repo_state]> (gh_repos w))
         (set_faults [] w))
  end.
Proof.
  intros Hfs. unfold host_create_repo. rewrite Hfs. cbn [tail set_faults gh_repos gh_owner].
  by destruct (gh_repos w !! (gh_owner w +:+ "/" +:+ name)).
Qed.

(** What [create_repository] does on a host that does not fail. *)
Lemma create_repository_quiet (name description : string) (w : world) :
  gh_faults w = [] ->
  let key := gh_owner w +:+ "/" +:+ name in
  let o := interp sim (create_repository name description) w in
  result o = inr (describe (gh_owner w) name
                    (default empty_repo_state (gh_repos w !! key))) /\
  gh_repos (final o) =
    match gh_repos w !! key with
    | Some _ => gh_repos w
    | None => <[key := empty_repo_state]> (gh_repos w)
    end /\
  gh_faults (final o) = [] /\ gh_owner (final o) = gh_owner w.
Proof.
  intros Hfs. cbn zeta. unfold create_repository, try_except_github, call.
  cbn [try_except]. rewrite interp_do. cbn zeta. cbn [sim].
  rewrite (host_create_repo_quiet name w Hfs).
  destruct (gh_repos w !! (gh_owner w +:+ "/" +:+ name)) as [rs|] eqn:Hrs;
    cbn [fst snd try_except interp trace result final default].
  - unfold unprocessable. cbn [try_except]. change (422 =? 422) with true. cbn iota.
    rewrite interp_do. cbn zeta. cbn [sim].
    rewrite (host_get_repo_quiet name (set_faults [] w)) by done.
    cbn [set_faults gh_repos gh_owner]. rewrite Hrs. by cbn.
  - by cbn.
Qed.

(** X1.  On a host that does not fail, [create_repository] creates the
    repository when there is none of the name and hands back the one that
    is there otherwise, leaving its contents as they are; either way the
    answer names the repository asked for, and asking again gives the same
    answer and changes nothing. *)
Theorem create_repository_idempotent (name description : string) (w : world) :
  gh_faults w = [] ->
  let key := gh_owner w +:+ "/" +:+ name in
  let o := interp sim (create_repository name description) w in
  let again := interp sim (create_repository name description) (final o) in
  (exists repo, result o = inr repo /\ repo_name repo = name /\ full_name repo = key) /\
  (forall rs, gh_repos w !! key = Some rs -> gh_repos (final o) = gh_repos w) /\
  (gh_repos w !! key = None ->
   gh_repos (final o) = <[key := empty_repo_state]> (gh_repos w)) /\
  result again = result o /\
  gh_repos (final again) = gh_repos (final o).
Proof.
  intros Hfs. cbn zeta.
  destruct (create_repository_quiet name description w Hfs) as (Hres & Hrepos & Hfs' & Howner).
  cbn zeta in *.
  destruct (create_repository_quiet name description _ Hfs') as (Hres2 & Hrepos2 & _ & _).
  cbn zeta in *. rewrite Howner in Hres2, Hrepos2.
  split; [eexists; split; [exact Hres|done]|].
  split; [intros rs Hrs; by rewrite Hrepos, Hrs|].
  split; [intros Hrs; by rewrite Hrepos, Hrs|].
  rewrite Hres, Hres2, Hrepos2, Hrepos.
  destruct (gh_repos w !! (gh_owner w +:+ "/" +:+ name)) as [rs|] eqn:Hrs.
  - by rewrite Hrs.
  - by rewrite lookup_insert_eq.
Qed.

(** X1, witness.  In the world without repositories. *)
Lemma create_repository_idempotent_witness :
  gh_faults idle_world = [] /\
  exists repo,
    result (interp sim (create_repository "demo-dev" "Application for task: demo")
              idle_world) = inr repo /\
    full_name repo = "acme/demo-dev".
Proof.
  split; [reflexivity|].
  destruct (create_repository_idempotent "demo-dev" "Application for task: demo"
              idle_world eq_refl) as ((repo & Hres & _ & Hfull) & _).
  exists repo. split; [exact Hres|exact Hfull].
Defined.

(** X2.  On a host that does not fail, [get_repository] answers [None]
    for a name that is not there, and after [create_repository] it answers
    the repository that [create_repository] returned. *)
Theorem get_repository_after_create (name description : string) (w : world) :
  gh_faults w = [] ->
  let key := gh_owner w +:+ "/" +:+ name in
  let o := interp sim (create_repository name description) w in
  (gh_repos w !! key = None ->
   result (interp sim (get_repository name) w) = inr None) /\
  (forall repo, result o = inr repo ->
     result (interp sim (get_repository name) (final o)) = inr (Some repo)).
Proof.
  intros Hfs. cbn zeta.
  assert (Hget : forall w', gh_faults w' = [] ->
            result (interp sim (get_repository name) w') =
            inr (describe (gh_owner w') name <$> gh_repos w' !! (gh_owner w' +:+ "/" +:+ name))).
  { intros w' Hfs'. unfold get_repository, try_except_github, call.
    cbn [mbind prog_bind bind try_except]. rewrite interp_do. cbn zeta. cbn [sim].
    rewrite (host_get_repo_quiet name w' Hfs').
    destruct (gh_repos w' !! (gh_owner w' +:+ "/" +:+ name)); by cbn. }
  split.
  - intros Hnone. by rewrite (Hget w Hfs), Hnone.
  - intros repo Hrepo.
    destruct (create_repository_quiet name description w Hfs) as (Hres & Hrepos & Hfs' & Howner).
    cbn zeta in *. rewrite (Hget _ Hfs'), Howner, Hrepos.
    rewrite Hres in Hrepo. injection Hrepo as <-.
    destruct (gh_repos w !! (gh_owner w +:+ "/" +:+ name)) as [rs|] eqn:Hrs.
    + by rewrite Hrs.
    + by rewrite lookup_insert_eq.
Qed.

(** X2, witness. *)
Lemma get_repository_after_create_witness :
  gh_faults idle_world = [] /\
  result (interp sim (get_repository "demo-dev") idle_world) = inr None.
Proof.
  split; [reflexivity|].
  apply (proj1 (get_repository_after_create "demo-dev" "Application for task: demo"
                  idle_world eq_refl)).
  vm_compute. reflexivity.
Defined.

(** X3.  Whatever the host does: [get_repository] takes a 404 for "no
    such repository" and re-raises every other exception as it is;
    [create_repository] turns to the lookup on a 422 and re-raises every
    other exception of the creation as it is, without a second call. *)
Theorem repository_errors_propagate {W} (h : handler W) (w w' : W) (name description : string)
    (e : exn) :
  (h _ (GetRepo name) w = (inl e, w') ->
   result (interp h (get_repository name) w) =
     match e with
     | GithubException status _ => if status =? 404 then inr None else inl e
     | _ => inl e
     end) /\
  (h _ (CreateRepo name description) w = (inl e, w') ->
   (forall msg, e <> GithubException 422 msg) ->
   result (interp h (create_repository name description) w) = inl e /\
   length (trace (interp h (create_repository name description) w)) = 1%nat).
Proof.
  split.
  - intros Hh. unfold get_repository, try_except_github, call.
    cbn [mbind prog_bind bind try_except]. rewrite interp_do. cbn zeta. rewrite Hh.
    cbn [fst snd bind try_except]. destruct e as [msg|status msg|last]; cbn; try done.
    by destruct (status =? 404).
  - intros Hh Hne. unfold create_repository, try_except_github, call.
    cbn [try_except]. rewrite interp_do. cbn zeta. rewrite Hh.
    cbn [fst snd try_except]. destruct e as [msg|status msg|last]; cbn; try done.
    destruct (Z.eqb_spec status 422) as [->|]; [by destruct (Hne msg)|done].
Qed.

(** X3, witness.  The host answers the creation with 502. *)
Lemma repository_errors_propagate_witness :
  result (interp sim (create_repository "demo-dev" "Application for task: demo")
            (hosting published_state [Some bad_gateway])) = inl bad_gateway.
Proof.
  refine (proj1 (proj2 (repository_errors_propagate sim
                          (hosting published_state [Some bad_gateway])
                          (hosting published_state [])
                          "demo-dev" "Application for task: demo" bad_gateway) _ _)).
  - vm_compute. reflexivity.
  - intros msg. unfold bad_gateway. congruence.
Defined.

(** ** The name of the repository ([process_build_request], line 32) *)

(** The characters of a string. *)
Abbreviation chars := String.list_ascii_of_string (only parsing).

Lemma chars_app (s1 s2 : string) : chars (s1 +:+ s2) = chars s1 ++ chars s2.
Proof.
  induction s1 as [|c s1 IH]; [done|].
  change (c :: chars (s1 +:+ s2) = c :: (chars s1 ++ chars s2)). by rewrite IH.
Qed.

Lemma replace_char_chars (a b : ascii) (s : string) (c : ascii) :
  In c (chars (replace_char a b s)) -> (c = b \/ In c (chars s)) /\ (a <> b -> c <> a).
Proof.
  induction s as [|c0 s IH]; cbn; [done|].
  intros [<-|Hin].
  - destruct (Ascii.eqb_spec c0 a) as [->|Hne]; split; auto.
  - destruct (IH Hin) as [[->|Hs] Hne]; split; auto.
Qed.

Lemma split_at_first (sep : ascii) (l d cur : string) :
  ~ In sep (chars l) ->
  split_from (String sep EmptyString) O cur (l +:+ String sep d) =
  (cur +:+ l) :: split_from (String sep EmptyString) O EmptyString d.
Proof.
  revert cur. induction l as [|c l IH]; intros cur Hnot.
  - change (EmptyString +:+ String sep d) with (String sep d).
    cbn [split_from startswith]. rewrite Ascii.eqb_refl. cbn [String.length Nat.sub].
    by rewrite string_app_nil_r.
  - change (String c l +:+ String sep d) with (String c (l +:+ String sep d)).
    cbn [split_from startswith].
    destruct (Ascii.eqb_spec sep c) as [->|Hne]; [destruct Hnot; by left|].
    rewrite IH by (intros Hin; apply Hnot; by right).
    f_equal. rewrite string_app_assoc. done.
Qed.

(** X4.  The name of the repository has no dot and no underscore in it,
    and it is made of the task and of the part of the address before the
    first [@] only: the domain of the address plays no part. *)
Theorem repo_name_normalised (request : BuildRequestSchema) :
  (forall c, In c (chars (repo_name_of request)) -> c <> "."%char /\ c <> "_"%char) /\
  (forall local domain,
     ~ In "@"%char (chars local) ->
     req_email request = local +:+ "@" +:+ domain ->
     repo_name_of request =
     replace_char "_" "-" (replace_char "." "-" (req_task request +:+ "-" +:+ local))).
Proof.
  split.
  - intros c Hin. unfold repo_name_of in Hin.
    apply replace_char_chars in Hin as [[->|Hin] Hne].
    + split; discriminate.
    + apply replace_char_chars in Hin as [_ Hdot].
      split; [apply Hdot; discriminate|apply Hne; discriminate].
  - intros local domain Hnot Hemail. unfold repo_name_of. rewrite Hemail.
    unfold split. change ("@" +:+ domain) with (String "@"%char domain).
    by rewrite split_at_first.
Qed.

(** X4, witness. *)
Lemma repo_name_normalised_witness :
  repo_name_of {| req_email := "jane.doe_x@example.com"; req_secret := EmptyString;
                  req_task := "todo_app"; req_round := 1; req_nonce := EmptyString;
                  req_brief := EmptyString; req_checks := [];
                  req_evaluation_url := EmptyString; req_attachments := [] |}
  = "todo-app-jane-doe-x".
Proof.
  rewrite (proj2 (repo_name_normalised _) "jane.doe_x" "example.com").
  - reflexivity.
  - vm_compute. intuition discriminate.
  - reflexivity.
Defined.

(** ** Reading the answer of the model ([_parse_code_response]) *)

Lemma string_of_chars_app (l1 l2 : list ascii) :
  String.string_of_list_ascii (l1 ++ l2) =
  String.string_of_list_ascii l1 +:+ String.string_of_list_ascii l2.
Proof.
  induction l1 as [|c l1 IH]; [done|].
  change (String c (String.string_of_list_ascii (l1 ++ l2)) =
          String c (String.string_of_list_ascii l1 +:+ String.string_of_list_ascii l2)).
  by rewrite IH.
Qed.

Lemma drop_to_brace_first (pre rest : list ascii) :
  ~ In "{"%char pre -> drop_to_brace (pre ++ "{"%char :: rest) = Some rest.
Proof.
  induction pre as [|c pre IH]; intros Hnot; cbn.
  - done.
  - destruct (Ascii.eqb_spec c "{"%char) as [->|Hne]; [destruct Hnot; by left|].
    apply IH. intros Hin. apply Hnot. by right.
Qed.

Lemma drop_to_brace_none (s : list ascii) :
  ~ In "{"%char s -> drop_to_brace s = None.
Proof.
  induction s as [|c s IH]; intros Hnot; cbn; [done|].
  destruct (Ascii.eqb_spec c "{"%char) as [->|Hne]; [destruct Hnot; by left|].
  apply IH. intros Hin. apply Hnot. by right.
Qed.

Lemma through_last_close_none (s : list ascii) :
  ~ In "}"%char s -> through_last_close s = None.
Proof.
  induction s as [|c s IH]; intros Hnot; cbn; [done|].
  rewrite IH by (intros Hin; apply Hnot; by right).
  destruct (Ascii.eqb_spec c "}"%char) as [->|Hne]; [destruct Hnot; by left|done].
Qed.

Lemma through_last_close_last (body post : list ascii) :
  ~ In "}"%char post ->
  through_last_close (body ++ "}"%char :: post) = Some (body ++ ["}"%char]).
Proof.
  intros Hnot. induction body as [|c body IH]; cbn.
  - by rewrite through_last_close_none.
  - by rewrite IH.
Qed.

(** X5.  The search for a JSON object in the answer takes the text from
    the first opening brace to the last closing brace: what stands before
    and after is dropped and what lies between is kept whole, further
    braces included.  An answer without an opening brace, or without a
    closing brace, has no match. *)
Theorem re_search_braces_outermost (pre body post : string) :
  (~ In "{"%char (chars pre) -> ~ In "}"%char (chars post) ->
   re_search_braces (pre +:+ "{" +:+ body +:+ "}" +:+ post) = Some ("{" +:+ body +:+ "}")) /\
  (~ In "{"%char (chars pre) -> re_search_braces pre = None) /\
  (~ In "}"%char (chars post) -> re_search_braces post = None).
Proof.
  split; [|split].
  - intros Hpre Hpost. unfold re_search_braces.
    rewrite chars_app.
    change (chars ("{" +:+ body +:+ "}" +:+ post))
      with ("{"%char :: chars (body +:+ "}" +:+ post)).
    rewrite drop_to_brace_first by done.
    rewrite chars_app.
    change (chars ("}" +:+ post)) with ("}"%char :: chars post).
    rewrite through_last_close_last by done.
    rewrite string_of_chars_app, String.string_of_list_ascii_of_string. done.
  - intros Hpre. unfold re_search_braces. by rewrite drop_to_brace_none.
  - intros Hpost. unfold re_search_braces.
    destruct (drop_to_brace (chars post)) as [rest|] eqn:Hd; [|done].
    rewrite through_last_close_none; [done|].
    intros Hin. apply Hpost. clear -Hd Hin.
    induction (chars post) as [|c s IH]; cbn in Hd; [done|].
    destruct (Ascii.eqb c "{"%char); [injection Hd as ->; by right|].
    right. by apply IH.
Qed.

(** X5, witness. *)
Lemma re_search_braces_outermost_witness :
  re_search_braces ("Here is the app: " +:+ "{" +:+ "a{b}c" +:+ "}" +:+ " Enjoy.")
  = Some ("{" +:+ "a{b}c" +:+ "}").
Proof.
  apply (proj1 (re_search_braces_outermost "Here is the app: " "a{b}c" " Enjoy."));
    vm_compute; intuition discriminate.
Defined.

(** ** Fenced blocks ([_parse_code_response], the fallback) *)

Lemma parse_code_blocks_snoc `{PythonLib} (blocks : list (string * string)) lang code :
  lang <> "json" ->
  parse_code_blocks (blocks ++ [(lang, code)]) =
  let files := parse_code_blocks blocks in
  if String.eqb lang "html" then PyDict.set "index.html" code files
  else if String.eqb lang "javascript" || String.eqb lang "js"
  then PyDict.set "script.js" code files
  else if String.eqb lang "css" then PyDict.set "style.css" code files
  else files.
Proof.
  intros Hne. unfold parse_code_blocks. rewrite fold_left_app. cbn [fold_left].
  cbn zeta.
  destruct (String.eqb lang "html"); [done|].
  destruct (String.eqb lang "javascript" || String.eqb lang "js"); [done|].
  destruct (String.eqb lang "css"); [done|].
  by destruct (String.eqb_spec lang "json").
Qed.

Lemma last_code_snoc (langs : list string) (blocks : list (string * string)) lang code :
  last_code langs (blocks ++ [(lang, code)]) =
  if existsb (String.eqb lang) langs then Some code else last_code langs blocks.
Proof.
  unfold last_code. rewrite List.filter_app. cbn [List.filter fst].
  destruct (existsb (String.eqb lang) langs).
  - by rewrite last_snoc.
  - by rewrite app_nil_r.
Qed.

Lemma parse_code_blocks_get `{PythonLib} (blocks : list (string * string)) (key : string) :
  Forall (fun b => fst b <> "json") blocks ->
  PyDict.get key (parse_code_blocks blocks) = last_code (langs_of key) blocks.
Proof.
  induction blocks as [|[lang code] blocks IH] using rev_ind; intros Hall; [done|].
  apply Forall_app in Hall as [Hall Hb]. apply Forall_cons in Hb as [Hb _]. cbn in Hb.
  rewrite parse_code_blocks_snoc, last_code_snoc by done. cbn zeta.
  specialize (IH Hall). revert IH.
  generalize (last_code (langs_of key) blocks). generalize (parse_code_blocks blocks).
  intros files found IH. unfold langs_of.
  destruct (String.eqb lang "html") eqn:E1;
    [|destruct (String.eqb lang "javascript") eqn:E2;
      [|destruct (String.eqb lang "js") eqn:E3;
        [|destruct (String.eqb lang "css") eqn:E4]]];
    cbn [orb]; rewrite ?pydict_get_set;
    try (apply String.eqb_eq in E1; subst lang);
    try (apply String.eqb_eq in E2; subst lang);
    try (apply String.eqb_eq in E3; subst lang);
    try (apply String.eqb_eq in E4; subst lang);
    (destruct (String.eqb key "index.html") eqn:K1;
     [|destruct (String.eqb key "script.js") eqn:K2;
       [|destruct (String.eqb key "style.css") eqn:K3]]);
    try (apply String.eqb_eq in K1; rewrite K1 in * );
    try (apply String.eqb_eq in K2; rewrite K2 in * );
    try (apply String.eqb_eq in K3; rewrite K3 in * );
    cbn [existsb orb]; rewrite ?E1, ?E2, ?E3, ?E4; cbn [orb];
    try done.
Qed.

(** X6.  When the answer is read from its fenced blocks and none of them
    is tagged [json], the entry page is the code of the last [html] block,
    the script that of the last [javascript] or [js] block, the style
    sheet that of the last [css] block (earlier blocks of the language are
    overwritten), and nothing else is in the file set: blocks in any other
    language are dropped. *)
Theorem parse_code_blocks_last_wins `{PythonLib} (blocks : list (string * string)) :
  Forall (fun b => fst b <> "json") blocks ->
  let files := parse_code_blocks blocks in
  PyDict.get "index.html" files = last_code ["html"] blocks /\
  PyDict.get "script.js" files = last_code ["javascript"; "js"] blocks /\
  PyDict.get "style.css" files = last_code ["css"] blocks /\
  (forall key, key <> "index.html" -> key <> "script.js" -> key <> "style.css" ->
     PyDict.get key files = None).
Proof.
  intros Hall. cbn zeta. repeat split.
  - by rewrite parse_code_blocks_get.
  - by rewrite parse_code_blocks_get.
  - by rewrite parse_code_blocks_get.
  - intros key H1 H2 H3. rewrite parse_code_blocks_get by done. unfold langs_of.
    destruct (String.eqb_spec key "index.html"); [done|].
    destruct (String.eqb_spec key "script.js"); [done|].
    destruct (String.eqb_spec key "style.css"); [done|].
    unfold last_code. cbn [existsb].
    clear. induction blocks as [|b blocks IH]; [done|exact IH].
Qed.

(** X6, witness.  Two pages, a block of Python and a script. *)
Lemma parse_code_blocks_last_wins_witness :
  let blocks := [("html", "<p>draft</p>"); ("python", "print(1)");
                 ("html", "<p>final</p>"); ("js", "run();")] in
  PyDict.get "index.html" (parse_code_blocks (H := sample_lib) blocks)
    = Some "<p>final</p>" /\
  PyDict.get "script.js" (parse_code_blocks (H := sample_lib) blocks) = Some "run();".
Proof.
  cbn zeta.
  destruct (parse_code_blocks_last_wins (H := sample_lib)
              [("html", "<p>draft</p>"); ("python", "print(1)");
               ("html", "<p>final</p>"); ("js", "run();")])
    as (H1 & H2 & _).
  - repeat constructor; cbn; discriminate.
  - split; [exact H1|exact H2].
Defined.

(** ** Updating the readme ([_update_readme], [update_application]) *)

Lemma string_length_app (s1 s2 : string) :
  String.length (s1 +:+ s2) = (String.length s1 + String.length s2)%nat.
Proof.
  induction s1 as [|c s1 IH]; [done|].
  change (S (String.length (s1 +:+ s2)) = S (String.length s1 + String.length s2)).
  by rewrite IH.
Qed.

Lemma split_from_nonempty (sep : string) (skip : nat) (cur s : string) :
  split_from sep skip cur s <> [].
Proof.
  revert skip cur. induction s as [|c s IH]; intros skip cur; cbn [split_from]; [done|].
  destruct skip; [|apply IH]. destruct (startswith sep (String c s)); [done|apply IH].
Qed.

Lemma split_from_skip (sep suf rest cur : string) :
  split_from sep (String.length suf) cur (suf +:+ rest) = split_from sep O cur rest.
Proof.
  induction suf as [|c suf IH]; [done|].
  change (String c suf +:+ rest) with (String c (suf +:+ rest)). cbn [String.length split_from].
  exact IH.
Qed.

Lemma startswith_app (p s : string) :
  startswith p s = true -> exists rest, s = p +:+ rest.
Proof.
  revert s. induction p as [|a p IH]; intros s; [by exists s|].
  destruct s as [|b s]; cbn [startswith]; [done|].
  destruct (Ascii.eqb_spec a b) as [->|]; [|done].
  intros (rest & ->)%IH. by exists rest.
Qed.

Lemma join_cons (sep p : string) (parts : list string) :
  parts <> [] -> join sep (p :: parts) = p +:+ sep +:+ join sep parts.
Proof. by destruct parts. Qed.

(** Joining the pieces of a split with the separator gives the text back. *)
Lemma join_split_from (sep : string) (n : nat) :
  sep <> EmptyString ->
  forall s cur, (String.length s <= n)%nat ->
  join sep (split_from sep O cur s) = cur +:+ s.
Proof.
  intros Hsep. induction n as [|n IH]; intros s cur Hlen.
  - destruct s; [|cbn in Hlen; lia]. cbn. by rewrite string_app_nil_r.
  - destruct s as [|c s]; [cbn; by rewrite string_app_nil_r|].
    cbn [split_from]. destruct (startswith sep (String c s)) eqn:Hsw.
    + destruct sep as [|c0 sep']; [done|].
      apply startswith_app in Hsw as (rest & Heq).
      change (String c0 sep' +:+ rest) with (String c0 (sep' +:+ rest)) in Heq.
      injection Heq as -> ->. cbn [String.length Nat.sub].
      rewrite Nat.sub_0_r, split_from_skip.
      rewrite join_cons by apply split_from_nonempty.
      rewrite IH.
      * done.
      * cbn [String.length] in Hlen. rewrite string_length_app in Hlen. lia.
    + rewrite IH by (cbn [String.length] in Hlen; lia).
      by rewrite string_app_assoc.
Qed.

Lemma join_split (sep s : string) : sep <> EmptyString -> join sep (split sep s) = s.
Proof. intros Hsep. unfold split. by rewrite (join_split_from sep (String.length s)). Qed.

(** X7.  A readme without a license heading gets the section of the round
    at its end.  A readme with the heading gets the section just before
    the first heading, and keeps what stands between the first heading and
    the second: when there is a second heading, the text from there on is
    lost. *)
Theorem update_readme_inserts (request : BuildRequestSchema) (current_readme : string) :
  (str_contains "## License" current_readme = false ->
   _update_readme request current_readme = current_readme +:+ update_section request) /\
  (forall part0 part1 rest,
     split "## License" current_readme = part0 :: part1 :: rest ->
     _update_readme request current_readme =
       part0 +:+ update_section request +:+ nl +:+ "## License" +:+ part1 /\
     current_readme = part0 +:+ "## License" +:+ join "## License" (part1 :: rest)).
Proof.
  split.
  - intros Hno. unfold _update_readme. by rewrite Hno.
  - intros part0 part1 rest Hsplit. split.
    + unfold _update_readme, str_contains. by rewrite Hsplit.
    + rewrite <- (join_split "## License" current_readme) at 1 by done.
      by rewrite Hsplit.
Qed.

(** X7, witness.  A readme with two license headings. *)
Lemma update_readme_inserts_witness :
  _update_readme sample_request "# demo ## License MIT ## License old" =
  "# demo " +:+ update_section sample_request +:+ nl +:+ "## License" +:+ " MIT ".
Proof.
  apply (proj2 (update_readme_inserts sample_request "# demo ## License MIT ## License old")
           "# demo " " MIT " [" old"]).
  vm_compute. reflexivity.
Defined.



(** ** The providers ([providers.py]) *)

Ltac provider_run h w :=
  unfold api_error, call; cbn [try_except bind mbind prog_bind];
  rewrite interp_do; cbn zeta.

(** X9.  Whatever goes wrong in a provider, the call itself or the
    reading of its answer, the exception that leaves [generate] is a plain
    [Exception] whose message begins with the name of the provider; each
    [generate] makes one call and no more. *)
Theorem providers_wrap_errors `{PythonLib} {W} (h : handler W) (w : W)
    (c : client) (prompt model : string) (system_prompt : option string)
    (attachments : list attachment) (max_tokens : Z) (temperature : Q) :
  let wrapped (label : string) (o : outcome W LLMResponse) :=
    length (trace o) = 1%nat /\
    forall e, result o = inl e ->
      exists msg, e = Exception (label +:+ " API error: " +:+ msg) in
  wrapped "OpenRouter"
    (interp h (openrouter_generate c prompt model system_prompt attachments) w) /\
  wrapped "OpenAI"
    (interp h (openai_generate c prompt model system_prompt attachments) w) /\
  wrapped "Anthropic"
    (interp h (anthropic_generate c prompt model system_prompt attachments) w) /\
  wrapped "Gemini"
    (interp h (gemini_generate c prompt model max_tokens temperature system_prompt
                 attachments) w).
Proof.
  cbn zeta. repeat split.
  all: try (unfold openrouter_generate); try (unfold openai_generate);
    try (unfold anthropic_generate); try (unfold gemini_generate);
    provider_run h w;
    destruct (h _ _ w) as [[e0|response] w'];
    cbn [try_except bind interp trace result final fst snd length];
    unfold first_choice;
    try match goal with
        | |- context [choices ?r] => destruct (choices r)
        end;
    cbn [try_except bind interp trace result final length]; try done;
    intros e [= <-]; eauto.
Qed.



Lemma after_first_slash_app (pre rest : string) :
  ~ In "/"%char (chars pre) -> after_first_slash (pre +:+ "/" +:+ rest) = Some rest.
Proof.
  induction pre as [|a pre IH]; intros Hnot; [done|].
  change (String a pre +:+ "/" +:+ rest) with (String a (pre +:+ "/" +:+ rest)).
  cbn [after_first_slash].
  destruct (Ascii.eqb_spec a "/"%char) as [->|]; [destruct Hnot; by left|].
  apply IH. intros Hin. apply Hnot. by right.
Qed.

Lemma after_first_slash_none (model : string) :
  ~ In "/"%char (chars model) -> after_first_slash model = None.
Proof.
  induction model as [|a model IH]; intros Hnot; cbn [after_first_slash]; [done|].
  destruct (Ascii.eqb_spec a "/"%char) as [->|]; [destruct Hnot; by left|].
  apply IH. intros Hin. apply Hnot. by right.
Qed.

(** X11.  [GeminiProvider] asks for the model by the part of its name
    after the first slash, and for a name without a slash by the name as
    it is; the answer it returns carries the name it was given. *)
Theorem gemini_strips_prefix `{PythonLib} {W} (h : handler W) (w : W) (c : client)
    (prompt : string) (system_prompt : option string) (attachments : list attachment)
    (max_tokens : Z) (temperature : Q) (model : string) :
  let o := interp h (gemini_generate c prompt model max_tokens temperature system_prompt
                       attachments) w in
  (forall pre rest, ~ In "/"%char (chars pre) -> model = pre +:+ "/" +:+ rest ->
     generation_calls (trace o) = [(c, rest)]) /\
  (~ In "/"%char (chars model) -> generation_calls (trace o) = [(c, model)]) /\
  (forall response, result o = inr response ->
     resp_model response = model /\ resp_provider response = "gemini").
Proof.
  cbn zeta. unfold gemini_generate. provider_run h w.
  destruct (h _ _ w) as [[e0|response] w'];
    cbn [try_except bind interp trace result final fst snd];
    unfold first_choice;
    try match goal with
        | |- context [choices ?r] => destruct (choices r)
        end;
    cbn [try_except bind interp trace result final generation_calls omap list_omap
         generation_call_of cr_model];
    (split; [|split]);
    try (intros pre rest Hnot ->; by rewrite after_first_slash_app);
    try (intros Hnot; by rewrite after_first_slash_none);
    try done.
  by intros ? [= <-].
Qed.

(** X11, witness. *)
Lemma gemini_strips_prefix_witness :
  generation_calls
    (trace (interp sim
              (gemini_generate (H := sample_lib) sample_client "Build a page"
                 "google/gemini-2.5-pro" 4096 (Qmake 7 10) None [])
              idle_world))
  = [(sample_client, "gemini-2.5-pro")].
Proof.
  apply (proj1 (gemini_strips_prefix (H := sample_lib) sim idle_world sample_client
                  "Build a page" None [] 4096 (Qmake 7 10) "google/gemini-2.5-pro")
           "google" "gemini-2.5-pro").
  - vm_compute. intuition discriminate.
  - reflexivity.
Defined.

(** ** The providers of the manager ([LLMManager._initialize_providers]) *)

(** X12.  The manager holds a provider under a name exactly when the
    credential of that provider is set and not empty; it holds nothing
    under any other name; and every provider it holds reports itself
    available, so that the cascade never passes over a provider it
    holds. *)
Theorem manager_providers_configured `{PythonLib} (settings : Settings) :
  let ps := providers (new_LLMManager settings) in
  PyDict.contains "openrouter" ps = truthy_opt (openrouter_api_key settings) /\
  PyDict.contains "anthropic" ps = truthy_opt (anthropic_api_key settings) /\
  PyDict.contains "openai" ps = truthy_opt (openai_api_key settings) /\
  PyDict.contains "gemini" ps = truthy_opt (gemini_api_key settings) /\
  (forall provider_name p,
     PyDict.get provider_name ps = Some p ->
     is_available p = true /\
     In provider_name ["openrouter"; "anthropic"; "openai"; "gemini"]).
Proof.
  cbn zeta. unfold new_LLMManager, _initialize_providers. cbn [providers].
  destruct (openrouter_api_key settings) as [k1|]; [destruct (truthy k1) eqn:T1|];
  (destruct (anthropic_api_key settings) as [k2|]; [destruct (truthy k2) eqn:T2|]);
  (destruct (openai_api_key settings) as [k3|]; [destruct (truthy k3) eqn:T3|]);
  (destruct (gemini_api_key settings) as [k4|]; [destruct (truthy k4) eqn:T4|]);
  cbn [truthy_opt]; rewrite ?T1, ?T2, ?T3, ?T4;
  do 4 (split; [rewrite ?pydict_contains_set; reflexivity|]);
  intros provider_name p; rewrite ?pydict_get_set; cbn [PyDict.get];
  repeat (match goal with
          | |- context [String.eqb provider_name ?s] =>
              destruct (String.eqb_spec provider_name s) as [->|]
          end);
  intros Hp; try discriminate Hp; injection Hp as <-;
  cbn [is_available OpenRouterProvider AnthropicProvider OpenAIProvider GeminiProvider In];
  auto 10.
Qed.

Lemma candidates_without_providers (self : LLMManager) (models : list string) :
  providers self = [] -> candidates self models = [].
Proof.
  intros Hp. unfold candidates. induction models as [|model models IH]; [done|].
  cbn [flat_map]. rewrite IH, app_nil_r. unfold provider_candidates. rewrite Hp.
  by induction (default [] (PyDict.get model (model_mapping self))).
Qed.

Lemma no_calls_all_failed {W} (tr : list (step W)) :
  generation_calls tr = [] -> forallb generation_failed tr = true.
Proof.
  induction tr as [|[R op reply w] tr IH]; [done|].
  unfold generation_calls. cbn [omap list_omap forallb].
  destruct op; cbn [generation_call_of generation_failed]; try done; exact IH.
Qed.

(** X13.  Without any credential the manager has no candidate:
    [generate_with_fallback] makes no call at all, yet goes through its
    three passes, sleeping two seconds after the first and after the
    second, before it raises. *)
Theorem no_credentials_no_calls `{PythonLib} {W} (h : handler W) (w : W)
    (settings : Settings) (prompt : string) (system_prompt : option string)
    (attachments : list attachment) :
  no_credentials settings ->
  let o := interp h (generate_with_fallback (new_LLMManager settings) settings prompt
                       system_prompt attachments) w in
  result o = inl (RetryError all_failed) /\
  generation_calls (trace o) = [] /\
  sleeps (trace o) = [2; 2].
Proof.
  intros (H1 & H2 & H3 & H4). cbn zeta.
  assert (Hnone : candidates (new_LLMManager settings) (model_preferences settings) = []).
  { apply candidates_without_providers. unfold new_LLMManager, _initialize_providers.
    cbn [providers].
    destruct (openrouter_api_key settings) as [k1|]; cbn [truthy_opt] in H1; rewrite ?H1;
    destruct (anthropic_api_key settings) as [k2|]; cbn [truthy_opt] in H2; rewrite ?H2;
    destruct (openai_api_key settings) as [k3|]; cbn [truthy_opt] in H3; rewrite ?H3;
    destruct (gemini_api_key settings) as [k4|]; cbn [truthy_opt] in H4; rewrite ?H4;
    done. }
  unfold generate_with_fallback, Tenacity.retry. change (3 - 1)%nat with 2%nat.
  destruct (cascade_retrying_spec h settings prompt system_prompt attachments
              (Tenacity.wait_exponential 1 2 10) 2 1 w) as (Hall & Hfail & Hle).
  cbn zeta in *. rewrite Hnone in *. cbn [length] in *. rewrite Nat.mul_0_r in *.
  assert (Hcalls : generation_calls
            (trace (interp h (Tenacity.retrying 2 1 (Tenacity.wait_exponential 1 2 10)
                      (generate_with_fallback_once (new_LLMManager settings) settings
                         prompt system_prompt attachments)) w)) = []).
  { destruct (generation_calls _); [done|cbn in Hle; lia]. }
  destruct (Hfail (no_calls_all_failed _ Hcalls)) as [e He].
  destruct (Hall e He) as (-> & _ & Hsl).
  split; [exact He|]. split; [exact Hcalls|]. rewrite Hsl. reflexivity.
Qed.

(** X13, witness.  The one credential of the configuration is the empty
    string. *)
Lemma no_credentials_no_calls_witness :
  no_credentials bare_settings /\
  sleeps (trace (interp sim
                   (generate_with_fallback (new_LLMManager (H := sample_lib) bare_settings)
                      bare_settings "Build a page" None [])
                   answering_world)) = [2; 2].
Proof.
  assert (Hno : no_credentials bare_settings) by (by repeat split).
  split; [exact Hno|].
  by destruct (no_credentials_no_calls (H := sample_lib) sim answering_world bare_settings
                 "Build a page" None [] Hno) as (_ & _ & Hsl).
Defined.

(** ** Failures before the publish ([push_files], [process_build_request]) *)

(** X14.  A failure of the tip lookup that is not a [GithubException] is
    not taken for an empty repository: [push_files] raises it at once,
    without trying to create the placeholder. *)
Theorem push_files_lookup_failure {W} (h : handler W) (w w1 : W) (repo : Repository)
    (files : PyDict.t string) (e : exn) :
  h _ (GetGitRef (full_name repo) ("heads/" +:+ branch_of repo)) w = (inl e, w1) ->
  (forall status msg, e <> GithubException status msg) ->
  let o := interp h (push_files repo files) w in
  result o = inl e /\ final o = w1 /\ length (trace o) = 1%nat.
Proof.
  intros Hh Hne. cbn zeta.
  unfold push_files, resolve_tip, try_except_github, call.
  cbn [mbind prog_bind bind try_except].
  rewrite interp_do. cbn zeta. rewrite Hh. cbn [fst snd]. reduce_prog.
  destruct e as [msg|status msg|last]; [by cbn|by destruct (Hne status msg)|by cbn].
Qed.

(** X14, witness.  The connection to the host fails. *)
Lemma push_files_lookup_failure_witness :
  result (interp sim (push_files sample_repo sample_files)
            (hosting published_state [Some connection_error])) = inl connection_error.
Proof.
  refine (proj1 (push_files_lookup_failure sim
                   (hosting published_state [Some connection_error])
                   (hosting published_state []) sample_repo sample_files
                   connection_error _ _)).
  - vm_compute. reflexivity.
  - intros status msg. unfold connection_error. congruence.
Defined.

Lemma no_repo_write_app {W} (tr1 tr2 : list (step W)) :
  no_repo_write (tr1 ++ tr2) = no_repo_write tr1 && no_repo_write tr2.
Proof. apply forallb_app. Qed.

Lemma trace_and_then {W A B} (o : outcome W A) (f : A -> W -> outcome W B) :
  trace (and_then o f) =
  trace o ++ match result o with
             | inr a => trace (f a (final o))
             | inl _ => []
             end.
Proof. unfold and_then. destruct (result o); cbn; by rewrite ?app_nil_r. Qed.

Lemma result_and_then {W A B} (o : outcome W A) (f : A -> W -> outcome W B) :
  result (and_then o f) =
  match result o with
  | inr a => result (f a (final o))
  | inl e => inl e
  end.
Proof. unfold and_then. by destruct (result o). Qed.

Ltac quiet_tac h w :=
  unfold api_error, call; cbn [try_except bind mbind prog_bind];
  rewrite interp_do; cbn zeta;
  destruct (h _ _ w) as [[?|?] ?];
  cbn [try_except bind interp trace result final fst snd];
  unfold first_choice;
  try match goal with
      | |- context [choices ?r] => destruct (choices r)
      end;
  cbn [try_except bind interp trace result final]; done.

(** The providers of the manager write nothing to the repository host. *)
Lemma manager_providers_quiet `{PythonLib} {W} (h : handler W) settings provider_name p :
  PyDict.get provider_name (providers (new_LLMManager settings)) = Some p ->
  forall prompt model sys atts w,
    no_repo_write (trace (interp h (generate p prompt model sys atts) w)) = true.
Proof.
  unfold new_LLMManager, _initialize_providers. cbn [providers].
  destruct (openrouter_api_key settings) as [k1|]; [destruct (truthy k1)|];
  (destruct (anthropic_api_key settings) as [k2|]; [destruct (truthy k2)|]);
  (destruct (openai_api_key settings) as [k3|]; [destruct (truthy k3)|]);
  (destruct (gemini_api_key settings) as [k4|]; [destruct (truthy k4)|]);
  rewrite ?pydict_get_set; cbn [PyDict.get];
  repeat (match goal with
          | |- context [String.eqb provider_name ?s] => destruct (String.eqb provider_name s)
          end);
  intros Hp; try discriminate Hp; injection Hp as <-; intros prompt model sys atts w;
  cbn [generate OpenRouterProvider AnthropicProvider OpenAIProvider GeminiProvider];
  first [ unfold openrouter_generate; quiet_tac h w
        | unfold anthropic_generate; quiet_tac h w
        | unfold openai_generate; quiet_tac h w
        | unfold gemini_generate; quiet_tac h w ].
Qed.

Lemma run_candidates_quiet {W} (h : handler W) att cs :
  Forall (fun c => forall w, no_repo_write (trace (interp h (att c) w)) = true) cs ->
  forall w, no_repo_write (trace (run_candidates h att cs w)) = true.
Proof.
  induction 1 as [|c cs Hc _ IH]; intros w; [done|].
  cbn [run_candidates]. cbn zeta.
  destruct (result (interp h (att c) w)); cbn [trace].
  - by rewrite no_repo_write_app, Hc, IH.
  - apply Hc.
Qed.

Lemma retrying_quiet {W A} (h : handler W) (body : prog A) wait :
  (forall w, no_repo_write (trace (interp h body w)) = true) ->
  forall remaining attempt w,
    no_repo_write (trace (interp h (Tenacity.retrying remaining attempt wait body) w)) = true.
Proof.
  intros Hbody. induction remaining as [|remaining IH]; intros attempt w;
    destruct (result (interp h body w)) as [e|a] eqn:Hr.
  - rewrite (interp_retrying_stop _ _ _ _ _ _ Hr). apply Hbody.
  - rewrite (interp_retrying_ok _ _ _ _ _ _ _ Hr). apply Hbody.
  - rewrite (interp_retrying_again _ _ _ _ _ _ _ Hr). cbn zeta. cbn [trace].
    rewrite no_repo_write_app, Hbody. cbn [andb no_repo_write forallb repo_write_of negb].
    apply IH.
  - rewrite (interp_retrying_ok _ _ _ _ _ _ _ Hr). apply Hbody.
Qed.

Lemma generate_with_fallback_quiet `{PythonLib} {W} (h : handler W) settings prompt sys atts w :
  no_repo_write
    (trace (interp h (generate_with_fallback (new_LLMManager settings) settings prompt sys
                        atts) w)) = true.
Proof.
  unfold generate_with_fallback, Tenacity.retry. apply retrying_quiet. intros w'.
  unfold generate_with_fallback_once. rewrite interp_models_loop. cbn [found_or_raise trace].
  apply run_candidates_quiet. apply Forall_forall. intros c Hc.
  apply list_elem_of_In in Hc. unfold candidates in Hc.
  apply in_flat_map in Hc as (model & _ & Hc).
  unfold provider_candidates in Hc. apply in_flat_map in Hc as (provider_name & _ & Hc).
  destruct (PyDict.get provider_name (providers (new_LLMManager settings)))
    as [p|] eqn:Hp; [|done].
  destruct (is_available p); [|done].
  destruct Hc as [<-|[]]. unfold attempt. cbn [cand_provider cand_model]. intros w''.
  by eapply manager_providers_quiet.
Qed.

Lemma generate_with_fallback_fails `{PythonLib} {W} (h : handler W) settings prompt sys atts w :
  forallb generation_failed
    (trace (interp h (generate_with_fallback (new_LLMManager settings) settings prompt sys
                        atts) w)) = true ->
  exists e, result (interp h (generate_with_fallback (new_LLMManager settings) settings
                                prompt sys atts) w) = inl e.
Proof.
  unfold generate_with_fallback, Tenacity.retry. change (3 - 1)%nat with 2%nat.
  by destruct (cascade_retrying_spec h settings prompt sys atts
                 (Tenacity.wait_exponential 1 2 10) 2 1 w) as (_ & Hfail & _).
Qed.

Lemma get_files_loop_quiet `{PythonLib} {W} (h : handler W) fuel repo :
  forall contents files w,
  no_repo_write (trace (interp h (get_files_loop fuel repo contents files) w)) = true.
Proof.
  induction fuel as [|fuel IH]; intros contents files w;
    destruct contents as [|file_content contents]; cbn [get_files_loop]; try done.
  cbn zeta. destruct (String.eqb (cf_type file_content) "dir");
    [|destruct (String.eqb (cf_type file_content) "file")].
  - rewrite interp_do. cbn zeta.
    destruct (h _ _ w) as [[e'|more] w']; cbn [fst snd trace]; [done|].
    cbn [no_repo_write forallb repo_write_of negb andb]. apply IH.
  - rewrite interp_do. cbn zeta.
    destruct (h _ _ w) as [[e'|completed] w']; cbn [fst snd trace]; [done|].
    cbn [no_repo_write forallb repo_write_of negb andb].
    destruct (entry_text completed); [apply IH|done].
  - destruct (entry_text file_content); [apply IH|done].
Qed.

Lemma get_files_quiet `{PythonLib} {W} (h : handler W) fuel repo w :
  no_repo_write (trace (interp h (get_files fuel repo) w)) = true.
Proof.
  unfold get_files. rewrite interp_do. cbn zeta.
  destruct (h _ _ w) as [[e'|contents] w']; cbn [fst snd trace]; [done|].
  cbn [no_repo_write forallb repo_write_of negb andb]. apply get_files_loop_quiet.
Qed.

Lemma get_repository_quiet {W} (h : handler W) name w :
  no_repo_write (trace (interp h (get_repository name) w)) = true.
Proof.
  unfold get_repository, try_except_github, call.
  cbn [mbind prog_bind bind try_except]. rewrite interp_do. cbn zeta.
  destruct (h _ _ w) as [[[msg|status msg|last]|repo] w'];
    cbn [fst snd bind try_except interp trace]; try done.
  by destruct (status =? 404).
Qed.

(** A generating step of the pipeline whose generation calls all fail
    raises, having written nothing. *)
Lemma generation_step_fails `{PythonLib} {W} (h : handler W) settings (p : prog (PyDict.t string))
    prompt sys atts (post : LLMResponse -> PyDict.t string) w :
  (forall w', interp h p w' =
     and_then (interp h (generate_with_fallback (new_LLMManager settings) settings prompt
                           sys atts) w')
       (fun response w'' =>
          {| trace := []; result := inr (post response); final := w'' |})) ->
  forallb generation_failed (trace (interp h p w)) = true ->
  no_repo_write (trace (interp h p w)) = true /\ exists e, result (interp h p w) = inl e.
Proof.
  intros Hp. rewrite Hp, trace_and_then, result_and_then, forallb_app.
  intros [Hf _]%andb_prop. destruct (generate_with_fallback_fails _ _ _ _ _ _ Hf) as [e He].
  rewrite He, app_nil_r. split; [apply generate_with_fallback_quiet|eauto].
Qed.

(** X15.  A run of the pipeline in which every generation call fails
    ends before the publish: it makes no write to the repository host (no
    repository, file, tree or commit is created and no reference moved)
    and hands nothing to [push_files]. *)
Theorem failed_generation_writes_nothing `{PythonLib} {W} (h : handler W) (w : W)
    (fuel : nat) (settings : Settings) (request : BuildRequestSchema)
    (processed_attachments : list attachment) :
  let o := interp h (process_build_request_publish fuel settings request
                       processed_attachments) w in
  forallb generation_failed (trace o) = true ->
  no_repo_write (trace o) = true /\
  (forall published, result o <> inr (Some published)).
Proof.
  cbn zeta. unfold process_build_request_publish. cbn zeta.
  rewrite interp_mbind, trace_and_then, result_and_then, forallb_app, no_repo_write_app.
  rewrite get_repository_quiet. cbn [andb].
  set (o0 := interp h (get_repository (repo_name_of request)) w).
  destruct (result o0) as [e0|found]; [done|].
  intros [_ Hf]%andb_prop. revert Hf.
  rewrite interp_mbind, trace_and_then, result_and_then, forallb_app, no_repo_write_app.
  assert (Hgen : forall w' : W,
            forallb generation_failed
              (trace (interp h (generate_application (new_CodeGenerator settings) settings
                                  request processed_attachments) w')) = true ->
            no_repo_write
              (trace (interp h (generate_application (new_CodeGenerator settings) settings
                                  request processed_attachments) w')) = true /\
            exists e, result (interp h (generate_application (new_CodeGenerator settings)
                                          settings request processed_attachments) w') = inl e).
  { intros w'. apply generation_step_fails with
      (settings := settings) (prompt := generate_prompt request processed_attachments)
      (sys := Some generate_system_prompt) (atts := processed_attachments)
      (post := fun response =>
                 ensure_required_files request (_parse_code_response (resp_content response))).
    intros w''. apply interp_generate_application. }
  destruct found as [repo|].
  - destruct (req_round request =? 1).
    + rewrite interp_mbind, !trace_and_then, !result_and_then.
      intros [Hf _]%andb_prop. rewrite forallb_app in Hf. apply andb_prop in Hf as [Hf _].
      destruct (Hgen _ Hf) as [Hq [e He]]. rewrite He, !app_nil_r, Hq. by split.
    + rewrite interp_mbind, !trace_and_then, !result_and_then.
      intros [Hf _]%andb_prop. rewrite forallb_app in Hf. apply andb_prop in Hf as [_ Hf].
      rewrite no_repo_write_app, get_files_quiet. cbn [andb].
      destruct (result (interp h (get_files fuel repo) (final o0))) as [e1|[existing|]].
      * done.
      * revert Hf. rewrite interp_mbind, !trace_and_then, !result_and_then.
        rewrite forallb_app. intros [Hf _]%andb_prop.
        assert (Hup := generation_step_fails h settings
                  (update_application (new_CodeGenerator settings) settings request existing
                     processed_attachments)
                  (update_prompt request existing processed_attachments)
                  (Some update_system_prompt) processed_attachments
                  (fun response =>
                     refresh_readme request
                       (merge_existing existing
                          (_parse_code_response (resp_content response))))
                  (final (interp h (get_files fuel repo) (final o0)))
                  (fun w'' => interp_update_application h w'' _ settings request existing
                                processed_attachments) Hf).
        destruct Hup as [Hq [e He]]. rewrite He, !app_nil_r, Hq. by split.
      * cbn. by split.
  - rewrite interp_mbind, !trace_and_then, !result_and_then.
    intros [Hf _]%andb_prop. rewrite forallb_app in Hf. apply andb_prop in Hf as [Hf _].
    destruct (Hgen _ Hf) as [Hq [e He]]. rewrite He, !app_nil_r, Hq. by split.
Qed.

(** X15, witness.  A request for a repository that does not exist yet, on a
    host where no provider answers. *)
Lemma failed_generation_writes_nothing_witness :
  let o := interp sim
             (process_build_request_publish (H := sample_lib) 10 sample_settings
                sample_request [])
             idle_world in
  forallb generation_failed (trace o) = true /\ no_repo_write (trace o) = true.
Proof.
  cbn zeta.
  assert (Hf : forallb generation_failed
                 (trace (interp sim
                    (process_build_request_publish (H := sample_lib) 10 sample_settings
                       sample_request []) idle_world)) = true)
    by (vm_compute; reflexivity).
  split; [exact Hf|].
  exact (proj1 (failed_generation_writes_nothing (H := sample_lib) sim idle_world 10
                  sample_settings sample_request [] Hf)).
Defined.

(** ** Fetching a repository ([get_files]) *)







(** ** Data URIs ([AttachmentHandler.parse_data_uri]) *)

Lemma string_app_cons (c : Ascii.ascii) (s t : string) : String c s +:+ t = String c (s +:+ t).
Proof. reflexivity. Qed.

Lemma string_app_nil_l (s : string) : EmptyString +:+ s = s.
Proof. reflexivity. Qed.

Lemma line_whole (s : string) : ~ In (Ascii.ascii_of_nat 10) (chars s) -> line s = s.
Proof.
  induction s as [|c s IH]; [done|]. cbn [String.list_ascii_of_string In line]. intros Hnot.
  destruct (Ascii.eqb_spec c (Ascii.ascii_of_nat 10)) as [->|_]; [tauto|].
  rewrite IH; [done|tauto].
Qed.

Lemma line_spec (s : string) :
  exists rest, s = line s +:+ rest /\ ~ In (Ascii.ascii_of_nat 10) (chars (line s)).
Proof.
  induction s as [|c s (rest & Hs & Hnot)];
    [exists EmptyString; split; [reflexivity|intros []]|].
  cbn [line]. destruct (Ascii.eqb_spec c (Ascii.ascii_of_nat 10)) as [->|Hne].
  - eexists. split; [reflexivity|]. cbn. tauto.
  - exists rest. rewrite string_app_cons, <- Hs. split; [done|].
    cbn [String.list_ascii_of_string In]. intros [Heq|Hin]; [by apply Hne|by apply Hnot].
Qed.

Lemma strip_prefix_spec (p s s' : string) : strip_prefix p s = Some s' -> s = p +:+ s'.
Proof.
  revert s. induction p as [|a p IH]; intros s; cbn [strip_prefix].
  - by intros [= ->].
  - destruct s as [|b s]; [done|]. destruct (Ascii.eqb_spec a b) as [->|_]; [|done].
    intros Hs. by rewrite string_app_cons, <- (IH s Hs).
Qed.

Lemma strip_prefix_startswith (p q s s' : string) :
  strip_prefix p s = Some s' -> startswith (p +:+ q) s = startswith q s'.
Proof.
  revert s. induction p as [|a p IH]; intros s; cbn [strip_prefix].
  - by intros [= ->].
  - destruct s as [|b s]; [done|]. rewrite string_app_cons. cbn [startswith].
    destruct (Ascii.eqb a b); [apply IH|done].
Qed.

Lemma match_data_spec (group1 : string) (group2 : bool) (s : string) m :
  match_data group1 group2 s = Some m ->
  exists group3 rest,
    m = (group1, group2, group3) /\
    s = "," +:+ group3 +:+ rest /\ group3 <> EmptyString /\
    ~ In (Ascii.ascii_of_nat 10) (chars group3).
Proof.
  destruct s as [|c s]; [done|]. cbn [match_data].
  destruct (Ascii.eqb_spec c ","%char) as [->|_]; [|done].
  destruct (line_spec s) as (rest & Hs & Hnot).
  destruct (line s) as [|a l] eqn:Hl; [done|]. intros [= <-]. exists (String a l), rest.
  split; [done|]. split; [by rewrite string_app_cons, string_app_nil_l, <- Hs|]. by split.
Qed.

(** Where group 1 may end: a separator is what can follow it. *)
Lemma match_base64_no_separator (group1 : string) (c : Ascii.ascii) (s : string) :
  c <> ";"%char -> c <> ","%char -> match_base64 group1 (String c s) = None.
Proof.
  intros Hsemi Hcomma. unfold match_base64. cbn [strip_prefix match_data].
  destruct (Ascii.eqb_spec ";"%char c) as [<-|_]; [done|].
  by destruct (Ascii.eqb_spec c ","%char).
Qed.

Lemma match_base64_parameter (group1 rest : string) :
  startswith "base64," rest = false -> match_base64 group1 (String ";"%char rest) = None.
Proof.
  intros Hrest. unfold match_base64.
  change (strip_prefix ";base64" (String ";"%char rest)) with (strip_prefix "base64" rest).
  destruct (strip_prefix "base64" rest) as [s'|] eqn:Hs; [|done].
  change "base64," with ("base64" +:+ ",") in Hrest.
  rewrite (strip_prefix_startswith "base64" "," rest s' Hs) in Hrest.
  destruct s' as [|c s']; [done|]. cbn [startswith] in Hrest. cbn [match_data].
  destruct (Ascii.eqb_spec c ","%char) as [->|_]; [done|].
  by destruct (Ascii.eqb ","%char c).
Qed.

(** No comma and no [;base64,] where group 1 must end: no match. *)
Lemma match_mediatype_none (body tail : string) :
  ~ In ";"%char (chars body) -> ~ In ","%char (chars body) ->
  tail = EmptyString \/
    (exists rest, tail = String ";"%char rest /\ startswith "base64," rest = false) ->
  forall taken, match_mediatype taken (body +:+ tail) = None.
Proof.
  intros Hsemi Hcomma Htail. induction body as [|c body IH]; intros taken.
  - rewrite string_app_nil_l. destruct Htail as [->|(rest & -> & Hrest)].
    + cbn [match_mediatype]. by destruct taken.
    + cbn [match_mediatype]. destruct taken; [done|]. cbn [Ascii.eqb Bool.eqb].
      by apply match_base64_parameter.
  - cbn [String.list_ascii_of_string In] in Hsemi, Hcomma.
    rewrite string_app_cons. cbn [match_mediatype].
    destruct (Ascii.eqb_spec c ";"%char) as [->|Hne]; [tauto|].
    rewrite IH by tauto. destruct taken; [done|].
    apply match_base64_no_separator; [done|]. intros ->. tauto.
Qed.

Lemma match_mediatype_base64 (payload : string) :
  payload <> EmptyString -> ~ In (Ascii.ascii_of_nat 10) (chars payload) ->
  forall mediatype taken,
    ~ In ";"%char (chars mediatype) -> taken +:+ mediatype <> EmptyString ->
    match_mediatype taken (mediatype +:+ ";base64," +:+ payload) =
    Some (taken +:+ mediatype, true, payload).
Proof.
  intros Hpayload Hline. induction mediatype as [|c mediatype IH]; intros taken Hsemi Hne.
  - rewrite string_app_nil_r in *. rewrite string_app_nil_l.
    change (";base64," +:+ payload) with (String ";"%char ("base64," +:+ payload)).
    cbn [match_mediatype]. destruct taken as [|a taken]; [done|]. cbn [Ascii.eqb Bool.eqb].
    unfold match_base64.
    change (strip_prefix ";base64" (String ";"%char ("base64," +:+ payload)))
      with (Some (String ","%char payload)).
    cbn [match_data Ascii.eqb Bool.eqb]. rewrite (line_whole _ Hline).
    by destruct payload.
  - cbn [String.list_ascii_of_string In] in Hsemi.
    rewrite string_app_cons. cbn [match_mediatype].
    destruct (Ascii.eqb_spec c ";"%char) as [->|_]; [tauto|].
    rewrite IH.
    + by rewrite string_app_assoc.
    + tauto.
    + rewrite string_app_assoc. by destruct taken.
Qed.

Lemma match_mediatype_plain (payload : string) :
  payload <> EmptyString -> ~ In (Ascii.ascii_of_nat 10) (chars payload) ->
  ~ In ";"%char (chars payload) -> ~ In ","%char (chars payload) ->
  forall mediatype taken,
    ~ In ";"%char (chars mediatype) -> taken +:+ mediatype <> EmptyString ->
    match_mediatype taken (mediatype +:+ "," +:+ payload) =
    Some (taken +:+ mediatype, false, payload).
Proof.
  intros Hpayload Hline Hsemi' Hcomma.
  induction mediatype as [|c mediatype IH]; intros taken Hsemi Hne.
  - rewrite string_app_nil_r in *. rewrite string_app_nil_l.
    change ("," +:+ payload) with (String ","%char payload).
    cbn [match_mediatype Ascii.eqb Bool.eqb].
    rewrite <- (string_app_nil_r payload) at 1.
    rewrite (match_mediatype_none payload EmptyString Hsemi' Hcomma) by (by left).
    destruct taken as [|a taken]; [done|]. unfold match_base64.
    cbn [strip_prefix match_data Ascii.eqb Bool.eqb]. rewrite (line_whole _ Hline).
    by destruct payload.
  - cbn [String.list_ascii_of_string In] in Hsemi.
    rewrite string_app_cons. cbn [match_mediatype].
    destruct (Ascii.eqb_spec c ";"%char) as [->|_]; [tauto|].
    rewrite IH.
    + by rewrite string_app_assoc.
    + tauto.
    + rewrite string_app_assoc. by destruct taken.
Qed.

(** What a match says of the text matched. *)
Lemma match_mediatype_spec (s : string) :
  forall taken group1 group2 group3,
    match_mediatype taken s = Some (group1, group2, group3) ->
    exists mediatype rest,
      group1 = taken +:+ mediatype /\ group1 <> EmptyString /\
      ~ In ";"%char (chars mediatype) /\
      s = mediatype +:+ (if group2 then ";base64," else ",") +:+ group3 +:+ rest /\
      group3 <> EmptyString /\ ~ In (Ascii.ascii_of_nat 10) (chars group3).
Proof.
  assert (Hstop : forall taken s group1 group2 group3,
            match taken with
            | EmptyString => None
            | _ => match_base64 taken s
            end = Some (group1, group2, group3) ->
            exists rest,
              group1 = taken /\ group1 <> EmptyString /\
              s = (if group2 then ";base64," else ",") +:+ group3 +:+ rest /\
              group3 <> EmptyString /\ ~ In (Ascii.ascii_of_nat 10) (chars group3)).
  { intros taken s0 group1 group2 group3. destruct taken as [|a taken]; [done|].
    unfold match_base64.
    destruct (strip_prefix ";base64" s0) as [s'|] eqn:Hs;
      [destruct (match_data (String a taken) true s') as [m|] eqn:Hm|].
    - intros [= ->]. apply match_data_spec in Hm as (g3 & rest & [= -> -> ->] & Hs' & Hne & Hnl).
      exists rest. apply strip_prefix_spec in Hs. subst s0 s'.
      repeat split; try done.
    - intros Hm'. apply match_data_spec in Hm' as (g3 & rest & [= -> -> ->] & Hs' & Hne & Hnl).
      exists rest. by repeat split.
    - intros Hm'. apply match_data_spec in Hm' as (g3 & rest & [= -> -> ->] & Hs' & Hne & Hnl).
      exists rest. by repeat split. }
  induction s as [|c s IH]; intros taken group1 group2 group3; cbn [match_mediatype].
  - intros Hm. apply Hstop in Hm as (rest & -> & Hne & Hs & Hg3 & Hnl).
    exists EmptyString, rest. rewrite string_app_nil_r, string_app_nil_l.
    repeat split; try done. intros [].
  - destruct (Ascii.eqb_spec c ";"%char) as [->|Hc].
    + intros Hm. apply Hstop in Hm as (rest & -> & Hne & Hs & Hg3 & Hnl).
      exists EmptyString, rest. rewrite string_app_nil_r, string_app_nil_l.
      repeat split; try done. intros [].
    + destruct (match_mediatype (taken +:+ String c EmptyString) s) as [m|] eqn:Hm.
      * intros [= ->]. apply IH in Hm as (mediatype & rest & -> & Hne & Hsemi & -> & Hg3 & Hnl).
        exists (String c mediatype), rest. rewrite string_app_assoc in *.
        repeat split; try done.
        cbn [String.list_ascii_of_string In]. intros [Heq|Hin]; [by apply Hc|by apply Hsemi].
      * intros Hm'. apply Hstop in Hm' as (rest & -> & Hne & Hs & Hg3 & Hnl).
        exists EmptyString, rest. rewrite string_app_nil_r, string_app_nil_l.
        repeat split; try done. intros [].
Qed.

(** X17.  A URI of the form [data:<media type>;base64,<payload>], with a
    media type that is not empty and has no semicolon and a payload that
    is not empty and has no newline, is taken apart as written: the media
    type comes back whole, commas included, the encoding is [base64] and
    the data is what [b64decode] makes of the payload, whose error is the
    only one possible. *)
Theorem parse_data_uri_base64 `{PythonLib} (encode_utf8 : string -> list Byte.byte)
    (mediatype payload : string) :
  mediatype <> EmptyString -> ~ In ";"%char (chars mediatype) ->
  payload <> EmptyString -> ~ In (Ascii.ascii_of_nat 10) (chars payload) ->
  parse_data_uri encode_utf8 ("data:" +:+ mediatype +:+ ";base64," +:+ payload) =
  match b64decode payload with
  | Some data => inr (mediatype, "base64", data)
  | None => inl BinasciiError
  end.
Proof.
  intros Hne Hsemi Hpayload Hline. unfold parse_data_uri, re_match_data_uri.
  change (strip_prefix "data:" ("data:" +:+ mediatype +:+ ";base64," +:+ payload))
    with (Some (mediatype +:+ ";base64," +:+ payload)).
  cbv beta iota.
  rewrite (match_mediatype_base64 payload Hpayload Hline mediatype EmptyString Hsemi Hne).
  rewrite string_app_nil_l. by destruct mediatype.
Qed.

(** X17, witness. *)
Lemma parse_data_uri_base64_witness :
  parse_data_uri (H := image_lib) String.list_byte_of_string "data:image/png;base64,iVBORw==" =
  inr ("image/png", "base64", [Byte.x89; Byte.x50; Byte.x4e; Byte.x47]).
Proof.
  refine (parse_data_uri_base64 (H := image_lib) String.list_byte_of_string
            "image/png" "iVBORw==" _ _ _ _).
  - discriminate.
  - vm_compute. intuition discriminate.
  - discriminate.
  - vm_compute. intuition discriminate.
Defined.

(** X18.  A URI without [;base64] is cut at its last comma: with a payload
    that has no comma, semicolon or newline, all that stands between
    [data:] and the last comma is the media type, further commas
    included, and the data is the payload in UTF-8.  So a text with a
    comma in it loses its beginning to the media type. *)
Theorem parse_data_uri_plain_last_comma `{PythonLib} (encode_utf8 : string -> list Byte.byte)
    (mediatype payload : string) :
  mediatype <> EmptyString -> ~ In ";"%char (chars mediatype) ->
  payload <> EmptyString -> ~ In (Ascii.ascii_of_nat 10) (chars payload) ->
  ~ In ";"%char (chars payload) -> ~ In ","%char (chars payload) ->
  parse_data_uri encode_utf8 ("data:" +:+ mediatype +:+ "," +:+ payload) =
  inr (mediatype, "plain", encode_utf8 payload).
Proof.
  intros Hne Hsemi Hpayload Hline Hsemi' Hcomma. unfold parse_data_uri, re_match_data_uri.
  change (strip_prefix "data:" ("data:" +:+ mediatype +:+ "," +:+ payload))
    with (Some (mediatype +:+ "," +:+ payload)).
  cbv beta iota.
  rewrite (match_mediatype_plain payload Hpayload Hline Hsemi' Hcomma mediatype EmptyString
             Hsemi Hne).
  rewrite string_app_nil_l. by destruct mediatype.
Qed.

(** X18, witness.  The text [hello, world] is read as the text [ world]
    of type [text/plain,hello]. *)
Lemma parse_data_uri_plain_last_comma_witness :
  parse_data_uri (H := sample_lib) String.list_byte_of_string "data:text/plain,hello, world" =
  inr ("text/plain,hello", "plain", String.list_byte_of_string " world").
Proof.
  refine (parse_data_uri_plain_last_comma (H := sample_lib) String.list_byte_of_string
            "text/plain,hello" " world" _ _ _ _ _ _).
  - discriminate.
  - vm_compute. intuition discriminate.
  - discriminate.
  - vm_compute. intuition discriminate.
  - vm_compute. intuition discriminate.
  - vm_compute. intuition discriminate.
Defined.

(** X19.  URIs that are refused as invalid.  When no comma stands before
    the first semicolon, or anywhere in a URI without semicolon, the URI
    is refused unless [;base64,] follows at that semicolon: a media type
    with a parameter, as in [text/plain;charset=utf-8], is never
    accepted.  And the media type cannot be left out: [data:,<payload>]
    is refused when the payload has no comma and no semicolon. *)
Theorem parse_data_uri_rejects `{PythonLib} (encode_utf8 : string -> list Byte.byte)
    (mediatype tail : string) :
  ~ In ";"%char (chars mediatype) -> ~ In ","%char (chars mediatype) ->
  tail = EmptyString \/
    (exists rest, tail = String ";"%char rest /\ startswith "base64," rest = false) ->
  parse_data_uri encode_utf8 ("data:" +:+ mediatype +:+ tail) =
    inl (ValueError "Invalid data URI format") /\
  (tail = EmptyString ->
   parse_data_uri encode_utf8 ("data:," +:+ mediatype) =
     inl (ValueError "Invalid data URI format")).
Proof.
  intros Hsemi Hcomma Htail. unfold parse_data_uri, re_match_data_uri. split.
  - change (strip_prefix "data:" ("data:" +:+ mediatype +:+ tail))
      with (Some (mediatype +:+ tail)).
    cbv beta iota.
    by rewrite (match_mediatype_none mediatype tail Hsemi Hcomma Htail EmptyString).
  - intros _.
    change (strip_prefix "data:" ("data:," +:+ mediatype))
      with (Some (String ","%char mediatype)).
    cbv beta iota.
    cbn [match_mediatype Ascii.eqb Bool.eqb]. rewrite string_app_nil_l.
    rewrite <- (string_app_nil_r mediatype) at 1.
    by rewrite (match_mediatype_none mediatype EmptyString Hsemi Hcomma (or_introl eq_refl)).
Qed.

(** X19, witness.  A text with its character set named. *)
Lemma parse_data_uri_rejects_witness :
  parse_data_uri (H := sample_lib) String.list_byte_of_string
    "data:text/plain;charset=utf-8,hello" = inl (ValueError "Invalid data URI format").
Proof.
  refine (proj1 (parse_data_uri_rejects (H := sample_lib) String.list_byte_of_string
                   "text/plain" ";charset=utf-8,hello" _ _ _)).
  - vm_compute. intuition discriminate.
  - vm_compute. intuition discriminate.
  - right. eexists. split; reflexivity.
Defined.

(** X20.  Whatever [parse_data_uri] accepts has the form
    [data:<media type>,<data>] or [data:<media type>;base64,<data>] with a
    media type that is not empty and has no semicolon, which is returned
    as it stands (the default [text/plain] is never used), and with data
    that is not empty and ends at the first newline, the rest of the URI
    being ignored. *)
Theorem parse_data_uri_accepts `{PythonLib} (encode_utf8 : string -> list Byte.byte)
    (data_uri mime encoding : string) (data : list Byte.byte) :
  parse_data_uri encode_utf8 data_uri = inr (mime, encoding, data) ->
  mime <> EmptyString /\ ~ In ";"%char (chars mime) /\
  exists data_part rest,
    data_part <> EmptyString /\ ~ In (Ascii.ascii_of_nat 10) (chars data_part) /\
    ((encoding = "base64" /\
      data_uri = "data:" +:+ mime +:+ ";base64," +:+ data_part +:+ rest /\
      b64decode data_part = Some data) \/
     (encoding = "plain" /\
      data_uri = "data:" +:+ mime +:+ "," +:+ data_part +:+ rest /\
      data = encode_utf8 data_part)).
Proof.
  unfold parse_data_uri, re_match_data_uri.
  destruct (strip_prefix "data:" data_uri) as [s|] eqn:Hs; [|done].
  apply strip_prefix_spec in Hs as ->.
  destruct (match_mediatype EmptyString s) as [[[group1 group2] group3]|] eqn:Hm; [|done].
  apply match_mediatype_spec in Hm
    as (mediatype & rest & -> & Hne & Hsemi & -> & Hg3 & Hnl).
  rewrite string_app_nil_l in *.
  destruct mediatype as [|c mediatype]; [done|]. cbn [truthy].
  destruct group2.
  - destruct (b64decode group3) as [d|] eqn:Hd; [|done]. intros [= <- <- <-].
    split; [done|]. split; [done|]. exists group3, rest.
    split; [done|]. split; [done|]. left. by repeat split.
  - intros [= <- <- <-].
    split; [done|]. split; [done|]. exists group3, rest.
    split; [done|]. split; [done|]. right. by repeat split.
Qed.

(** X20, witness.  Of two lines only the first is read. *)
Lemma parse_data_uri_accepts_witness :
  exists data_part rest,
    "data:text/csv,a" +:+ nl +:+ "b" = "data:text/csv," +:+ data_part +:+ rest /\
    data_part <> EmptyString.
Proof.
  destruct (parse_data_uri_accepts (H := sample_lib) String.list_byte_of_string
              ("data:text/csv,a" +:+ nl +:+ "b") "text/csv" "plain"
              (String.list_byte_of_string "a") eq_refl)
    as (_ & _ & data_part & rest & Hne & _ & [(Henc & _)|(_ & Huri & _)]).
  - discriminate Henc.
  - exists data_part, rest. split; [exact Huri|exact Hne].
Defined.

(** The base64 text of [b64encode] is one line. *)
Lemma b64_digit_not_newline (n : N) : b64_digit n <> Ascii.ascii_of_nat 10.
Proof.
  unfold b64_digit.
  assert (Hget : forall (s : string) (k : nat),
            Forall (fun c => c <> Ascii.ascii_of_nat 10) (chars s) ->
            match String.get k s with
            | Some c => c
            | None => "="%char
            end <> Ascii.ascii_of_nat 10).
  { induction s as [|c s IH]; intros k Hs; [by destruct k|].
    cbn [String.list_ascii_of_string] in Hs. apply Forall_cons in Hs as [Hc Hs].
    destruct k as [|k]; cbn [String.get]; [done|by apply IH]. }
  apply Hget. unfold b64_alphabet. cbn [String.list_ascii_of_string].
  repeat (match goal with |- Forall _ _ => constructor end); discriminate.
Qed.

Lemma b64encode_one_line (bs : list Byte.byte) :
  ~ In (Ascii.ascii_of_nat 10) (chars (b64encode bs)).
Proof.
  assert (Hlen : forall (n : nat) (l : list Byte.byte), (length l <= n)%nat ->
            ~ In (Ascii.ascii_of_nat 10) (chars (b64encode l))).
  { induction n as [|n IH]; intros l Hl.
    - destruct l; [intros []|cbn in Hl; lia].
    - destruct l as [|a [|b [|c rest]]]; cbn [b64encode]; cbn zeta;
        cbn [String.list_ascii_of_string In].
      + intros [].
      + intros [Hd|[Hd|[Hd|[Hd|[]]]]];
          first [by apply b64_digit_not_newline in Hd|discriminate Hd].
      + intros [Hd|[Hd|[Hd|[Hd|[]]]]];
          first [by apply b64_digit_not_newline in Hd|discriminate Hd].
      + intros [Hd|[Hd|[Hd|[Hd|Hin]]]];
          try (by apply b64_digit_not_newline in Hd).
        revert Hin. apply IH. cbn [length] in Hl. lia. }
  by apply (Hlen (length bs)).
Qed.

(** X21.  The data URI that the providers build for an image attachment
    is one that [parse_data_uri] accepts, given a media type that is not
    empty and has no semicolon and a content of one byte at least: the
    media type is read back as it was and the base64 text of the content
    reaches the decoder whole. *)
Theorem image_data_uri_parses_back `{PythonLib} (encode_utf8 : string -> list Byte.byte)
    (att : attachment) :
  mime_type att <> EmptyString -> ~ In ";"%char (chars (mime_type att)) ->
  content att <> [] ->
  image_part att = ImageUrlPart (data_uri att) /\
  parse_data_uri encode_utf8 (data_uri att) =
  match b64decode (b64encode (content att)) with
  | Some data => inr (mime_type att, "base64", data)
  | None => inl BinasciiError
  end.
Proof.
  intros Hne Hsemi Hcontent. split; [done|].
  unfold parse_data_uri, re_match_data_uri, data_uri.
  change (strip_prefix "data:" ("data:" +:+ mime_type att +:+ ";base64," +:+
                                b64encode (content att)))
    with (Some (mime_type att +:+ ";base64," +:+ b64encode (content att))).
  cbv beta iota.
  rewrite (match_mediatype_base64 (b64encode (content att))).
  - rewrite string_app_nil_l. by destruct (mime_type att).
  - by destruct (content att) as [|a [|b [|c rest]]].
  - apply b64encode_one_line.
  - done.
  - done.
Qed.

(** X21, witness. *)
Lemma image_data_uri_parses_back_witness :
  parse_data_uri (H := image_lib) String.list_byte_of_string (data_uri sample_image) =
  inr ("image/png", "base64", content sample_image).
Proof.
  refine (proj2 (image_data_uri_parses_back (H := image_lib) String.list_byte_of_string
                   sample_image _ _ _)).
  - discriminate.
  - vm_compute. intuition discriminate.
  - discriminate.
Defined.
